(** * USDC wallet: transfer builder, recipient classification, signing step
      and balance refresh

    A shallow embedding of the TypeScript sources

      - [src/app/page.tsx]                    (client: [detectInputType],
        [isValidEmail], [isValidWalletAddress], [isInsufficientGasError],
        [fetchBalances], the signing part of [handleSend]);
      - [src/app/api/token-transfer/route.ts] (server: [POST], the transfer
        builder);
      - the balance route                     (server: [GET]).

    JavaScript strings are sequences of UTF-16 code units, JavaScript numbers
    are IEEE-754 binary64 values (the Standard Library's [spec_float] with
    [prec = 53], [emax = 1024]), exceptions are an explicit [Throw] result. *)

From Stdlib Require Import Ascii String.
From Stdlib Require Import ZArith NArith List Bool Lia.
From Stdlib Require Import Floats.SpecFloat.
Import ListNotations.

Open Scope string_scope.
Open Scope list_scope.

Set Implicit Arguments.

(* ================================================================== *)
(** * JavaScript strings *)
(* ================================================================== *)

Module JsString.

(** A string value is a finite sequence of 16-bit code units. *)
Definition code_unit := N.
Definition jsstring := list code_unit.

Definition cu (a : ascii) : code_unit := N_of_ascii a.

(** Literals: an ASCII [string] read as code units. *)
Definition js (s : string) : jsstring := map cu (list_ascii_of_string s).

Definition eqb (s t : jsstring) : bool :=
  if list_eq_dec N.eq_dec s t then true else false.

(** [WhiteSpace] and [LineTerminator] code points of ECMA-262, the ones
    [String.prototype.trim] removes. *)
Definition is_white_space (c : code_unit) : bool :=
  existsb (N.eqb c)
    [ 9; 10; 11; 12; 13; 32; 160; 5760; 8232; 8233; 8239; 8287; 12288; 65279 ]%N
  || ((8192 <=? c) && (c <=? 8202))%N.

Fixpoint trimStart (s : jsstring) : jsstring :=
  match s with
  | c :: s' => if is_white_space c then trimStart s' else s
  | [] => []
  end.

Definition trimEnd (s : jsstring) : jsstring := rev (trimStart (rev s)).

Definition trim (s : jsstring) : jsstring := trimEnd (trimStart s).

(** [s.includes(c)] for a one-unit needle. *)
Definition includes_unit (c : code_unit) (s : jsstring) : bool :=
  existsb (N.eqb c) s.

(** [s.startsWith(p)] *)
Fixpoint startsWith (p s : jsstring) : bool :=
  match p, s with
  | [], _ => true
  | a :: p', b :: s' => N.eqb a b && startsWith p' s'
  | _ :: _, [] => false
  end.

(** [s.includes(needle)] for an arbitrary needle. *)
Fixpoint includes (needle s : jsstring) : bool :=
  startsWith needle s ||
  match s with
  | [] => false
  | _ :: s' => includes needle s'
  end.

(** [s.split(sep)] for a one-unit separator: the pieces between
    occurrences, always at least one piece. *)
Fixpoint split (sep : code_unit) (s : jsstring) : list jsstring :=
  match s with
  | [] => [[]]
  | c :: s' =>
      if N.eqb c sep then [] :: split sep s'
      else match split sep s' with
           | p :: ps => (c :: p) :: ps
           | [] => [[c]]
           end
  end.

Definition in_range_N (lo hi c : code_unit) : bool :=
  ((lo <=? c) && (c <=? hi))%N.

Definition in_range (lo hi : ascii) (c : code_unit) : bool :=
  in_range_N (cu lo) (cu hi) c.

(** [s.slice(n)] for [n >= 0] *)
Definition slice_from (n : nat) (s : jsstring) : jsstring := skipn n s.

End JsString.

Import JsString.

(* ================================================================== *)
(** * Regular expressions (the fragment used by the two patterns) *)
(* ================================================================== *)

Module Regex.

Inductive regex : Type :=
| Empty                                       (* matches nothing *)
| Eps                                         (* matches the empty string *)
| Class (p : code_unit -> bool)               (* [...] and literals *)
| Seq (a b : regex)
| Alt (a b : regex)
| Star (a : regex)                            (* a* *)
| Rep (a : regex) (lo hi : nat).              (* a{lo,hi} *)

Definition Chr (a : ascii) : regex := Class (N.eqb (cu a)).
Definition Opt (a : regex) : regex := Alt Eps a.      (* (?:a)? *)
Definition Plus (a : regex) : regex := Seq a (Star a). (* a+ *)

(** The language of a pattern. *)
Inductive matches : regex -> jsstring -> Prop :=
| MEps : matches Eps []
| MClass p c : p c = true -> matches (Class p) [c]
| MSeq a b s t : matches a s -> matches b t -> matches (Seq a b) (s ++ t)
| MAltL a b s : matches a s -> matches (Alt a b) s
| MAltR a b s : matches b s -> matches (Alt a b) s
| MStar0 a : matches (Star a) []
| MStarS a s t : matches a s -> matches (Star a) t -> matches (Star a) (s ++ t)
| MRep0 a hi : matches (Rep a 0 hi) []
| MRepS a lo hi s t :
    matches a s -> matches (Rep a (pred lo) hi) t ->
    matches (Rep a lo (S hi)) (s ++ t).

(** Matching by derivatives. *)
Fixpoint nullable (r : regex) : bool :=
  match r with
  | Empty => false
  | Eps => true
  | Class _ => false
  | Seq a b => nullable a && nullable b
  | Alt a b => nullable a || nullable b
  | Star _ => true
  | Rep a lo hi => Nat.eqb lo 0 || (Nat.leb lo hi && nullable a)
  end.

Definition mkSeq (a b : regex) : regex :=
  match a with
  | Empty => Empty
  | Eps => b
  | _ => Seq a b
  end.

Definition mkAlt (a b : regex) : regex :=
  match a, b with
  | Empty, _ => b
  | _, Empty => a
  | _, _ => Alt a b
  end.

Fixpoint deriv (c : code_unit) (r : regex) : regex :=
  match r with
  | Empty => Empty
  | Eps => Empty
  | Class p => if p c then Eps else Empty
  | Seq a b =>
      mkAlt (mkSeq (deriv c a) b) (if nullable a then deriv c b else Empty)
  | Alt a b => mkAlt (deriv c a) (deriv c b)
  | Star a => mkSeq (deriv c a) (Star a)
  | Rep a lo hi =>
      match hi with
      | O => Empty
      | S hi' => mkSeq (deriv c a) (Rep a (pred lo) hi')
      end
  end.

Fixpoint derivs (s : jsstring) (r : regex) : regex :=
  match s with
  | [] => r
  | c :: s' => derivs s' (deriv c r)
  end.

(** [/^r$/.test(s)]: the whole string is in the language of [r]. *)
Definition test (r : regex) (s : jsstring) : bool := nullable (derivs s r).

End Regex.

Import Regex.

(* ================================================================== *)
(** * Recipient classification ([src/app/page.tsx]) *)
(* ================================================================== *)

Definition one_of (s : string) (c : code_unit) : bool :=
  existsb (N.eqb c) (js s).

(** [[1-9A-HJ-NP-Za-km-z]] *)
Definition is_base58 (c : code_unit) : bool :=
  in_range "1" "9" c || in_range "A" "H" c || in_range "J" "N" c
  || in_range "P" "Z" c || in_range "a" "k" c || in_range "m" "z" c.

(** [[a-zA-Z0-9]] *)
Definition is_alnum (c : code_unit) : bool :=
  in_range "a" "z" c || in_range "A" "Z" c || in_range "0" "9" c.

(** [[a-zA-Z0-9-]] *)
Definition is_alnum_hyphen (c : code_unit) : bool :=
  is_alnum c || N.eqb c (cu "-").

(** [[a-zA-Z0-9.!#$%&'*+/=?^_`{|}~-]] *)
Definition is_local_part (c : code_unit) : bool :=
  is_alnum c || one_of ".!#$%&'*+/=?^_`{|}~-" c.

(** [/^[1-9A-HJ-NP-Za-km-z]{32,44}$/] *)
Definition solanaAddressRegex : regex := Rep (Class is_base58) 32 44.

(** [[a-zA-Z0-9](?:[a-zA-Z0-9-]{0,61}[a-zA-Z0-9])?] *)
Definition domain_label : regex :=
  Seq (Class is_alnum)
      (Opt (Seq (Rep (Class is_alnum_hyphen) 0 61) (Class is_alnum))).

(** [/^[a-zA-Z0-9.!#$%&'*+/=?^_`{|}~-]+@label(?:\.label)*$/] *)
Definition emailRegex : regex :=
  Seq (Plus (Class is_local_part))
      (Seq (Chr "@")
           (Seq domain_label (Star (Seq (Chr ".") domain_label)))).

Definition isValidWalletAddress (address : jsstring) : bool :=
  test solanaAddressRegex (trim address).

Definition isValidEmail (email : jsstring) : bool :=
  let trimmedEmail := trim email in
  if (254 <? length trimmedEmail)%nat then false
  else if negb (Nat.eqb (length (split (cu "@") trimmedEmail)) 2) then false
  else test emailRegex trimmedEmail.

Inductive InputType := Address | Email | Invalid.

Definition detectInputType (input : jsstring) : InputType :=
  let trimmed := trim input in
  match trimmed with
  | [] => Invalid
  | _ =>
      if includes_unit (cu "@") trimmed then
        (if isValidEmail trimmed then Email else Invalid)
      else
        (if isValidWalletAddress trimmed then Address else Invalid)
  end.

(* ================================================================== *)
(** * JavaScript numbers *)
(* ================================================================== *)

Module JsNumber.

(** The Number type: binary64. *)
Definition prec : Z := 53.
Definition emax : Z := 1024.
Definition number := spec_float.

Definition NaN : number := S754_nan.
Definition zero : number := S754_zero false.

(** The Number nearest to an integer (ties to even). *)
Definition of_Z (z : Z) : number := binary_normalize prec emax z 0 false.

Definition mul (x y : number) : number := SFmul prec emax x y.
Definition div (x y : number) : number := SFdiv prec emax x y.
Definition leb (x y : number) : bool := SFleb x y.      (* x <= y *)
Definition ltb (x y : number) : bool := SFltb x y.      (* x < y *)

Definition isNaN (x : number) : bool :=
  match x with S754_nan => true | _ => false end.

(** Truthiness of a number: [NaN], [+0] and [-0] are falsy. *)
Definition truthy (x : number) : bool :=
  match x with S754_nan | S754_zero _ => false | _ => true end.

(** [Math.floor] *)
Definition floor (x : number) : number :=
  match x with
  | S754_finite s m e =>
      if (0 <=? e)%Z then x
      else
        match Z.shiftr (cond_Zopp s (Zpos m)) (- e) with
        | Z0 => S754_zero s
        | q => binary_normalize prec emax q 0 s
        end
  | _ => x
  end.

(** The mathematical value of an integral Number, as [BigInt(x)] computes
    it; [None] is the [RangeError] for [NaN], the infinities and
    non-integers. *)
Definition to_integer (x : number) : option Z :=
  match x with
  | S754_zero _ => Some 0%Z
  | S754_finite s m e =>
      if (0 <=? e)%Z then Some (cond_Zopp s (Zpos m * 2 ^ e))
      else if (Zpos m mod 2 ^ (- e) =? 0)%Z
           then Some (cond_Zopp s (Zpos m / 2 ^ (- e)))
           else None
  | _ => None
  end.

(** A rounded value carries the sign it was given: zero, finite or
    infinite, never [NaN]. *)
Definition signed_as (s : bool) (x : number) : Prop :=
  match x with
  | S754_zero s' | S754_infinity s' | S754_finite s' _ _ => s' = s
  | S754_nan => False
  end.

(** ** Decimal literals *)

(** What a prefix of a string denotes under the [StrDecimalLiteral]
    grammar: nothing, an infinity, or the decimal [(-1)^neg * m * 10^e]. *)
Inductive literal :=
| LNone
| LInfinity (neg : bool)
| LDecimal (neg : bool) (m : N) (e : Z).

(** Rounding a decimal to the nearest Number, ties to even. *)
Definition of_decimal (neg : bool) (m : N) (e : Z) : number :=
  match m with
  | N0 => S754_zero neg
  | Npos p =>
      if (0 <=? e)%Z then binary_round prec emax neg (p * Z.to_pos (10 ^ e)) 0
      else
        let '(q, e', l) :=
          SFdiv_core_binary prec emax (Zpos p) 0 (10 ^ (- e)) 0 in
        binary_round_aux prec emax neg q e' l
  end.

Definition of_literal (l : literal) : number :=
  match l with
  | LNone => NaN
  | LInfinity neg => S754_infinity neg
  | LDecimal neg m e => of_decimal neg m e
  end.

Definition is_digit (c : code_unit) : bool := in_range "0" "9" c.

(** The longest run of decimal digits at the front, and what follows. *)
Fixpoint take_digits (s : jsstring) : list N * jsstring :=
  match s with
  | c :: s' =>
      if is_digit c then
        let '(ds, r) := take_digits s' in ((c - 48)%N :: ds, r)
      else ([], s)
  | [] => ([], [])
  end.

Definition digits_value (ds : list N) : N :=
  fold_left (fun acc d => (acc * 10 + d)%N) ds 0%N.

(** An [ExponentPart] at the front of [s]: its value and what follows it;
    when [s] does not start with a complete one the literal ends before
    it, the value is [0] and all of [s] is left. *)
Definition parse_exponent (s : jsstring) : Z * jsstring :=
  match s with
  | c :: s1 =>
      if N.eqb c (cu "e") || N.eqb c (cu "E") then
        match s1 with
        | sg :: s2 =>
            if N.eqb sg (cu "+") then
              match take_digits s2 with
              | ([], _) => (0%Z, s)
              | (ds, r) => (Z.of_N (digits_value ds), r)
              end
            else if N.eqb sg (cu "-") then
              match take_digits s2 with
              | ([], _) => (0%Z, s)
              | (ds, r) => ((- Z.of_N (digits_value ds))%Z, r)
              end
            else
              match take_digits s1 with
              | ([], _) => (0%Z, s)
              | (ds, r) => (Z.of_N (digits_value ds), r)
              end
        | [] => (0%Z, s)
        end
      else (0%Z, s)
  | [] => (0%Z, [])
  end.

(** [StrUnsignedDecimalLiteral]: [Infinity], [d+.d*(e..)?], [.d+(e..)?]
    or [d+(e..)?]; the longest prefix that fits, and the rest. *)
Definition parse_unsigned (neg : bool) (s : jsstring) : literal * jsstring :=
  if startsWith (js "Infinity") s then (LInfinity neg, skipn 8 s)
  else
    let '(ip, r1) := take_digits s in
    match r1 with
    | c :: r2 =>
        if N.eqb c (cu ".") then
          let '(fp, r3) := take_digits r2 in
          match ip, fp with
          | [], [] => (LNone, s)
          | _, _ =>
              let '(x, r4) := parse_exponent r3 in
              (LDecimal neg (digits_value (ip ++ fp))
                        (x - Z.of_nat (length fp)), r4)
          end
        else
          match ip with
          | [] => (LNone, s)
          | _ =>
              let '(x, r4) := parse_exponent r1 in
              (LDecimal neg (digits_value ip) x, r4)
          end
    | [] =>
        match ip with
        | [] => (LNone, s)
        | _ => (LDecimal neg (digits_value ip) 0, [])
        end
    end.

(** The literal at the front of a string: leading white space is skipped,
    then an optional sign, then the longest unsigned literal. *)
Definition parse_prefix (s : jsstring) : literal * jsstring :=
  match trimStart s with
  | c :: r =>
      if N.eqb c (cu "+") then parse_unsigned false r
      else if N.eqb c (cu "-") then parse_unsigned true r
      else parse_unsigned false (c :: r)
  | [] => (LNone, [])
  end.

(** What [parseFloat] reads: the literal; anything after it is ignored. *)
Definition parse_literal (s : jsstring) : literal := fst (parse_prefix s).

(** [parseFloat(s)] *)
Definition parseFloat (s : jsstring) : number := of_literal (parse_literal s).

End JsNumber.

Import JsNumber.

(* ================================================================== *)
(** * Values, exceptions and HTTP responses *)
(* ================================================================== *)

Module Js.

(** Values as the sources handle them at type [unknown] / [any]: JSON data,
    [undefined], and instances of [Error] with their message. *)
#[warnings="-register-all"]
Inductive value :=
| VUndefined
| VNull
| VBool (b : bool)
| VNumber (x : number)
| VString (s : jsstring)
| VObject (fields : list (string * value))
| VArray (items : list value)
| VError (message : jsstring).

(** What [!v] tests. *)
Definition truthy (v : value) : bool :=
  match v with
  | VUndefined | VNull => false
  | VBool b => b
  | VNumber x => JsNumber.truthy x
  | VString [] => false
  | VString (_ :: _) => true
  | VObject _ | VArray _ | VError _ => true
  end.

(** [a || b] *)
Definition or_else (a b : value) : value := if truthy a then a else b.

Fixpoint lookup (k : string) (fields : list (string * value)) : value :=
  match fields with
  | [] => VUndefined
  | (k', v) :: rest => if String.eqb k k' then v else lookup k rest
  end.

(** A computation either returns or throws a value. *)
Inductive result (A : Type) :=
| Return (a : A)
| Throw (e : value).
Arguments Return {A} a.
Arguments Throw {A} e.

Definition bind {A B} (c : result A) (k : A -> result B) : result B :=
  match c with
  | Return a => k a
  | Throw e => Throw e
  end.

(** [try { c } catch (error) { h error }] *)
Definition try_catch {A} (c : result A) (h : value -> result A) : result A :=
  match c with
  | Return a => Return a
  | Throw e => h e
  end.

(** [v.k]: property access; on [null] and [undefined] it is a [TypeError]. *)
Definition get (k : string) (v : value) : result value :=
  match v with
  | VUndefined | VNull =>
      Throw (VError (js "Cannot read properties of null or undefined"))
  | VObject fields => Return (lookup k fields)
  | VError m => Return (if String.eqb k "message" then VString m else VUndefined)
  | VBool _ | VNumber _ | VString _ | VArray _ => Return VUndefined
  end.

(** [error instanceof Error ? error.message : "Unknown error"] *)
Definition message_or_unknown (error : value) : jsstring :=
  match error with
  | VError m => m
  | _ => js "Unknown error"
  end.

(** An optional string field is falsy when absent or empty. *)
Definition present (f : option jsstring) : bool :=
  match f with
  | Some (_ :: _) => true
  | _ => false
  end.

Definition field (f : option jsstring) : jsstring :=
  match f with Some s => s | None => [] end.

(** [NextResponse.json(body, { status })]; the status defaults to 200. *)
Record NextResponse := { status : nat; body : value }.

Definition json_response (b : value) : NextResponse :=
  {| status := 200; body := b |}.

Definition json_response_status (b : value) (st : nat) : NextResponse :=
  {| status := st; body := b |}.

End Js.

Import Js.

Declare Scope js_scope.
Notation "x <- c ;; k" := (bind c (fun x => k))
  (at level 61, c at next level, right associativity) : js_scope.
Open Scope js_scope.

(* ================================================================== *)
(** * The ledger collaborators (web3.js, spl-token) *)
(* ================================================================== *)

(** An SPL token account as [getAccount] returns it; only [amount] is read. *)
Record TokenAccount := { amount : N }.

(** The two instructions the builder emits, by the arguments of
    [createAssociatedTokenAccountInstruction] and
    [createTransferInstruction]. *)
Inductive Instruction (PK : Type) :=
| CreateAssociatedTokenAccount (payer associatedToken owner mint : PK)
| Transfer (source destination owner : PK) (units : Z).
Arguments CreateAssociatedTokenAccount {PK}.
Arguments Transfer {PK}.

(** The library calls the routes make.  A call that can throw returns a
    [result]. *)
Record Ledger := {
  PublicKey : Type;
  Blockhash : Type;
  (** [new PublicKey(s)] *)
  newPublicKey : jsstring -> result PublicKey;
  (** [a.equals(b)] and [a.toBase58()] *)
  equals : PublicKey -> PublicKey -> bool;
  toBase58 : PublicKey -> jsstring;
  (** [getAssociatedTokenAddress(mint, owner)] *)
  getAssociatedTokenAddress : PublicKey -> PublicKey -> result PublicKey;
  (** [getAccount(connection, address)]; throws when the account is absent *)
  getAccount : PublicKey -> result TokenAccount;
  (** [connection.getBalance(publicKey)], in lamports *)
  getBalance : PublicKey -> result N;
  (** [connection.getLatestBlockhash("finalized")] *)
  getLatestBlockhash : result Blockhash;
  (** [new TransactionMessage({..}).compileToV0Message()], wrapped in a
      [VersionedTransaction], serialized and base64-encoded *)
  serializeTransaction :
    PublicKey -> Blockhash -> list (Instruction PublicKey) -> result jsstring
}.

(** [createTransferInstruction(source, destination, owner, amount)] with a
    Number amount: the library converts it with [BigInt(amount)], which
    throws a [RangeError] unless the Number is integral.  [Transfer]
    records that integer, the amount handed to the instruction; the
    library writes it into a u64 field, which holds the same number up to
    [2 ^ 64 - 1]. *)
Definition createTransferInstruction {PK} (source destination owner : PK)
    (amt : number) : result (Instruction PK) :=
  match to_integer amt with
  | Some z => Return (Transfer source destination owner z)
  | None =>
      Throw (VError (js "The number cannot be converted to a BigInt because it is not an integer"))
  end.

(* ================================================================== *)
(** * The transfer builder ([src/app/api/token-transfer/route.ts]) *)
(* ================================================================== *)

Module TokenTransfer.

(** [process.env.NEXT_PUBLIC_USDC_MINT_ADDRESS || "4zMM..."] *)
Definition USDC_MINT_ADDRESS (env_mint : option jsstring) : jsstring :=
  if present env_mint then field env_mint
  else js "4zMMC9srt5Ri5X14GAgXhaHii3GnPAEERYPJgZJDncDU".

(** The request body: [{ from, to, amount }], each a string when present. *)
Record TransferRequest := {
  from : option jsstring;
  to : option jsstring;
  amount_field : option jsstring
}.

Definition error_body (msg : string) : value :=
  VObject [("error", VString (js msg))].

Definition error_body_with_message (msg : string) (m : jsstring) : value :=
  VObject [("error", VString (js msg)); ("message", VString m)].

Definition transfer_body (tx : jsstring) (amt : jsstring) : value :=
  VObject [("transaction", VString tx);
           ("message", VString (js "Transfer " ++ amt ++ js " USDC"))].

(** [10 ** 6] *)
Definition ten_pow_6 : number := of_Z 1000000.

(** [Math.floor(amountNum * 10 ** 6)] *)
Definition transferAmount (amountNum : number) : number :=
  floor (mul amountNum ten_pow_6).

(** Lines 102-137: the instruction list. *)
Definition build_instructions (L : Ledger)
    (fromPublicKey toPublicKey usdcMint fromTokenAccount toTokenAccount
       : PublicKey L)
    (amountNum : number) : result (list (Instruction (PublicKey L))) :=
  let recipientAccountExists :=
    match getAccount L toTokenAccount with
    | Return _ => true
    | Throw _ => false
    end in
  let instructions :=
    if negb recipientAccountExists then
      [CreateAssociatedTokenAccount fromPublicKey toTokenAccount
                                    toPublicKey usdcMint]
    else [] in
  transfer <- createTransferInstruction fromTokenAccount toTokenAccount
                fromPublicKey (transferAmount amountNum) ;;
  Return (instructions ++ [transfer]).

Definition POST (L : Ledger) (env_mint : option jsstring)
    (request : TransferRequest) : NextResponse :=
  let attempt : result NextResponse :=
    if negb (present (from request)) || negb (present (to request))
       || negb (present (amount_field request)) then
      Return (json_response_status
                (error_body "Missing required fields: from, to, amount") 400)
    else
      match (fromPublicKey <- newPublicKey L (field (from request)) ;;
             toPublicKey <- newPublicKey L (field (to request)) ;;
             Return (fromPublicKey, toPublicKey)) with
      | Throw _ =>
          Return (json_response_status
                    (error_body "Invalid Solana address format") 400)
      | Return (fromPublicKey, toPublicKey) =>
          let amountNum := parseFloat (field (amount_field request)) in
          if isNaN amountNum || leb amountNum zero then
            Return (json_response_status (error_body "Invalid amount") 400)
          else if negb (present (Some (USDC_MINT_ADDRESS env_mint))) then
            Return (json_response_status
                      (error_body_with_message
                         "USDC mint address not configured"
                         (js "Set NEXT_PUBLIC_USDC_MINT_ADDRESS to a valid mint address."))
                      500)
          else
            usdcMint <- newPublicKey L (USDC_MINT_ADDRESS env_mint) ;;
            fromTokenAccount <-
              getAssociatedTokenAddress L usdcMint fromPublicKey ;;
            toTokenAccount <-
              getAssociatedTokenAddress L usdcMint toPublicKey ;;
            instructions <-
              build_instructions L fromPublicKey toPublicKey usdcMint
                fromTokenAccount toTokenAccount amountNum ;;
            blockhash <- getLatestBlockhash L ;;
            serializedTransaction <-
              serializeTransaction L fromPublicKey blockhash instructions ;;
            Return (json_response
                      (transfer_body serializedTransaction
                                     (field (amount_field request))))
      end in
  match attempt with
  | Return response => response
  | Throw error =>
      json_response_status
        (error_body_with_message "Failed to create transfer transaction"
                                 (message_or_unknown error))
        500
  end.

End TokenTransfer.

(* ================================================================== *)
(** * Printing numbers *)
(* ================================================================== *)

Section Runtime.

(** Two runtime functions are taken as given: [Number::toString], which the
    sources reach only through [toFixed] on magnitudes of 10^21 and above
    and when an error message is built from a number, and
    [String.prototype.toLowerCase]. *)
Variable number_to_string : number -> jsstring.
Variable toLowerCase : jsstring -> jsstring.

(** The decimal digits of a natural number, most significant first. *)
Fixpoint digits_fuel (fuel : nat) (n : N) (acc : jsstring) : jsstring :=
  match fuel with
  | O => acc
  | S fuel' =>
      let acc' := (cu "0" + n mod 10)%N :: acc in
      if (n / 10 =? 0)%N then acc' else digits_fuel fuel' (n / 10)%N acc'
  end.

Definition decimal_digits (n : N) : jsstring :=
  digits_fuel (S (N.to_nat (N.log2 n))) n [].

(** Step 8 of [Number.prototype.toFixed]: the digits of [n] with a point
    before the last [f] of them, zero-padded to at least [f + 1] digits. *)
Definition fixed_digits (f : nat) (n : N) : jsstring :=
  let m := decimal_digits n in
  match f with
  | O => m
  | _ =>
      let m := repeat (cu "0") (S f - length m) ++ m in
      let k := length m in
      firstn (k - f) m ++ js "." ++ skipn (k - f) m
  end.

(** The integer [n] for which [n / 10^f - m * 2^e] is closest to zero, the
    larger one when there are two. *)
Definition nearest_scaled (f : nat) (m : positive) (e : Z) : N :=
  let num := (Zpos m * 10 ^ Z.of_nat f)%Z in
  Z.to_N (if (0 <=? e)%Z then num * 2 ^ e
          else (2 * num + 2 ^ (- e)) / 2 ^ (- e + 1))%Z.

(** [x.toFixed(f)] *)
Definition toFixed (f : nat) (x : number) : jsstring :=
  match x with
  | S754_nan => js "NaN"
  | S754_infinity s => if s then js "-Infinity" else js "Infinity"
  | S754_zero _ => fixed_digits f 0
  | S754_finite s m e =>
      if (if (0 <=? e)%Z then 10 ^ 21 <=? Zpos m * 2 ^ e
          else 10 ^ 21 * 2 ^ (- e) <=? Zpos m)%Z
      then number_to_string x
      else (if s then js "-" else []) ++ fixed_digits f (nearest_scaled f m e)
  end.

(** [String(v)] *)
Fixpoint ToString (v : value) : jsstring :=
  match v with
  | VUndefined => js "undefined"
  | VNull => js "null"
  | VBool b => if b then js "true" else js "false"
  | VNumber x => number_to_string x
  | VString s => s
  | VObject _ => js "[object Object]"
  | VArray items =>
      (fix join (l : list value) : jsstring :=
         match l with
         | [] => []
         | v :: l' =>
             match v with
             | VUndefined | VNull => []
             | _ => ToString v
             end
             ++ match l' with
                | [] => []
                | _ :: _ => js "," ++ join l'
                end
         end) items
  | VError m => js "Error: " ++ m
  end.

(** [new Error(v)] *)
Definition new_Error (v : value) : value :=
  match v with
  | VUndefined => VError []
  | _ => VError (ToString v)
  end.

(* ================================================================== *)
(** * The balance route (server) *)
(* ================================================================== *)

(** [process.env.NEXT_PUBLIC_USDC_MINT_ADDRESS || "6a3y..."] *)
Definition BALANCES_USDC_MINT_ADDRESS (env_mint : option jsstring) : jsstring :=
  if present env_mint then field env_mint
  else js "6a3ytKTopkEyymNB1MsKkGKUHP6J3oafHMzkSBpTKRfd".

Definition LAMPORTS_PER_SOL : number := of_Z 1000000000.

Definition balances_body (solBalance usdcBalance : number) : value :=
  VObject [("solBalance", VNumber solBalance);
           ("usdcBalance", VNumber usdcBalance)].

(** [address] is [searchParams.get("address")]: [None] for [null]. *)
Definition GET (L : Ledger) (env_mint : option jsstring)
    (address : option jsstring) : NextResponse :=
  let attempt : result NextResponse :=
    if negb (present address) then
      Return (json_response_status
                (TokenTransfer.error_body "Missing wallet address") 400)
    else
      match newPublicKey L (field address) with
      | Throw _ =>
          Return (json_response_status
                    (TokenTransfer.error_body "Invalid Solana address") 400)
      | Return publicKey =>
          if negb (present (Some (BALANCES_USDC_MINT_ADDRESS env_mint))) then
            Return (json_response_status
                      (TokenTransfer.error_body_with_message
                         "USDC mint address not configured"
                         (js "Set NEXT_PUBLIC_USDC_MINT_ADDRESS to a valid mint address."))
                      500)
          else
            usdcMint <- newPublicKey L (BALANCES_USDC_MINT_ADDRESS env_mint) ;;
            solBalanceLamports <- getBalance L publicKey ;;
            let solBalance :=
              div (of_Z (Z.of_N solBalanceLamports)) LAMPORTS_PER_SOL in
            tokenAccountAddress <-
              getAssociatedTokenAddress L usdcMint publicKey ;;
            let usdcBalance :=
              match getAccount L tokenAccountAddress with
              | Return tokenAccountInfo =>
                  div (of_Z (Z.of_N (amount tokenAccountInfo)))
                      TokenTransfer.ten_pow_6
              | Throw _ => zero
              end in
            Return (json_response
                      (balances_body (parseFloat (toFixed 3 solBalance))
                                     (parseFloat (toFixed 2 usdcBalance))))
      end in
  match attempt with
  | Return response => response
  | Throw error =>
      json_response_status
        (TokenTransfer.error_body_with_message "Failed to fetch balances"
                                 (message_or_unknown error))
        500
  end.

(* ================================================================== *)
(** * The balance refresh (client, [src/app/page.tsx]) *)
(* ================================================================== *)

(** What [fetch] resolves to: [ok], [statusText], and the outcome of
    [response.json()]. *)
Record FetchResponse := {
  ok : bool;
  statusText : jsstring;
  json : result value
}.

Record Balances := { solBalance : value; usdcBalance : value }.

Definition fetchBalances (fetch : jsstring -> result FetchResponse)
    (address : jsstring) : result Balances :=
  try_catch
    (response <- fetch (js "/api/balances?address=" ++ address) ;;
     if negb (ok response) then
       errorData <- try_catch (json response) (fun _ => Return (VObject [])) ;;
       message <- get "message" errorData ;;
       Throw (new_Error
                (or_else message
                   (VString (js "Failed to fetch balances: "
                               ++ statusText response))))
     else
       balanceData <- json response ;;
       sol <- get "solBalance" balanceData ;;
       usdc <- get "usdcBalance" balanceData ;;
       Return {| solBalance := or_else sol (VNumber zero);
                 usdcBalance := or_else usdc (VNumber zero) |})
    (fun error =>
       Return {| solBalance := VNumber zero; usdcBalance := VNumber zero |}).

(** The response the browser sees for a route's [NextResponse]: [ok] for a
    2xx status, the body read back as JSON. *)
Definition delivered (r : NextResponse) (status_text : jsstring)
  : FetchResponse :=
  {| ok := (200 <=? status r)%nat && (status r <=? 299)%nat;
     statusText := status_text;
     json := Return (body r) |}.

(* ================================================================== *)
(** * The insufficient-gas classifier ([src/app/page.tsx]) *)
(* ================================================================== *)

Definition insufficientGasKeywords : list jsstring :=
  [ js "insufficient funds";
    js "insufficient balance";
    js "insufficient lamports";
    js "not enough";
    js "insufficient sol" ].

Definition isInsufficientGasError (error : value) : bool :=
  match error with
  | VString s =>
      let errorLower := toLowerCase s in
      existsb (fun keyword => includes keyword errorLower)
              insufficientGasKeywords
  | VError m =>
      let errorMessage := toLowerCase m in
      existsb (fun keyword => includes keyword errorMessage)
              insufficientGasKeywords
  | _ => false
  end.

End Runtime.

(* ================================================================== *)
(** * The signing step of [handleSend] ([src/app/page.tsx]) *)
(* ================================================================== *)

Module Signing.

(** [MetaKeepSignTxResponse]: [status] and the optional [signature]. *)
Record MetaKeepSignTxResponse := {
  status : option jsstring;
  signature : option jsstring
}.

(** A [VersionedTransaction]: the keys required to sign, one signature
    slot for each, and the compiled message. *)
Record VersionedTransaction (PK : Type) := {
  signerPubkeys : list PK;
  signatures : list (list N);
  message : jsstring
}.
Arguments signerPubkeys {PK}.
Arguments signatures {PK}.
Arguments message {PK}.

Definition unhex (c : code_unit) : option N :=
  if in_range "0" "9" c then Some (c - cu "0")%N
  else if in_range "a" "f" c then Some (c - cu "a" + 10)%N
  else if in_range "A" "F" c then Some (c - cu "A" + 10)%N
  else None.

(** [parseInt(pair, 16)] on the two code units of a pair, as the byte a
    [Uint8Array] keeps of it (the value modulo 256); [None] is [NaN].
    [parseInt] skips leading white space, takes one sign, drops a [0x]
    prefix and reads the longest run of hexadecimal digits that follows;
    without a digit the result is [NaN]. *)
Definition parseInt_pair (a b : code_unit) : option N :=
  if is_white_space a then unhex b
  else if N.eqb a (cu "+") then unhex b
  else if N.eqb a (cu "-") then
    match unhex b with
    | Some y => Some ((256 - y) mod 256)%N
    | None => None
    end
  else
    match unhex a, unhex b with
    | Some x, Some y => Some (16 * x + y)%N
    | Some x, None =>
        if N.eqb a (cu "0") && (N.eqb b (cu "x") || N.eqb b (cu "X"))
        then None
        else Some x
    | None, _ => None
    end.

(** [Buffer.from(s, "hex")] in the browser.  [page.tsx] is a client
    component, where [Buffer] is the [buffer] package the bundler
    supplies: it allots one byte for each two characters, writes
    [parseInt(pair, 16)] for each pair in turn and cuts the buffer at the
    first pair that gives [NaN], without an error; an odd last character
    is dropped. *)
Fixpoint Buffer_from_hex (s : jsstring) : list N :=
  match s with
  | a :: b :: rest =>
      match parseInt_pair a b with
      | Some byte => byte :: Buffer_from_hex rest
      | None => []
      end
  | _ => []
  end.

(** Text at which the decoder stops: fewer than two characters, or a
    first pair that [parseInt] cannot read. *)
Definition stops (tail : jsstring) : Prop :=
  match tail with
  | a :: b :: _ => parseInt_pair a b = None
  | _ => True
  end.

Fixpoint findIndex {A} (p : A -> bool) (l : list A) : option nat :=
  match l with
  | [] => None
  | x :: l' =>
      if p x then Some O
      else match findIndex p l' with
           | Some i => Some (S i)
           | None => None
           end
  end.

(** [l[i] = x]; an index past the end extends the array. *)
Fixpoint set_index {A} (i : nat) (x : A) (dflt : A) (l : list A) : list A :=
  match i, l with
  | O, [] => [x]
  | O, _ :: l' => x :: l'
  | S i', [] => dflt :: set_index i' x dflt []
  | S i', y :: l' => y :: set_index i' x dflt l'
  end.

(** [transaction.addSignature(publicKey, signature)] of web3.js: asserts a
    64-byte signature and a key that is required to sign. *)
Definition addSignature (L : Ledger)
    (transaction : VersionedTransaction (PublicKey L))
    (publicKey : PublicKey L) (sig : list N)
  : result (VersionedTransaction (PublicKey L)) :=
  if negb (Nat.eqb (length sig) 64) then
    Throw (VError (js "Signature must be 64 bytes long"))
  else
    match findIndex (fun pubkey => equals L pubkey publicKey)
                    (signerPubkeys transaction) with
    | None =>
        Throw (VError (js "Cannot add signature, " ++ toBase58 L publicKey
                         ++ js " is not required to sign this transaction"))
    | Some signerIndex =>
        Return {| signerPubkeys := signerPubkeys transaction;
                  signatures :=
                    set_index signerIndex sig [] (signatures transaction);
                  message := message transaction |}
    end.

(** [signed?.status || "UNKNOWN"]; [signed] is [None] for a null
    response. *)
Definition reported_status (signed : option MetaKeepSignTxResponse)
  : jsstring :=
  match signed with
  | Some r => if present (status r) then field (status r) else js "UNKNOWN"
  | None => js "UNKNOWN"
  end.

(** Lines 599-606: the error thrown when the status is not SUCCESS. *)
Definition status_failure (signed : option MetaKeepSignTxResponse)
  : value :=
  let st := reported_status signed in
  if JsString.eqb st (js "USER_REQUEST_DENIED")
     || JsString.eqb st (js "USER_CONSENT_DENIED") then
    VError (js "User denied transaction signing")
  else
    VError (js "Transaction signing failed (" ++ st ++ js ")").

(** Lines 598-607: [if (!signed || signed.status !== "SUCCESS") throw]. *)
Definition check_status (signed : option MetaKeepSignTxResponse)
  : result MetaKeepSignTxResponse :=
  match signed with
  | Some r =>
      if match status r with
         | Some s => JsString.eqb s (js "SUCCESS")
         | None => false
         end
      then Return r
      else Throw (status_failure signed)
  | None => Throw (status_failure signed)
  end.

(** Lines 614-621: the signature bytes. *)
Definition signatureBytes (sigStr : jsstring) : list N :=
  if startsWith (js "0x") sigStr then Buffer_from_hex (slice_from 2 sigStr)
  else Buffer_from_hex sigStr.

(** Lines 598-627: from the signer's response to the signed transaction. *)
Definition sign (L : Ledger) (wallet_address : jsstring)
    (transaction : VersionedTransaction (PublicKey L))
    (signed : option MetaKeepSignTxResponse)
  : result (VersionedTransaction (PublicKey L)) :=
  r <- check_status signed ;;
  if negb (present (signature r)) then
    Throw (VError (js "MetaKeep did not return a transaction signature"))
  else
    let sigStr := field (signature r) in
    publicKey <- newPublicKey L wallet_address ;;
    addSignature L transaction publicKey (signatureBytes sigStr).

End Signing.

(* ================================================================== *)
(** * The send flow of the page ([src/app/page.tsx]) *)
(* ================================================================== *)

Module Page.

(** [ToastState], without the [id] taken from the clock. *)
Inductive ToastKind := Info | Success | Error.

Record ToastState := {
  kind : ToastKind;
  message : jsstring;
  actionLabel : option jsstring;
  actionHref : option jsstring
}.

Definition plain_toast (k : ToastKind) (m : jsstring) : ToastState :=
  {| kind := k; message := m; actionLabel := None; actionHref := None |}.

(** [WalletData]; the balances are whatever [fetchBalances] returned. *)
Record WalletData := {
  address : jsstring;
  email : option jsstring;
  wallet_usdcBalance : value;
  wallet_solBalance : value;
  usdValue : value
}.

(** What [sdk.getWallet()] resolves to: [status] and
    [wallet?.solAddress]. *)
Record MetaKeepGetWalletResponse := {
  status : jsstring;
  solAddress : option jsstring
}.

(** What a run does that can be seen from outside, in order: the state
    setters it calls, the toasts it shows and the requests it sends. *)
Inductive event (PK : Type) :=
| showToast (t : ToastState)
| setIsFetchingAddress (b : bool)
| setIsSending (b : bool)
| setSendDialogOpen (b : bool)
| setRecipientInput (s : jsstring)
| setSendAmount (s : jsstring)
| setWallet (balances : Balances)
    (* [setWallet(prev => ..)] with the new balances, and the write of
       the result to local storage *)
| getWallet_sent (email : jsstring)
| transfer_requested (from to amount : jsstring)
| signTransaction_sent (transaction : Signing.VersionedTransaction PK)
                       (reason : jsstring)
| sendRawTransaction_sent (transaction : Signing.VersionedTransaction PK)
| confirmTransaction_sent (signature : jsstring).
Arguments showToast {PK}.
Arguments setIsFetchingAddress {PK}.
Arguments setIsSending {PK}.
Arguments setSendDialogOpen {PK}.
Arguments setRecipientInput {PK}.
Arguments setSendAmount {PK}.
Arguments setWallet {PK}.
Arguments getWallet_sent {PK}.
Arguments transfer_requested {PK}.
Arguments signTransaction_sent {PK}.
Arguments sendRawTransaction_sent {PK}.
Arguments confirmTransaction_sent {PK}.

(** What the page runs against: the language runtime, the MetaKeep SDK,
    the two routes behind [fetch], and the ledger connection. *)
Record Browser (L : Ledger) := {
  toLowerCase : jsstring -> jsstring;
  number_to_string : number -> jsstring;
  (** [typeof window.MetaKeep !== "undefined"] *)
  MetaKeep_loaded : bool;
  (** [new MetaKeep({ appId, user: { email } }).getWallet()] *)
  getWallet : jsstring -> result MetaKeepGetWalletResponse;
  (** [fetch("/api/token-transfer", { method: "POST", body })] with the
      body [{ from, to, amount }] *)
  fetch_transfer : jsstring -> jsstring -> jsstring -> result FetchResponse;
  (** [fetch(url)] with method GET *)
  fetch : jsstring -> result FetchResponse;
  (** [VersionedTransaction.deserialize(Buffer.from(v, "base64"))] *)
  deserialize : value -> result (Signing.VersionedTransaction (PublicKey L));
  (** [sdk.signTransaction(transaction, reason)]; [None] is a null
      answer *)
  signTransaction :
    Signing.VersionedTransaction (PublicKey L) -> jsstring ->
    result (option Signing.MetaKeepSignTxResponse);
  (** [connection.sendRawTransaction(transaction.serialize(), ..)] *)
  sendRawTransaction :
    Signing.VersionedTransaction (PublicKey L) -> result jsstring;
  (** [connection.confirmTransaction(signature, "confirmed")] *)
  confirmTransaction : jsstring -> result unit;
  (** [process.env.NEXT_PUBLIC_EXPLORER_TX_BASE] *)
  env_explorer_tx_base : option jsstring
}.
Arguments toLowerCase {L}.
Arguments number_to_string {L}.
Arguments MetaKeep_loaded {L}.
Arguments getWallet {L}.
Arguments fetch_transfer {L}.
Arguments fetch {L}.
Arguments deserialize {L}.
Arguments signTransaction {L}.
Arguments sendRawTransaction {L}.
Arguments confirmTransaction {L}.
Arguments env_explorer_tx_base {L}.

(** [process.env.NEXT_PUBLIC_EXPLORER_TX_BASE || "https://..."] *)
Definition EXPLORER_TX_BASE {L} (B : Browser L) : jsstring :=
  if present (env_explorer_tx_base B) then field (env_explorer_tx_base B)
  else js "https://explorer.solana.com/tx/".

(** ** Runs: a trace of events and a result *)

Section Run.
Variable L : Ledger.

Definition run (A : Type) : Type :=
  (list (event (PublicKey L)) * result A)%type.

Definition ret {A} (a : A) : run A := ([], Return a).
Definition raise {A} (e : value) : run A := ([], Throw e).
Definition emit (e : event (PublicKey L)) : run unit := ([e], Return tt).
Definition call {A} (r : result A) : run A := ([], r).

Definition then_ {A B} (m : run A) (k : A -> run B) : run B :=
  match m with
  | (l, Return a) => let '(l', r) := k a in (l ++ l', r)
  | (l, Throw e) => (l, Throw e)
  end.

(** [try { m } catch (error) { h error }] *)
Definition catch {A} (m : run A) (h : value -> run A) : run A :=
  match m with
  | (l, Return a) => (l, Return a)
  | (l, Throw e) => let '(l', r) := h e in (l ++ l', r)
  end.

(** [try { m } finally { f }] *)
Definition finally {A} (m : run A) (f : run unit) : run A :=
  match m, f with
  | (l, r), (l', Return _) => (l ++ l', r)
  | (l, _), (l', Throw e) => (l ++ l', Throw e)
  end.

End Run.

Declare Scope run_scope.
Notation "x <~ c ;; k" := (then_ c (fun x => k))
  (at level 61, c at next level, right associativity) : run_scope.
Notation "c ;;; k" := (then_ c (fun _ => k))
  (at level 61, right associativity) : run_scope.
Open Scope run_scope.

(** The three toasts of the recipient checks and the one of the lookup. *)
Definition email_toast (L : Ledger) : event (PublicKey L) :=
  showToast (plain_toast Error (js "Please enter valid email")).

Definition invalid_toast (L : Ledger) : event (PublicKey L) :=
  showToast (plain_toast Error
               (js "Please enter a valid wallet address or email address")).

Definition retrieved_toast (L : Ledger) : event (PublicKey L) :=
  showToast (plain_toast Error
               (js "Retrieved address is invalid. Please contact support.")).

Definition format_toast (L : Ledger) : event (PublicKey L) :=
  showToast (plain_toast Error (js "Invalid wallet address format")).

Section Flow.
Variable L : Ledger.
Variable B : Browser L.

(** [fetchWalletFromEmail] *)
Definition fetchWalletFromEmail (email_address : jsstring)
  : run L (option jsstring) :=
  finally
    (catch
       (emit L (setIsFetchingAddress true) ;;;
        (if MetaKeep_loaded B then ret L tt
         else raise L (VError (js "MetaKeep SDK not loaded"))) ;;;
        emit L (getWallet_sent email_address) ;;;
        response <~ call L (getWallet B email_address) ;;
        if JsString.eqb (status response) (js "SUCCESS")
           && present (solAddress response)
        then ret L (Some (field (solAddress response)))
        else ret L None)
       (fun error =>
          emit L (email_toast L) ;;; ret L None))
    (emit L (setIsFetchingAddress false)).

(** [slice(0, 6)] and [slice(-4)] *)
Definition slice_0_6 (s : jsstring) : jsstring := firstn 6 s.
Definition slice_last_4 (s : jsstring) : jsstring := skipn (length s - 4) s.

(** The reason shown by the signer. *)
Definition reason (inputType : InputType)
    (sendAmount recipientInput finalRecipientAddress : jsstring) : jsstring :=
  js "Send " ++ sendAmount ++ js " USDC to "
  ++ match inputType with
     | Email => trim recipientInput
     | _ => slice_0_6 finalRecipientAddress ++ js "..."
            ++ slice_last_4 finalRecipientAddress
     end.

(** Lines 548-559: a response that is not [ok] always throws. *)
Definition transfer_failed (response : FetchResponse) : run L unit :=
  errorData <~ call L (try_catch (json response)
                                 (fun _ => Return (VObject []))) ;;
  m <~ call L (get "message" errorData) ;;
  let errorMessage :=
    or_else m (VString (js "Failed to create token transfer transaction")) in
  if isInsufficientGasError (toLowerCase B) errorMessage
     || isInsufficientGasError (toLowerCase B) errorData
  then raise L (VError (js "INSUFFICIENT_GAS"))
  else raise L (new_Error (number_to_string B) errorMessage).

(** Lines 519-670: the body of the [try]. *)
Definition send_attempt (wallet : WalletData) (inputType : InputType)
    (sendAmount recipientInput finalRecipientAddress : jsstring)
  : run L unit :=
  emit L (setIsSending true) ;;;
  emit L (setSendDialogOpen false) ;;;
  (if MetaKeep_loaded B then ret L tt
   else raise L (VError (js "MetaKeep SDK not loaded"))) ;;;
  emit L (transfer_requested (address wallet) finalRecipientAddress
                             sendAmount) ;;;
  transferDataResponse <~
    call L (fetch_transfer B (address wallet) finalRecipientAddress
                           sendAmount) ;;
  (if negb (ok transferDataResponse) then transfer_failed transferDataResponse
   else ret L tt) ;;;
  transferData <~ call L (json transferDataResponse) ;;
  serialized <~ call L (get "transaction" transferData) ;;
  transaction <~ call L (deserialize B serialized) ;;
  let why := reason inputType sendAmount recipientInput
                    finalRecipientAddress in
  emit L (signTransaction_sent transaction why) ;;;
  signedTx <~ call L (signTransaction B transaction why) ;;
  signed_transaction <~
    call L (Signing.sign L (address wallet) transaction signedTx) ;;
  emit L (sendRawTransaction_sent signed_transaction) ;;;
  signature <~ call L (sendRawTransaction B signed_transaction) ;;
  emit L (confirmTransaction_sent signature) ;;;
  call L (confirmTransaction B signature) ;;;
  emit L (showToast
            {| kind := Success;
               message := js "Transaction confirmed on Solana!";
               actionLabel := Some (js "View");
               actionHref := Some (EXPLORER_TX_BASE B ++ signature
                                     ++ js "?cluster=devnet") |}) ;;;
  emit L (setRecipientInput []) ;;;
  emit L (setSendAmount (js "1.00")) ;;;
  match address wallet with
  | [] => ret L tt
  | _ :: _ =>
      balances <~ call L (fetchBalances (number_to_string B) (fetch B)
                                        (address wallet)) ;;
      emit L (setWallet balances)
  end.

(** Lines 674-691: the toast of the [catch] block. *)
Definition failure_toast (error : value) : ToastState :=
  if match error with
     | VError m =>
         JsString.eqb m (js "INSUFFICIENT_GAS")
         || isInsufficientGasError (toLowerCase B) error
     | _ => false
     end
  then
    {| kind := Error;
       message := js "Insufficient SOL for gas";
       actionLabel := Some (js "Get SOL");
       actionHref := Some (js "https://faucet.solana.com/") |}
  else
    plain_toast Error (js "Send failed: " ++ message_or_unknown error).

(** Lines 671-691: the [catch] block. *)
Definition send_failed (error : value) : run L unit :=
  emit L (showToast (failure_toast error)).

(** Lines 519-694: the [try], its [catch] and its [finally]. *)
Definition send_guarded (wallet : WalletData) (inputType : InputType)
    (sendAmount recipientInput finalRecipientAddress : jsstring)
  : run L unit :=
  finally
    (catch
       (send_attempt wallet inputType sendAmount recipientInput
                     finalRecipientAddress)
       send_failed)
    (emit L (setIsSending false)).

(** Lines 490-508: the recipient address, or [None] where the source
    returns early. *)
Definition resolve_recipient (inputType : InputType)
    (recipientInput : jsstring) : run L (option jsstring) :=
  match inputType with
  | Email =>
      fetchedAddress <~ fetchWalletFromEmail (trim recipientInput) ;;
      if negb (present fetchedAddress) then ret L None
      else if negb (isValidWalletAddress (field fetchedAddress)) then
        emit L (retrieved_toast L) ;;; ret L None
      else ret L (Some (field fetchedAddress))
  | _ => ret L (Some (trim recipientInput))
  end.

(** [handleSend], from the state it reads: [wallet], [sendAmount] and
    [recipientInput]. *)
Definition handleSend (wallet : option WalletData)
    (sendAmount recipientInput : jsstring) : run L unit :=
  match wallet, sendAmount, recipientInput with
  | Some w, _ :: _, _ :: _ =>
      let inputType := detectInputType recipientInput in
      match inputType with
      | Invalid => emit L (invalid_toast L)
      | _ =>
          resolved <~ resolve_recipient inputType recipientInput ;;
          match resolved with
          | None => ret L tt
          | Some finalRecipientAddress =>
              if negb (isValidWalletAddress finalRecipientAddress) then
                emit L (format_toast L)
              else
                send_guarded w inputType sendAmount recipientInput
                             finalRecipientAddress
          end
      end
  | _, _, _ => ret L tt
  end.

End Flow.

(** ** The state the setters act on *)

Record Ui := {
  toast : option ToastState;
  isFetchingAddress : bool;
  isSending : bool;
  sendDialogOpen : bool;
  recipientInput : jsstring;
  sendAmount : jsstring
}.

Definition step {PK} (ui : Ui) (e : event PK) : Ui :=
  match e with
  | showToast t =>
      {| toast := Some t; isFetchingAddress := isFetchingAddress ui;
         isSending := isSending ui; sendDialogOpen := sendDialogOpen ui;
         recipientInput := recipientInput ui; sendAmount := sendAmount ui |}
  | setIsFetchingAddress b =>
      {| toast := toast ui; isFetchingAddress := b;
         isSending := isSending ui; sendDialogOpen := sendDialogOpen ui;
         recipientInput := recipientInput ui; sendAmount := sendAmount ui |}
  | setIsSending b =>
      {| toast := toast ui; isFetchingAddress := isFetchingAddress ui;
         isSending := b; sendDialogOpen := sendDialogOpen ui;
         recipientInput := recipientInput ui; sendAmount := sendAmount ui |}
  | setSendDialogOpen b =>
      {| toast := toast ui; isFetchingAddress := isFetchingAddress ui;
         isSending := isSending ui; sendDialogOpen := b;
         recipientInput := recipientInput ui; sendAmount := sendAmount ui |}
  | setRecipientInput s =>
      {| toast := toast ui; isFetchingAddress := isFetchingAddress ui;
         isSending := isSending ui; sendDialogOpen := sendDialogOpen ui;
         recipientInput := s; sendAmount := sendAmount ui |}
  | setSendAmount s =>
      {| toast := toast ui; isFetchingAddress := isFetchingAddress ui;
         isSending := isSending ui; sendDialogOpen := sendDialogOpen ui;
         recipientInput := recipientInput ui; sendAmount := s |}
  | _ => ui
  end.

(** The state after a run. *)
Definition after {PK} (ui : Ui) (trace : list (event PK)) : Ui :=
  fold_left step trace ui.

(** The toasts of a run, in order. *)
Fixpoint toasts {PK} (trace : list (event PK)) : list ToastState :=
  match trace with
  | [] => []
  | showToast t :: rest => t :: toasts rest
  | _ :: rest => toasts rest
  end.

(** Lower-casing of Basic Latin, which [toLowerCase] does on a string of
    code units below 128. *)
Definition ascii_lower (c : code_unit) : code_unit :=
  if in_range "A" "Z" c then (c + 32)%N else c.

Definition is_ascii (s : jsstring) : bool :=
  forallb (fun c => (c <? 128)%N) s.

Definition lowers_ascii (f : jsstring -> jsstring) : Prop :=
  forall s, is_ascii s = true -> f s = map ascii_lower s.

(** The transfer route as the page's [fetch] reaches it. *)
Definition transfer_route (L : Ledger) (env_mint : option jsstring)
    (status_text : jsstring) (from to amount : jsstring) : FetchResponse :=
  delivered
    (TokenTransfer.POST L env_mint
       {| TokenTransfer.from := Some from;
          TokenTransfer.to := Some to;
          TokenTransfer.amount_field := Some amount |})
    status_text.

End Page.

(* ================================================================== *)
(** * The manual entry of the scanner ([src/components/QrScanner.tsx]) *)
(* ================================================================== *)

Module QrScanner.

(** What [handleManualSubmit] calls, in order: the [onScan] prop, and the
    setter of the text field. *)
Inductive effect :=
| onScan (data : jsstring)
| setManualAddress (s : jsstring).

(** Lines 124-129. *)
Definition handleManualSubmit (manualAddress : jsstring) : list effect :=
  match trim manualAddress with
  | [] => []
  | _ :: _ => [onScan (trim manualAddress); setManualAddress []]
  end.

(** Line 200: [disabled={!manualAddress.trim()}] on the Use button. *)
Definition use_disabled (manualAddress : jsstring) : bool :=
  match trim manualAddress with
  | [] => true
  | _ :: _ => false
  end.

(** The page around the scanner: the send form and the scanner's dialog. *)
Record Host := {
  ui : Page.Ui;
  qrScanAddressDialogOpen : bool;
  manualAddress : jsstring
}.

(** [handleQRCodeScan] of [src/app/page.tsx], lines 736-739, which the
    page passes as [onScan]. *)
Definition handleQRCodeScan (scannedAddress : jsstring) (h : Host) : Host :=
  {| ui := {| Page.toast := Page.toast (ui h);
              Page.isFetchingAddress := Page.isFetchingAddress (ui h);
              Page.isSending := Page.isSending (ui h);
              Page.sendDialogOpen := Page.sendDialogOpen (ui h);
              Page.recipientInput := scannedAddress;
              Page.sendAmount := Page.sendAmount (ui h) |};
     qrScanAddressDialogOpen := false;
     manualAddress := manualAddress h |}.

Definition perform (h : Host) (e : effect) : Host :=
  match e with
  | onScan data => handleQRCodeScan data h
  | setManualAddress s =>
      {| ui := ui h;
         qrScanAddressDialogOpen := qrScanAddressDialogOpen h;
         manualAddress := s |}
  end.

(** A click on Use, or Enter in the text field. *)
Definition submit (h : Host) : Host :=
  fold_left perform (handleManualSubmit (manualAddress h)) h.

End QrScanner.

(* ================================================================== *)
(** * The environment file of the deployment ([src/scripts/deploy-usdc.mjs]) *)
(* ================================================================== *)

Module Deploy.

(** [LineTerminator]: the code units [.] does not match. *)
Definition is_line_terminator (c : code_unit) : bool :=
  N.eqb c 10 || N.eqb c 13 || N.eqb c 8232 || N.eqb c 8233.

(** What [.*] takes at the front of a string, and what it leaves. *)
Fixpoint match_dot_star (s : jsstring) : jsstring * jsstring :=
  match s with
  | c :: r =>
      if is_line_terminator c then ([], s)
      else let '(line, rest) := match_dot_star r in (c :: line, rest)
  | [] => ([], [])
  end.

(** [GetSubstitution] for a pattern without capture groups: [$$], [$&],
    [$`] and [$'] are expanded, any other [$] stands for itself. *)
Fixpoint GetSubstitution (matched before after template : jsstring)
  : jsstring :=
  match template with
  | c :: r =>
      if N.eqb c (cu "$") then
        match r with
        | d :: r' =>
            if N.eqb d (cu "$") then
              cu "$" :: GetSubstitution matched before after r'
            else if N.eqb d (cu "&") then
              matched ++ GetSubstitution matched before after r'
            else if N.eqb d (cu "`") then
              before ++ GetSubstitution matched before after r'
            else if N.eqb d (cu "'") then
              after ++ GetSubstitution matched before after r'
            else c :: GetSubstitution matched before after r
        | [] => [c]
        end
      else c :: GetSubstitution matched before after r
  | [] => []
  end.

(** [before + s.replace(/<key>.*/, template)] for a [key] of literal
    characters, [before] being what precedes [s] in the whole string: the
    leftmost match is replaced, once; without a match nothing changes. *)
Fixpoint replace_from (key template before s : jsstring) : jsstring :=
  if startsWith key s then
    let '(line, after) := match_dot_star (skipn (length key) s) in
    before ++ GetSubstitution (key ++ line) before after template ++ after
  else
    match s with
    | c :: r => replace_from key template (before ++ [c]) r
    | [] => before
    end.

Definition replace (key template s : jsstring) : jsstring :=
  replace_from key template [] s.

Definition MINT_ASSIGNMENT : jsstring := js "NEXT_PUBLIC_USDC_MINT_ADDRESS=".
Definition KEY_ASSIGNMENT : jsstring := js "SOLANA_DEPLOYER_PRIVATE_KEY=".

Definition newline : jsstring := [10%N].

(** Lines 183-191: update or add the mint address. *)
Definition set_mint_address (mint envContent : jsstring) : jsstring :=
  if includes MINT_ASSIGNMENT envContent then
    replace MINT_ASSIGNMENT (MINT_ASSIGNMENT ++ mint) envContent
  else
    envContent ++ newline ++ MINT_ASSIGNMENT ++ mint ++ newline.

(** A byte in decimal, as [join] renders the elements of the array. *)
Definition digit (d : N) : code_unit := (48 + d)%N.

Definition byte_to_string (b : N) : jsstring :=
  if (b <? 10)%N then [digit b]
  else if (b <? 100)%N then [digit (b / 10); digit (b mod 10)]
  else [digit (b / 100); digit ((b / 10) mod 10); digit (b mod 10)].

Fixpoint join (separator : jsstring) (parts : list jsstring) : jsstring :=
  match parts with
  | [] => []
  | [p] => p
  | p :: rest => p ++ separator ++ join separator rest
  end.

(** Line 194: [Array.from(deployerKeypair.secretKey).join(",")]. *)
Definition privateKeyArray (secretKey : list N) : jsstring :=
  join (js ",") (map byte_to_string secretKey).

(** Lines 195-202: update or add the deployer's key. *)
Definition set_deployer_key (privateKeyArray envContent : jsstring)
  : jsstring :=
  if includes KEY_ASSIGNMENT envContent then
    replace KEY_ASSIGNMENT (KEY_ASSIGNMENT ++ privateKeyArray) envContent
  else
    envContent ++ KEY_ASSIGNMENT ++ privateKeyArray ++ newline.

(** Lines 177-204: what is written back to [.env.local]; [existing] is
    the content of the file, [None] when there is none. *)
Definition update_env (existing : option jsstring) (mint : jsstring)
    (secretKey : list N) : jsstring :=
  let envContent := match existing with Some c => c | None => [] end in
  set_deployer_key (privateKeyArray secretKey)
                   (set_mint_address mint envContent).

(** A value that stands for itself in a replacement and stays on its
    line: no [$] and no line terminator. *)
Definition plain (v : jsstring) : bool :=
  forallb (fun c => negb (N.eqb c (cu "$")) && negb (is_line_terminator c)) v.

(** The end of a line: the end of the text, or a line terminator. *)
Definition line_end (s : jsstring) : Prop :=
  s = [] \/ exists t r, s = t :: r /\ is_line_terminator t = true.

End Deploy.

(* ================================================================== *)
(** * The specification's wording *)
(* ================================================================== *)

(** Definitions that follow the specification's sentences, to compare the
    code with. *)
Module Spec.

(** The ledger's base58 alphabet: digits and letters without [0], [O], [I]
    and [l]. *)
Definition base58_alphabet : jsstring :=
  js "123456789ABCDEFGHJKLMNPQRSTUVWXYZabcdefghijkmnopqrstuvwxyz".

(** "32-44 characters drawn from the base58 alphabet" *)
Definition address_shaped (t : jsstring) : Prop :=
  (32 <= length t <= 44)%nat /\ Forall (fun c => In c base58_alphabet) t.

(** The email pattern in words: a non-empty local part of the allowed
    characters, an at-sign, and one or more labels separated by dots; a
    label has 1 to 63 letters, digits and hyphens and neither starts nor
    ends with a hyphen. *)
Definition label_shaped (l : jsstring) : Prop :=
  (1 <= length l <= 63)%nat
  /\ forallb is_alnum_hyphen l = true
  /\ (exists c rest, l = c :: rest /\ is_alnum c = true)
  /\ (exists front d, l = front ++ [d] /\ is_alnum d = true).

Definition dotted (labels : list jsstring) : jsstring :=
  concat (map (fun l => cu "." :: l) labels).

Definition pattern_shaped (t : jsstring) : Prop :=
  exists local label labels,
    t = local ++ [cu "@"] ++ label ++ dotted labels
    /\ local <> []
    /\ forallb is_local_part local = true
    /\ Forall label_shaped (label :: labels).

(** "contains @, is at most 254 characters, splits into exactly two parts
    on @, and matches the email pattern" *)
Definition email_shaped (t : jsstring) : Prop :=
  In (cu "@") t /\ (length t <= 254)%nat
  /\ length (split (cu "@") t) = 2%nat /\ matches emailRegex t.

(** "floor(amount x 10^6)" for the decimal [(-1)^neg * m * 10^e], in exact
    arithmetic. *)
Definition floor_units (neg : bool) (m : N) (e : Z) : Z :=
  let v := cond_Zopp neg (Z.of_N m) in
  let k := (e + 6)%Z in
  if (0 <=? k)%Z then (v * 10 ^ k)%Z else (v / 10 ^ (- k))%Z.

(** The exact smallest-unit value of an amount string that is a decimal
    number from its first to its last character. *)
Definition exact_units (s : jsstring) : option Z :=
  match parse_prefix s with
  | (LDecimal neg m e, []) => Some (floor_units neg m e)
  | _ => None
  end.


(** "positive decimal value": a decimal literal without a minus sign and
    with a non-zero digit. *)
Definition positive_decimal (s : jsstring) : bool :=
  match parse_prefix s with
  | (LDecimal false (Npos _) _, []) => true
  | _ => false
  end.


(** "If absent, prepend a create sub-account instruction paid for by the
    sender, before the transfer instruction.  If present, emit only the
    transfer instruction." *)
Definition instruction_sequence (L : Ledger)
    (fromPublicKey toPublicKey usdcMint fromTokenAccount toTokenAccount
       : PublicKey L) (units : Z) : list (Instruction (PublicKey L)) :=
  match getAccount L toTokenAccount with
  | Throw _ =>
      [ CreateAssociatedTokenAccount fromPublicKey toTokenAccount
                                     toPublicKey usdcMint;
        Transfer fromTokenAccount toTokenAccount fromPublicKey units ]
  | Return _ =>
      [ Transfer fromTokenAccount toTokenAccount fromPublicKey units ]
  end.

(** "decode the remaining hex string into raw bytes; if decoding fails
    ...": a decoder that fails on anything but pairs of hexadecimal
    digits. *)
Fixpoint hex_decode (s : jsstring) : option (list N) :=
  match s with
  | [] => Some []
  | a :: b :: rest =>
      match Signing.unhex a, Signing.unhex b, hex_decode rest with
      | Some x, Some y, Some bytes => Some ((16 * x + y)%N :: bytes)
      | _, _, _ => None
      end
  | [_] => None
  end.

(** "strip an optional 0x prefix" *)
Definition strip_0x (s : jsstring) : jsstring :=
  if startsWith (js "0x") s then skipn 2 s else s.

(** "zero balances" *)
Definition zero_balances : Balances :=
  {| solBalance := VNumber zero; usdcBalance := VNumber zero |}.

End Spec.

(* ================================================================== *)
(** * A sample ledger *)
(* ================================================================== *)

(** A small instance of the collaborators, to evaluate the routes on
    concrete requests: keys are their base58 text, token accounts are
    listed with their balances, transactions are rendered as text. *)
Module Sample.

Definition alice : jsstring := js "7xKXtg2CW87d97TXJSDpbD5jBkheTqA83TZRuJosgAsU".
Definition bob : jsstring := js "9WzDXwBbmkg8ZTbNMqUxvQRAyrZzDsGYdLVL9zYtAWWM".

Definition associated (mint owner : jsstring) : jsstring :=
  js "ata/" ++ owner.

Fixpoint find_account (accounts : list (jsstring * N)) (a : jsstring)
  : result TokenAccount :=
  match accounts with
  | [] => Throw (VError (js "TokenAccountNotFoundError"))
  | (k, n) :: rest =>
      if JsString.eqb k a then Return {| amount := n |}
      else find_account rest a
  end.

Definition render (i : Instruction jsstring) : jsstring :=
  match i with
  | CreateAssociatedTokenAccount payer _ owner _ =>
      js "create " ++ owner ++ js " paid by " ++ payer ++ js "; "
  | Transfer _ _ _ units =>
      js "transfer " ++ decimal_digits (Z.to_N units) ++ js "; "
  end.

Definition ledger (accounts : list (jsstring * N)) (lamports : N) : Ledger :=
  {| PublicKey := jsstring;
     Blockhash := jsstring;
     newPublicKey := fun s =>
       if isValidWalletAddress s then Return s
       else Throw (VError (js "Invalid public key input"));
     equals := JsString.eqb;
     toBase58 := fun k => k;
     getAssociatedTokenAddress := fun mint owner =>
       Return (associated mint owner);
     getAccount := find_account accounts;
     getBalance := fun _ => Return lamports;
     getLatestBlockhash := Return (js "EkSnNWid2cvwEVnVx9aBqawnmiCNiDgp3gUdkDPTKN1N");
     serializeTransaction := fun payer blockhash instructions =>
       Return (concat (map render instructions)) |}.

(** Alice holds 10 USDC, Bob has no token account yet; 1 SOL each. *)
Definition devnet : Ledger :=
  ledger [(associated [] alice, 10000000%N)] 1000000000.

Definition request (amt : string) : TokenTransfer.TransferRequest :=
  {| TokenTransfer.from := Some alice;
     TokenTransfer.to := Some bob;
     TokenTransfer.amount_field := Some (js amt) |}.

(** Printing, for integral values only: the sample requests print nothing
    else. *)
Definition number_to_string (x : number) : jsstring :=
  match to_integer x with
  | Some z =>
      (if (z <? 0)%Z then js "-" else []) ++ decimal_digits (Z.abs_N z)
  | None => js "NaN"
  end.

(** The browser's [fetch], answered by the balance route for Bob. *)
Definition fetch (url : jsstring) : result FetchResponse :=
  Return (delivered (GET number_to_string devnet None (Some bob)) (js "OK")).

(** An unsigned transfer from Alice, and a signer response carrying [sig]. *)
Definition unsigned : Signing.VersionedTransaction jsstring :=
  {| Signing.signerPubkeys := [alice];
     Signing.signatures := [repeat 0%N 64];
     Signing.message := js "transfer 2500000; " |}.

Definition response (st : string) (sig : option jsstring)
  : Signing.MetaKeepSignTxResponse :=
  {| Signing.status := Some (js st); Signing.signature := sig |}.

(** 128 hexadecimal digits: a 64-byte signature. *)
Definition hex128 : jsstring := concat (repeat (js "a1b2c3d4") 16).

End Sample.

(** A sample browser: the SDK is loaded and resolves every email to Bob,
    the transfer route is the builder over the sample ledger, the signer
    answers [sign_answer], and the ledger accepts what it is sent. *)
Module SamplePage.

Definition wallet : Page.WalletData :=
  {| Page.address := Sample.alice;
     Page.email := None;
     Page.wallet_usdcBalance := VNumber (of_Z 10);
     Page.wallet_solBalance := VNumber (of_Z 1);
     Page.usdValue := VNumber (of_Z 10) |}.

Definition unsigned_with (s : jsstring)
  : Signing.VersionedTransaction (PublicKey Sample.devnet) :=
  {| Signing.signerPubkeys := [Sample.alice];
     Signing.signatures := [repeat 0%N 64];
     Signing.message := s |}.

Definition status_text (r : NextResponse) : jsstring :=
  if Nat.eqb (status r) 200 then js "OK"
  else if Nat.eqb (status r) 400 then js "Bad Request"
  else js "Internal Server Error".

Definition browser (sign_answer : option Signing.MetaKeepSignTxResponse)
  : Page.Browser Sample.devnet :=
  {| Page.toLowerCase := map Page.ascii_lower;
     Page.number_to_string := Sample.number_to_string;
     Page.MetaKeep_loaded := true;
     Page.getWallet := fun _ =>
       Return {| Page.status := js "SUCCESS";
                 Page.solAddress := Some Sample.bob |};
     Page.fetch_transfer := fun from to amount =>
       Return (Page.transfer_route Sample.devnet None
                 (status_text
                    (TokenTransfer.POST Sample.devnet None
                       {| TokenTransfer.from := Some from;
                          TokenTransfer.to := Some to;
                          TokenTransfer.amount_field := Some amount |}))
                 from to amount);
     Page.fetch := Sample.fetch;
     Page.deserialize := fun v =>
       match v with
       | VString s => Return (unsigned_with s)
       | _ => Throw (VError (js "The first argument must be of type string"))
       end;
     Page.signTransaction := fun _ _ => Return sign_answer;
     Page.sendRawTransaction := fun _ =>
       Return (js "5VERv8NMvzbJMEkV8xnrLkEaWRtSz9CosKDYjCJjBRnbJLgp8uirBgmQpjKhoR4tjF3ZpRzrFmBV6UjKdiSZkQUW");
     Page.confirmTransaction := fun _ => Return tt;
     Page.env_explorer_tx_base := None |}.

(** The signer approves with a 64-byte signature. *)
Definition approving : Page.Browser Sample.devnet :=
  browser (Some (Sample.response "SUCCESS" (Some (js "0x" ++ Sample.hex128)))).

(** The user refuses in the signer's prompt. *)
Definition refusing : Page.Browser Sample.devnet :=
  browser (Some (Sample.response "USER_REQUEST_DENIED" None)).

(** The send dialog, filled in and idle. *)
Definition ui : Page.Ui :=
  {| Page.toast := None;
     Page.isFetchingAddress := false;
     Page.isSending := false;
     Page.sendDialogOpen := true;
     Page.recipientInput := Sample.bob;
     Page.sendAmount := js "2.50" |}.

End SamplePage.

(** The scanner's dialog, open, with Bob's address pasted between
    blanks. *)
Module SampleScan.

Definition host : QrScanner.Host :=
  {| QrScanner.ui := SamplePage.ui;
     QrScanner.qrScanAddressDialogOpen := true;
     QrScanner.manualAddress := js " " ++ Sample.bob ++ js "  " |}.

End SampleScan.

(* ================================================================== *)
(** * Theorems *)
(* ================================================================== *)

(** ** The derivative matcher decides the language *)

Module RegexFacts.

Lemma mkSeq_iff a b s : matches (mkSeq a b) s <-> matches (Seq a b) s.
Proof.
  split; intro H.
  - destruct a; simpl in H; trivial.
    + inversion H.
    + change s with ([] ++ s). constructor; [constructor | exact H].
  - destruct a; simpl; trivial.
    + inversion H; subst. match goal with X : matches Empty _ |- _ => inversion X end.
    + inversion H; subst. match goal with X : matches Eps _ |- _ => inversion X end.
      subst. exact H4.
Qed.

Lemma mkAlt_iff a b s : matches (mkAlt a b) s <-> matches (Alt a b) s.
Proof.
  assert (E : forall t, ~ matches Empty t) by (intros t X; inversion X).
  split; intro H.
  - destruct a, b; simpl in H;
      try exact H; try (now apply MAltR); try (now apply MAltL).
  - inversion H; subst; destruct a, b; simpl;
      solve [ assumption | exfalso; eapply E; eassumption
            | now apply MAltL | now apply MAltR ].
Qed.

Lemma rep_nil_intro a lo hi :
  matches a [] -> (lo <= hi)%nat -> matches (Rep a lo hi) [].
Proof.
  intros Ha. revert lo. induction hi as [|hi IH]; intros lo Hle.
  - assert (lo = 0)%nat by lia. subst. constructor.
  - change (@nil code_unit) with (@nil code_unit ++ []).
    constructor; [exact Ha | apply IH; lia].
Qed.

Lemma rep_nil_elim r s :
  matches r s -> forall a lo hi, r = Rep a lo hi -> s = [] ->
  lo = 0%nat \/ ((lo <= hi)%nat /\ matches a []).
Proof.
  induction 1; intros a' lo' hi' E N; try discriminate.
  - injection E as -> <- _. now left.
  - injection E as -> -> <-.
    apply app_eq_nil in N as [-> ->].
    destruct (IHmatches2 a' (pred lo') hi eq_refl eq_refl) as [Z | [L M]].
    + destruct lo'; [now left | right; split; [lia | assumption]].
    + right; split; [lia | assumption].
Qed.

Lemma nullable_iff r : nullable r = true <-> matches r [].
Proof.
  induction r as [ | | p | a IHa b IHb | a IHa b IHb | a IHa | a IHa lo hi ];
    simpl.
  - split; [discriminate | intro H; inversion H].
  - split; [constructor | reflexivity].
  - split; [discriminate | intro H; inversion H].
  - rewrite andb_true_iff, IHa, IHb. split.
    + intros [Ha Hb]. change (@nil code_unit) with (@nil code_unit ++ []).
      now constructor.
    + intro H; inversion H; subst.
      match goal with X : _ ++ _ = [] |- _ => apply app_eq_nil in X as [-> ->] end.
      now split.
  - rewrite orb_true_iff, IHa, IHb. split.
    + intros [H | H]; [now apply MAltL | now apply MAltR].
    + intro H; inversion H; subst; [now left | now right].
  - split; [constructor | reflexivity].
  - rewrite orb_true_iff, andb_true_iff, Nat.eqb_eq, Nat.leb_le, IHa. split.
    + intros [-> | [L M]]; [constructor | now apply rep_nil_intro].
    + intro H. exact (rep_nil_elim H eq_refl eq_refl).
Qed.

Lemma star_cons r s' :
  matches r s' -> forall a c s, r = Star a -> s' = c :: s ->
  exists u v, s = u ++ v /\ matches a (c :: u) /\ matches (Star a) v.
Proof.
  induction 1; intros a' c' s' E N; try discriminate.
  injection E as ->.
  destruct s as [|x s].
  - simpl in N. exact (IHmatches2 a' c' s' eq_refl N).
  - simpl in N. injection N as -> <-.
    exists s, t. now repeat split.
Qed.

Lemma rep_cons r s' :
  matches r s' -> forall a lo hi c s, r = Rep a lo hi -> s' = c :: s ->
  exists hi' u v, hi = S hi' /\ s = u ++ v /\ matches a (c :: u)
                  /\ matches (Rep a (pred lo) hi') v.
Proof.
  induction 1; intros a' lo' hi' c' s' E N; try discriminate.
  injection E as -> -> <-.
  destruct s as [|x s].
  - simpl in N.
    destruct (IHmatches2 a' (pred lo') hi c' s' eq_refl N)
      as (hi2 & u & v & -> & -> & Hu & Hv).
    exists (S hi2), u, v. repeat split; trivial.
    change v with ([] ++ v). now constructor.
  - simpl in N. injection N as -> <-.
    exists hi, s, t. now repeat split.
Qed.

Lemma deriv_iff c r : forall s, matches (deriv c r) s <-> matches r (c :: s).
Proof.
  induction r as [ | | p | a IHa b IHb | a IHa b IHb | a IHa | a IHa lo hi ];
    intro s; simpl.
  - split; intro H; inversion H.
  - split; intro H; inversion H.
  - destruct (p c) eqn:P; split; intro H; inversion H; subst.
    + now constructor.
    + constructor.
    + congruence.
  - rewrite mkAlt_iff. split; intro H.
    + inversion H; subst.
      * match goal with X : matches (mkSeq _ _) _ |- _ =>
          apply mkSeq_iff in X; inversion X; subst end.
        change (c :: ?x ++ ?y) with ((c :: x) ++ y).
        constructor; [now apply IHa | assumption].
      * destruct (nullable a) eqn:Na.
        -- change (c :: s) with ([] ++ c :: s).
           constructor; [now apply nullable_iff | now apply IHb].
        -- match goal with X : matches Empty _ |- _ => inversion X end.
    + inversion H; subst.
      match goal with X : _ ++ _ = c :: s |- _ => rename X into E end.
      destruct s0 as [|x s0]; simpl in E.
      * subst t. apply MAltR.
        match goal with X : matches a [] |- _ =>
          apply nullable_iff in X; rewrite X end.
        now apply IHb.
      * injection E as -> <-. apply MAltL, mkSeq_iff.
        constructor; [now apply IHa | assumption].
  - rewrite mkAlt_iff. split; intro H; inversion H; subst.
    + apply MAltL; now apply IHa.
    + apply MAltR; now apply IHb.
    + apply MAltL; now apply IHa.
    + apply MAltR; now apply IHb.
  - rewrite mkSeq_iff. split; intro H.
    + inversion H; subst.
      change (c :: ?x ++ ?y) with ((c :: x) ++ y).
      constructor; [now apply IHa | assumption].
    + destruct (star_cons H eq_refl eq_refl) as (u & v & -> & Hu & Hv).
      constructor; [now apply IHa | assumption].
  - split; intro H.
    + destruct hi as [|hi]; [inversion H|].
      apply mkSeq_iff in H. inversion H; subst.
      change (c :: ?x ++ ?y) with ((c :: x) ++ y).
      constructor; [now apply IHa | assumption].
    + destruct (rep_cons H eq_refl eq_refl)
        as (hi' & u & v & -> & -> & Hu & Hv).
      apply mkSeq_iff. constructor; [now apply IHa | assumption].
Qed.

Lemma derivs_iff s : forall r t, matches (derivs s r) t <-> matches r (s ++ t).
Proof.
  induction s as [|c s IH]; intros r t; simpl.
  - reflexivity.
  - rewrite IH. apply deriv_iff.
Qed.

(** [test] is language membership. *)
Lemma test_iff r s : test r s = true <-> matches r s.
Proof.
  unfold test. rewrite nullable_iff, derivs_iff, app_nil_r. reflexivity.
Qed.

End RegexFacts.

(** ** Bounded repetition of a character class *)

Module ClassFacts.
Import RegexFacts.

Lemma rep_class_elim r s :
  matches r s -> forall p lo hi, r = Rep (Class p) lo hi ->
  (lo <= length s <= hi)%nat /\ forallb p s = true.
Proof.
  induction 1; intros p' lo' hi' E; try discriminate.
  - injection E as _ <- _. simpl. split; [lia | reflexivity].
  - injection E as -> -> <-.
    destruct (IHmatches2 p' (pred lo') hi eq_refl) as [L F].
    inversion H; subst. simpl. rewrite F.
    match goal with X : p' _ = true |- _ => rewrite X end.
    split; [lia | reflexivity].
Qed.

Lemma rep_class_intro p s : forall lo hi,
  (lo <= length s <= hi)%nat -> forallb p s = true ->
  matches (Rep (Class p) lo hi) s.
Proof.
  induction s as [|c s IH]; intros lo hi L F; simpl in *.
  - assert (lo = 0)%nat by lia. subst. constructor.
  - apply andb_true_iff in F as [Pc F].
    destruct hi as [|hi]; [lia|].
    change (c :: s) with ([c] ++ s).
    constructor; [now constructor | apply IH; [lia | assumption]].
Qed.

Lemma rep_class_iff p lo hi s :
  matches (Rep (Class p) lo hi) s <->
  (lo <= length s <= hi)%nat /\ forallb p s = true.
Proof.
  split.
  - intro H. exact (rep_class_elim H eq_refl).
  - intros [L F]. now apply rep_class_intro.
Qed.

End ClassFacts.

(** ** Trimming *)

Module TrimFacts.

Lemma trimStart_app_keep s c :
  is_white_space c = false -> trimStart (s ++ [c]) = trimStart s ++ [c].
Proof.
  intro W. induction s as [|x s IH]; simpl.
  - now rewrite W.
  - destruct (is_white_space x); [exact IH | reflexivity].
Qed.

Lemma trimStart_head s :
  trimStart s = [] \/
  exists c u, trimStart s = c :: u /\ is_white_space c = false.
Proof.
  induction s as [|x s IH]; simpl.
  - now left.
  - destruct (is_white_space x) eqn:W; [exact IH|].
    right. now exists x, s.
Qed.

Lemma trimStart_fixed c u :
  is_white_space c = false -> trimStart (c :: u) = c :: u.
Proof. intro W. simpl. now rewrite W. Qed.

Lemma trimStart_idem s : trimStart (trimStart s) = trimStart s.
Proof.
  destruct (trimStart_head s) as [-> | (c & u & -> & W)];
    [reflexivity | now apply trimStart_fixed].
Qed.

Lemma trimEnd_cons c u :
  is_white_space c = false -> trimEnd (c :: u) = c :: trimEnd u.
Proof.
  intro W. unfold trimEnd. simpl.
  rewrite trimStart_app_keep by assumption.
  now rewrite rev_app_distr.
Qed.

Lemma trimEnd_idem s : trimEnd (trimEnd s) = trimEnd s.
Proof. unfold trimEnd. now rewrite rev_involutive, trimStart_idem. Qed.

(** Trimming a trimmed string changes nothing. *)
Lemma trim_idem s : trim (trim s) = trim s.
Proof.
  unfold trim at 1.
  assert (E : trimStart (trim s) = trim s).
  { unfold trim.
    destruct (trimStart_head s) as [-> | (c & u & -> & W)]; [reflexivity|].
    rewrite trimEnd_cons by assumption. now apply trimStart_fixed. }
  rewrite E. unfold trim. apply trimEnd_idem.
Qed.

Lemma trimStart_all_ws s : forallb is_white_space s = true -> trimStart s = [].
Proof.
  induction s as [|x s IH]; simpl; [reflexivity|].
  intro H. apply andb_true_iff in H as [-> H]. now apply IH.
Qed.

Lemma trimStart_nil_ws s : trimStart s = [] -> forallb is_white_space s = true.
Proof.
  induction s as [|x s IH]; simpl; [reflexivity|].
  destruct (is_white_space x); [exact IH | discriminate].
Qed.

(** The trimmed string is empty exactly for whitespace-only input. *)
Lemma trim_nil_iff s : trim s = [] <-> forallb is_white_space s = true.
Proof.
  split.
  - unfold trim. intro H.
    destruct (trimStart_head s) as [E | (c & u & E & W)].
    + now apply trimStart_nil_ws.
    + rewrite E, trimEnd_cons in H by assumption. discriminate.
  - intro H. unfold trim. now rewrite trimStart_all_ws.
Qed.

End TrimFacts.

(** ** Splitting on a separator *)

Module SplitFacts.

Lemma split_length sep s :
  length (split sep s) = S (count_occ N.eq_dec s sep).
Proof.
  induction s as [|c s IH]; simpl; [reflexivity|].
  destruct (N.eqb_spec c sep) as [-> | Ne].
  - destruct (N.eq_dec sep sep); [|congruence]. simpl. now rewrite IH.
  - destruct (N.eq_dec c sep); [congruence|].
    destruct (split sep s) eqn:E; simpl in *; [discriminate | exact IH].
Qed.

Lemma includes_unit_iff c s : includes_unit c s = true <-> In c s.
Proof.
  unfold includes_unit. rewrite existsb_exists. split.
  - intros (x & Hin & E). apply N.eqb_eq in E. now subst.
  - intro H. exists c. split; [assumption | apply N.eqb_refl].
Qed.

End SplitFacts.

(** ** The model on known values *)

Module Examples.

(** 0.1 is 0x3FB999999999999A. *)
Example parseFloat_tenth :
  parseFloat (js "0.1") = S754_finite false 7205759403792794 (-56).
Proof. reflexivity. Qed.

Example parseFloat_prefix :
  parseFloat (js "  +2.5e1px") = of_Z 25.
Proof. reflexivity. Qed.

Example parseFloat_no_digits : parseFloat (js ".e5") = NaN.
Proof. reflexivity. Qed.

(** 2^53 + 1 is a tie and rounds to the even neighbour 2^53. *)
Example parseFloat_tie_even :
  parseFloat (js "9007199254740993") = of_Z 9007199254740992.
Proof. reflexivity. Qed.

Example parseFloat_underflow : parseFloat (js "1e-400") = zero.
Proof. reflexivity. Qed.

Example parseFloat_overflow :
  parseFloat (js "1.7976931348623159e308") = S754_infinity false.
Proof. reflexivity. Qed.

Example floor_negative :
  to_integer (floor (parseFloat (js "-0.5"))) = Some (-1)%Z.
Proof. reflexivity. Qed.

(** [toFixed] rounds a tie upwards. *)
Example toFixed_tie :
  toFixed Sample.number_to_string 2 (parseFloat (js "0.125")) = js "0.13".
Proof. reflexivity. Qed.

Example toFixed_pads :
  toFixed Sample.number_to_string 3 (parseFloat (js "0.0004")) = js "0.000".
Proof. reflexivity. Qed.

Example classify_address :
  detectInputType (js " 4zMMC9srt5Ri5X14GAgXhaHii3GnPAEERYPJgZJDncDU ")
  = Address.
Proof. reflexivity. Qed.

Example classify_email :
  detectInputType (js "first.last@mail.example.com") = Email.
Proof. vm_compute. reflexivity. Qed.

Example classify_two_ats : detectInputType (js "a@b@example.com") = Invalid.
Proof. vm_compute. reflexivity. Qed.

Example classify_trailing_hyphen :
  detectInputType (js "user@example-.com") = Invalid.
Proof. vm_compute. reflexivity. Qed.

Example classify_ambiguous_glyph :
  detectInputType (js "0zMMC9srt5Ri5X14GAgXhaHii3GnPAEERYPJgZJDncDU")
  = Invalid.
Proof. reflexivity. Qed.

(** The balance route for an owner without a token account. *)
Example GET_bob :
  GET Sample.number_to_string Sample.devnet None (Some Sample.bob)
  = json_response (balances_body (of_Z 1) zero).
Proof. vm_compute. reflexivity. Qed.

Example hex_prefix_insensitive :
  Signing.signatureBytes (js "0xabcd1234")
  = Signing.signatureBytes (js "abcd1234").
Proof. reflexivity. Qed.

(** The decoder reads each pair as [parseInt] does. *)
Example hex_pair_prefix : Signing.Buffer_from_hex (js "ab1g") = [171; 1]%N.
Proof. reflexivity. Qed.

Example hex_pair_space : Signing.Buffer_from_hex (js " f") = [15]%N.
Proof. reflexivity. Qed.

Example hex_pair_minus : Signing.Buffer_from_hex (js "-1") = [255]%N.
Proof. reflexivity. Qed.

Example hex_pair_0x : Signing.Buffer_from_hex (js "120x34") = [18]%N.
Proof. reflexivity. Qed.

Example hex_pair_stop : Signing.Buffer_from_hex (js "12zz34") = [18]%N.
Proof. reflexivity. Qed.

Example hex_odd_length : Signing.Buffer_from_hex (js "abc") = [171]%N.
Proof. reflexivity. Qed.

End Examples.

(** ** The email pattern in words *)

Module EmailFacts.
Import RegexFacts ClassFacts.

Lemma seq_inv a b s :
  matches (Seq a b) s ->
  exists u v, s = u ++ v /\ matches a u /\ matches b v.
Proof. intro H. inversion H; subst. now eexists _, _. Qed.

Lemma alt_inv a b s : matches (Alt a b) s -> matches a s \/ matches b s.
Proof. intro H. inversion H; subst; [now left | now right]. Qed.

Lemma class_inv p s :
  matches (Class p) s -> exists c, s = [c] /\ p c = true.
Proof. intro H. inversion H; subst. now eexists. Qed.

Lemma eps_inv s : matches Eps s -> s = [].
Proof. intro H. now inversion H. Qed.

Lemma star_class_elim r s :
  matches r s -> forall p, r = Star (Class p) -> forallb p s = true.
Proof.
  induction 1; intros p' E; try discriminate.
  - reflexivity.
  - injection E as ->. inversion H; subst. simpl.
    match goal with X : p' _ = true |- _ => rewrite X end.
    now apply IHmatches2.
Qed.

Lemma star_class_intro p s :
  forallb p s = true -> matches (Star (Class p)) s.
Proof.
  induction s as [|c s IH]; simpl; intro H; [constructor|].
  apply andb_true_iff in H as [Pc H].
  change (c :: s) with ([c] ++ s).
  constructor; [now constructor | now apply IH].
Qed.

Lemma plus_class_iff p s :
  matches (Plus (Class p)) s <-> s <> [] /\ forallb p s = true.
Proof.
  unfold Plus. split.
  - intro H. inversion H; subst.
    match goal with X : matches (Class p) _ |- _ => inversion X; subst end.
    split; [discriminate|]. simpl.
    match goal with X : p _ = true |- _ => rewrite X end.
    match goal with X : matches (Star _) _ |- _ =>
      exact (star_class_elim X eq_refl) end.
  - intros [N F]. destruct s as [|c s]; [congruence|].
    simpl in F. apply andb_true_iff in F as [Pc F].
    change (c :: s) with ([c] ++ s).
    constructor; [now constructor | now apply star_class_intro].
Qed.

Lemma chr_iff a s : matches (Chr a) s <-> s = [cu a].
Proof.
  unfold Chr. split.
  - intro H. inversion H; subst.
    match goal with X : N.eqb _ _ = true |- _ => apply N.eqb_eq in X end.
    congruence.
  - intros ->. constructor. apply N.eqb_refl.
Qed.

Lemma alnum_is_alnum_hyphen c : is_alnum c = true -> is_alnum_hyphen c = true.
Proof. intro H. unfold is_alnum_hyphen. now rewrite H. Qed.

Lemma forallb_app_single (p : code_unit -> bool) l d :
  forallb p (l ++ [d]) = forallb p l && p d.
Proof. rewrite forallb_app. simpl. now rewrite andb_true_r. Qed.

(** A label of the pattern. *)
Lemma domain_label_iff l : matches domain_label l <-> Spec.label_shaped l.
Proof.
  unfold domain_label, Opt, Spec.label_shaped. split.
  - intro H.
    apply seq_inv in H as (u & v & -> & Hc & Ho).
    apply class_inv in Hc as (c & -> & Pc).
    apply alt_inv in Ho as [He | Hs].
    + apply eps_inv in He. subst v. simpl.
      rewrite (alnum_is_alnum_hyphen _ Pc).
      repeat split; try lia.
      * now exists c, [].
      * now exists [], c.
    + apply seq_inv in Hs as (mid & w & -> & Hm & Hd).
      apply class_inv in Hd as (d & -> & Pd).
      apply rep_class_iff in Hm as [[_ Lm] Fm].
      simpl. rewrite length_app, forallb_app_single. simpl.
      rewrite (alnum_is_alnum_hyphen _ Pc), Fm, (alnum_is_alnum_hyphen _ Pd).
      repeat split; try lia.
      * now exists c, (mid ++ [d]).
      * now exists (c :: mid), d.
  - intros (Len & F & (c & rest & -> & Pc) & (front & d & E & Pd)).
    change (c :: rest) with ([c] ++ rest).
    constructor; [now constructor|].
    destruct front as [|c' mid]; simpl in E; injection E as -> ->.
    + apply MAltL. constructor.
    + apply MAltR. constructor; [|now constructor].
      simpl in Len, F. rewrite length_app in Len. simpl in Len.
      apply andb_true_iff in F as [_ F].
      rewrite forallb_app_single in F. apply andb_true_iff in F as [F _].
      apply rep_class_iff. split; [lia | exact F].
Qed.

Lemma star_dotted_elim r s :
  matches r s -> r = Star (Seq (Chr ".") domain_label) ->
  exists labels, s = Spec.dotted labels /\ Forall Spec.label_shaped labels.
Proof.
  induction 1; intro E; try discriminate.
  - now exists [].
  - injection E as ->.
    destruct (IHmatches2 eq_refl) as (labels & -> & F).
    apply seq_inv in H as (u & v & -> & Hu & Hv).
    apply chr_iff in Hu. subst u.
    apply domain_label_iff in Hv.
    exists (v :: labels). split; [reflexivity | now constructor].
Qed.

Lemma star_dotted_intro labels :
  Forall Spec.label_shaped labels ->
  matches (Star (Seq (Chr ".") domain_label)) (Spec.dotted labels).
Proof.
  induction 1 as [|l labels Hl _ IH]; [constructor|].
  change (Spec.dotted (l :: labels))
    with (([cu "."] ++ l) ++ Spec.dotted labels).
  apply MStarS; [|exact IH].
  apply MSeq; [now apply chr_iff | now apply domain_label_iff].
Qed.

(** The email pattern accepts exactly the strings of that shape. *)
Lemma emailRegex_iff t : matches emailRegex t <-> Spec.pattern_shaped t.
Proof.
  unfold emailRegex, Spec.pattern_shaped. split.
  - intro H.
    apply seq_inv in H as (loc & r1 & -> & Hl & H1).
    apply seq_inv in H1 as (at_ & r2 & -> & Ha & H2).
    apply seq_inv in H2 as (lab & r3 & -> & Hb & H3).
    apply plus_class_iff in Hl as [N F].
    apply chr_iff in Ha. subst at_.
    apply domain_label_iff in Hb.
    destruct (star_dotted_elim H3 eq_refl) as (labels & -> & FL).
    exists loc, lab, labels. repeat split; trivial. now constructor.
  - intros (loc & lab & labels & -> & N & F & FL).
    inversion FL as [|x y Hlab Hlabels]; subst.
    constructor; [now apply plus_class_iff|].
    constructor; [now apply chr_iff|].
    constructor; [now apply domain_label_iff | now apply star_dotted_intro].
Qed.

End EmailFacts.

(** ** Recipient classification *)

Module ClassificationFacts.
Import RegexFacts ClassFacts TrimFacts SplitFacts.

Lemma forall_below (P : N -> bool) (n : nat) :
  forallb P (map N.of_nat (seq 0 n)) = true ->
  forall c, (c < N.of_nat n)%N -> P c = true.
Proof.
  intros H c Hc. rewrite forallb_forall in H. apply H.
  apply in_map_iff. exists (N.to_nat c). split; [apply N2Nat.id|].
  apply in_seq. lia.
Qed.

(** The pattern's character class is the base58 alphabet. *)
Lemma is_base58_alphabet c :
  is_base58 c = true <-> In c Spec.base58_alphabet.
Proof.
  assert (E : is_base58 c = existsb (N.eqb c) Spec.base58_alphabet).
  { destruct (N.ltb_spec c 123) as [Lt | Ge].
    - pose (P := fun c => Bool.eqb (is_base58 c)
                            (existsb (N.eqb c) Spec.base58_alphabet)).
      assert (HP : P c = true).
      { apply (@forall_below P 123); [vm_compute; reflexivity | exact Lt]. }
      unfold P in HP. now apply eqb_prop in HP.
    - transitivity false.
      + unfold is_base58, in_range, in_range_N. simpl cu.
        repeat match goal with
               | |- context [(c <=? ?k)%N] =>
                   destruct (N.leb_spec c k); [lia|]
               end.
        now rewrite !andb_false_r.
      + symmetry. apply not_true_is_false. intro X.
        apply existsb_exists in X as (x & Hin & Hx).
        apply N.eqb_eq in Hx. subst x.
        assert (B : forallb (fun x => (x <? 123)%N) Spec.base58_alphabet = true)
          by (vm_compute; reflexivity).
        rewrite forallb_forall in B. apply B in Hin.
        apply N.ltb_lt in Hin. lia. }
  rewrite E, existsb_exists. split.
  - intros (x & Hin & Hx). apply N.eqb_eq in Hx. now subst.
  - intro H. exists c. split; [assumption | apply N.eqb_refl].
Qed.

Lemma forallb_base58 t :
  forallb is_base58 t = true <-> Forall (fun c => In c Spec.base58_alphabet) t.
Proof.
  rewrite forallb_forall, Forall_forall.
  split; intros H c Hc; apply is_base58_alphabet, H, Hc.
Qed.

(** The address pattern accepts exactly the address-shaped strings. *)
Lemma solanaAddressRegex_iff t :
  test solanaAddressRegex t = true <-> Spec.address_shaped t.
Proof.
  unfold Spec.address_shaped, solanaAddressRegex.
  now rewrite test_iff, rep_class_iff, forallb_base58.
Qed.

Lemma isValidEmail_trimmed t :
  trim t = t ->
  isValidEmail t =
  (length t <=? 254)%nat && Nat.eqb (length (split (cu "@") t)) 2
  && test emailRegex t.
Proof.
  intro I. unfold isValidEmail. rewrite I, Nat.ltb_antisym.
  destruct (length t <=? 254)%nat; [|reflexivity].
  destruct (Nat.eqb (length (split (cu "@") t)) 2); reflexivity.
Qed.

Lemma isValidWalletAddress_trimmed t :
  trim t = t -> isValidWalletAddress t = test solanaAddressRegex t.
Proof. intro I. unfold isValidWalletAddress. now rewrite I. Qed.

(** The classification, on the trimmed input. *)
Lemma detectInputType_unfold input :
  detectInputType input =
  match trim input with
  | [] => Invalid
  | t =>
      if includes_unit (cu "@") t then
        if (length t <=? 254)%nat
           && Nat.eqb (length (split (cu "@") t)) 2
           && test emailRegex t
        then Email else Invalid
      else if test solanaAddressRegex t then Address else Invalid
  end.
Proof.
  unfold detectInputType.
  assert (I := trim_idem input).
  destruct (trim input) as [|c u] eqn:E; [reflexivity|].
  cbv zeta iota.
  now rewrite (isValidEmail_trimmed I), (isValidWalletAddress_trimmed I).
Qed.

Lemma address_shaped_no_at t : Spec.address_shaped t -> ~ In (cu "@") t.
Proof.
  intros [_ F] Hin. rewrite Forall_forall in F. apply F in Hin.
  apply is_base58_alphabet in Hin. vm_compute in Hin. discriminate.
Qed.

Lemma address_shaped_nonempty t : Spec.address_shaped t -> t <> [].
Proof. intros [[L _] _] ->. simpl in L. lia. Qed.

Lemma email_test_iff t :
  includes_unit (cu "@") t = true ->
  ((length t <=? 254)%nat && Nat.eqb (length (split (cu "@") t)) 2
     && test emailRegex t = true <-> Spec.email_shaped t).
Proof.
  intro Hat. unfold Spec.email_shaped.
  rewrite !andb_true_iff, Nat.leb_le, Nat.eqb_eq, test_iff.
  apply includes_unit_iff in Hat. tauto.
Qed.

End ClassificationFacts.

Ltac settle :=
  cbv iota; repeat match goal with |- _ /\ _ => split end;
  (split; intros; try discriminate; try reflexivity; tauto).

(** C2.  After trimming, the classifier answers [Address] exactly for the
    strings of 32 to 44 characters of the base58 alphabet, [Email] exactly
    for the strings that contain an at-sign, have at most 254 characters,
    split into two parts on the at-sign and match the email pattern, and
    [Invalid] for every other string. *)
Theorem detectInputType_classifies (input : jsstring) :
  (detectInputType input = Address <-> Spec.address_shaped (trim input))
  /\ (detectInputType input = Email <-> Spec.email_shaped (trim input))
  /\ (detectInputType input = Invalid <->
        ~ Spec.address_shaped (trim input) /\ ~ Spec.email_shaped (trim input)).
Proof.
  rewrite ClassificationFacts.detectInputType_unfold.
  destruct (trim input) as [|c u] eqn:E.
  - assert (NA : ~ Spec.address_shaped [])
      by (intro A; now apply ClassificationFacts.address_shaped_nonempty in A).
    assert (NE : ~ Spec.email_shaped []) by (intros [[] _]).
    settle.
  - cbv zeta. set (t := c :: u) in *.
    destruct (includes_unit (cu "@") t) eqn:Hat.
    + assert (NA : ~ Spec.address_shaped t).
      { intro A. apply ClassificationFacts.address_shaped_no_at in A.
        apply A. now apply SplitFacts.includes_unit_iff. }
      pose proof (ClassificationFacts.email_test_iff t Hat) as EI.
      destruct ((length t <=? 254)%nat
                && Nat.eqb (length (split (cu "@") t)) 2
                && test emailRegex t).
      * assert (Spec.email_shaped t) by now apply EI.
        settle.
      * assert (~ Spec.email_shaped t) by (intro X; apply EI in X; discriminate).
        settle.
    + assert (NE : ~ Spec.email_shaped t).
      { intros [Hin _]. apply SplitFacts.includes_unit_iff in Hin. congruence. }
      pose proof (ClassificationFacts.solanaAddressRegex_iff t) as AI.
      destruct (test solanaAddressRegex t).
      * assert (Spec.address_shaped t) by now apply AI.
        settle.
      * assert (~ Spec.address_shaped t) by (intro X; apply AI in X; discriminate).
        settle.
Qed.

(** C9.  An input that is empty or made of white space only is classified
    [Invalid]. *)
Theorem detectInputType_blank (input : jsstring) :
  forallb is_white_space input = true -> detectInputType input = Invalid.
Proof.
  intro H. apply TrimFacts.trim_nil_iff in H.
  unfold detectInputType. now rewrite H.
Qed.

Lemma detectInputType_blank_witness :
  forallb is_white_space (js "  ") = true /\ detectInputType (js "  ") = Invalid.
Proof.
  split; [reflexivity | apply detectInputType_blank; reflexivity].
Defined.

(** ** Rounding keeps the sign *)

Module NumberFacts.

Lemma shr_1_nonneg mrs : (0 <= shr_m mrs)%Z -> (0 <= shr_m (shr_1 mrs))%Z.
Proof.
  destruct mrs as [m r s]. simpl. intro H.
  destruct m as [|p|p]; [simpl; lia | | lia].
  destruct p; simpl; lia.
Qed.

Lemma iter_pos_invariant {A} (P : A -> Prop) (f : A -> A) :
  (forall x, P x -> P (f x)) -> forall n x, P x -> P (iter_pos f n x).
Proof.
  intros Hf. induction n as [n IH | n IH | ]; intros x Hx; simpl.
  - apply IH, IH, Hf, Hx.
  - apply IH, IH, Hx.
  - apply Hf, Hx.
Qed.

Lemma shr_nonneg mrs e n :
  (0 <= shr_m mrs)%Z -> (0 <= shr_m (fst (shr mrs e n)))%Z.
Proof.
  intro H. unfold shr. destruct n; simpl; trivial.
  apply (iter_pos_invariant (fun r => (0 <= shr_m r)%Z)); trivial.
  apply shr_1_nonneg.
Qed.

Lemma shr_fexp_nonneg m e l :
  (0 <= m)%Z -> (0 <= shr_m (fst (shr_fexp prec emax m e l)))%Z.
Proof.
  intro H. unfold shr_fexp. apply shr_nonneg.
  destruct l as [|[]]; simpl; exact H.
Qed.

Lemma round_nearest_even_nonneg m l :
  (0 <= m)%Z -> (0 <= round_nearest_even m l)%Z.
Proof.
  intro H. unfold round_nearest_even.
  destruct l as [|[]]; try lia. destruct (Z.even m); lia.
Qed.

Lemma binary_round_aux_signed s m e l :
  (0 <= m)%Z -> signed_as s (binary_round_aux prec emax s m e l).
Proof.
  intro H. unfold binary_round_aux.
  pose proof (shr_fexp_nonneg e l H) as H1.
  destruct (shr_fexp prec emax m e l) as [mrs' e'].
  simpl fst in H1.
  pose proof (round_nearest_even_nonneg (loc_of_shr_record mrs') H1) as H2.
  pose proof (shr_fexp_nonneg e' loc_Exact H2) as H3.
  destruct (shr_fexp prec emax _ e' loc_Exact) as [mrs'' e''].
  simpl fst in H3.
  destruct (shr_m mrs'') as [|p|p]; [reflexivity | | lia].
  destruct (e'' <=? emax - prec)%Z; reflexivity.
Qed.

Lemma binary_round_signed s m e : signed_as s (binary_round prec emax s m e).
Proof.
  unfold binary_round.
  destruct (shl_align m e _) as [mz ez].
  apply binary_round_aux_signed. lia.
Qed.




Lemma zero_leb s : leb (S754_zero s) zero = true.
Proof. reflexivity. Qed.

End NumberFacts.

(** ** The transfer builder *)

Module TransferFacts.
Import TokenTransfer NumberFacts.

Lemma USDC_MINT_ADDRESS_present env_mint :
  present (Some (USDC_MINT_ADDRESS env_mint)) = true.
Proof.
  unfold USDC_MINT_ADDRESS.
  destruct env_mint as [[|c s]|]; reflexivity.
Qed.


Lemma build_instructions_eq (L : Ledger) fpk tpk mint src dst x :
  build_instructions L fpk tpk mint src dst x =
  match to_integer (transferAmount x) with
  | Some units => Return (Spec.instruction_sequence L fpk tpk mint src dst units)
  | None =>
      Throw (VError (js "The number cannot be converted to a BigInt because it is not an integer"))
  end.
Proof.
  unfold build_instructions, Spec.instruction_sequence, createTransferInstruction.
  destruct (to_integer (transferAmount x)); simpl; [|reflexivity].
  destruct (getAccount L dst); reflexivity.
Qed.

(** Every path of [POST] but the last answers with a status other than
    200; the last one went through each ledger call. *)
Lemma POST_success_inv (L : Ledger) env_mint request :
  status (POST L env_mint request) = 200%nat ->
  exists fpk tpk mint src dst units blockhash tx,
    newPublicKey L (field (from request)) = Return fpk
    /\ newPublicKey L (field (to request)) = Return tpk
    /\ newPublicKey L (USDC_MINT_ADDRESS env_mint) = Return mint
    /\ getAssociatedTokenAddress L mint fpk = Return src
    /\ getAssociatedTokenAddress L mint tpk = Return dst
    /\ isNaN (parseFloat (field (amount_field request))) = false
    /\ leb (parseFloat (field (amount_field request))) zero = false
    /\ to_integer (transferAmount (parseFloat (field (amount_field request))))
       = Some units
    /\ getLatestBlockhash L = Return blockhash
    /\ serializeTransaction L fpk blockhash
         (Spec.instruction_sequence L fpk tpk mint src dst units) = Return tx
    /\ POST L env_mint request =
       json_response (transfer_body tx (field (amount_field request))).
Proof.
  unfold POST, bind.
  destruct (negb (present (from request)) || negb (present (to request))
            || negb (present (amount_field request))); [discriminate|].
  destruct (newPublicKey L (field (from request))) as [fpk|];
    [|discriminate].
  destruct (newPublicKey L (field (to request))) as [tpk|];
    [|discriminate].
  cbv beta iota zeta.
  destruct (isNaN (parseFloat (field (amount_field request)))) eqn:EN;
    [discriminate|].
  destruct (leb (parseFloat (field (amount_field request))) zero) eqn:EL;
    [discriminate|].
  rewrite USDC_MINT_ADDRESS_present. cbn [orb negb]. cbv iota.
  destruct (newPublicKey L (USDC_MINT_ADDRESS env_mint)) as [mint|];
    [|discriminate].
  destruct (getAssociatedTokenAddress L mint fpk) as [src|] eqn:Es;
    [|discriminate].
  destruct (getAssociatedTokenAddress L mint tpk) as [dst|] eqn:Ed;
    [|discriminate].
  rewrite build_instructions_eq.
  destruct (to_integer _) as [units|] eqn:EU; [|discriminate].
  destruct (getLatestBlockhash L) as [bh|]; [|discriminate].
  destruct (serializeTransaction L fpk bh _) as [tx|] eqn:ES;
    [|discriminate].
  intros _. exists fpk, tpk, mint, src, dst, units, bh, tx.
  repeat split; trivial.
Qed.

(** Conversely, when the request is complete, the amount passes the check
    and every ledger call returns, [POST] answers with the transaction. *)
Lemma POST_accepts (L : Ledger) env_mint request
      fpk tpk mint src dst units blockhash tx :
  present (from request) = true ->
  present (to request) = true ->
  present (amount_field request) = true ->
  newPublicKey L (field (from request)) = Return fpk ->
  newPublicKey L (field (to request)) = Return tpk ->
  isNaN (parseFloat (field (amount_field request))) = false ->
  leb (parseFloat (field (amount_field request))) zero = false ->
  newPublicKey L (USDC_MINT_ADDRESS env_mint) = Return mint ->
  getAssociatedTokenAddress L mint fpk = Return src ->
  getAssociatedTokenAddress L mint tpk = Return dst ->
  to_integer (transferAmount (parseFloat (field (amount_field request))))
    = Some units ->
  getLatestBlockhash L = Return blockhash ->
  serializeTransaction L fpk blockhash
    (Spec.instruction_sequence L fpk tpk mint src dst units) = Return tx ->
  POST L env_mint request =
  json_response (transfer_body tx (field (amount_field request))).
Proof.
  intros Pf Pt Pa Ef Et EN EL Em Es Ed EU Eb ES.
  unfold POST, bind. rewrite Pf, Pt, Pa, Ef, Et.
  cbn [orb negb]. cbv beta iota zeta.
  rewrite EN, EL, USDC_MINT_ADDRESS_present, Em, Es, Ed.
  cbn [orb negb]. cbv beta iota.
  rewrite build_instructions_eq, EU, Eb, ES. reflexivity.
Qed.

End TransferFacts.

(** C3.  In every successful build the instruction list handed to the
    message compiler is, when the recipient's token account does not exist,
    the create instruction paid by the sender followed by the transfer
    (length 2), and the transfer alone (length 1) when it exists. *)
Theorem POST_instruction_sequence (L : Ledger) env_mint request :
  status (TokenTransfer.POST L env_mint request) = 200%nat ->
  exists fromPublicKey toPublicKey usdcMint fromTokenAccount toTokenAccount
         units blockhash instructions tx,
    newPublicKey L (field (TokenTransfer.from request)) = Return fromPublicKey
    /\ newPublicKey L (field (TokenTransfer.to request)) = Return toPublicKey
    /\ getAssociatedTokenAddress L usdcMint fromPublicKey
       = Return fromTokenAccount
    /\ getAssociatedTokenAddress L usdcMint toPublicKey = Return toTokenAccount
    /\ TokenTransfer.build_instructions L fromPublicKey toPublicKey usdcMint
         fromTokenAccount toTokenAccount
         (parseFloat (field (TokenTransfer.amount_field request)))
       = Return instructions
    /\ serializeTransaction L fromPublicKey blockhash instructions = Return tx
    /\ body (TokenTransfer.POST L env_mint request)
       = TokenTransfer.transfer_body tx
           (field (TokenTransfer.amount_field request))
    /\ ((forall e, getAccount L toTokenAccount = Throw e ->
           length instructions = 2%nat
           /\ instructions =
              [ CreateAssociatedTokenAccount fromPublicKey toTokenAccount
                                             toPublicKey usdcMint;
                Transfer fromTokenAccount toTokenAccount fromPublicKey units ])
        /\ (forall a, getAccount L toTokenAccount = Return a ->
              length instructions = 1%nat
              /\ instructions =
                 [ Transfer fromTokenAccount toTokenAccount fromPublicKey
                            units ])).
Proof.
  intro H.
  destruct (TransferFacts.POST_success_inv L env_mint request H)
    as (fpk & tpk & mint & src & dst & units & bh & tx
        & Ef & Et & Em & Es & Ed & EN & EL & EU & Eb & ES & EP).
  exists fpk, tpk, mint, src, dst, units, bh,
    (Spec.instruction_sequence L fpk tpk mint src dst units), tx.
  repeat split; trivial.
  - now rewrite TransferFacts.build_instructions_eq, EU.
  - now rewrite EP.
  - unfold Spec.instruction_sequence. now rewrite H0.
  - unfold Spec.instruction_sequence. now rewrite H0.
  - unfold Spec.instruction_sequence. now rewrite H0.
  - unfold Spec.instruction_sequence. now rewrite H0.
Qed.

Lemma POST_instruction_sequence_witness :
  status (TokenTransfer.POST Sample.devnet None (Sample.request "2.50"))
    = 200%nat
  /\ exists blockhash instructions tx,
       serializeTransaction Sample.devnet Sample.alice blockhash instructions
       = Return tx
       /\ length instructions = 2%nat
       /\ body (TokenTransfer.POST Sample.devnet None (Sample.request "2.50"))
          = TokenTransfer.transfer_body tx (js "2.50").
Proof.
  split; [vm_compute; reflexivity|].
  destruct (@POST_instruction_sequence Sample.devnet None
              (Sample.request "2.50") ltac:(vm_compute; reflexivity))
    as (fpk & tpk & mint & src & dst & units & bh & instrs & tx
        & Ef & Et & Es & Ed & EB & ES & EP & HT & HR).
  injection Ef as <-. injection Ed as <-.
  vm_compute in Et. injection Et as <-.
  destruct (HT (VError (js "TokenAccountNotFoundError")) eq_refl) as [Len _].
  exists bh, instrs, tx. repeat split; assumption.
Defined.




(** C1, as the code has it.  The amount check looks at the parsed Number
    only: when it is neither [NaN] nor at most zero and
    [Math.floor(amountNum * 10 ** 6)] is [0], the request is not rejected;
    with a complete request and a ledger whose calls return, the build
    answers with the transaction whose transfer instruction carries 0
    units. *)
Theorem POST_accepts_zero_units (L : Ledger) env_mint request
    fromPublicKey toPublicKey usdcMint fromTokenAccount toTokenAccount
    blockhash tx :
  present (TokenTransfer.from request) = true ->
  present (TokenTransfer.to request) = true ->
  present (TokenTransfer.amount_field request) = true ->
  newPublicKey L (field (TokenTransfer.from request)) = Return fromPublicKey ->
  newPublicKey L (field (TokenTransfer.to request)) = Return toPublicKey ->
  isNaN (parseFloat (field (TokenTransfer.amount_field request))) = false ->
  leb (parseFloat (field (TokenTransfer.amount_field request))) zero = false ->
  TokenTransfer.transferAmount
    (parseFloat (field (TokenTransfer.amount_field request))) = zero ->
  newPublicKey L (TokenTransfer.USDC_MINT_ADDRESS env_mint) = Return usdcMint ->
  getAssociatedTokenAddress L usdcMint fromPublicKey
    = Return fromTokenAccount ->
  getAssociatedTokenAddress L usdcMint toPublicKey = Return toTokenAccount ->
  getLatestBlockhash L = Return blockhash ->
  serializeTransaction L fromPublicKey blockhash
    (Spec.instruction_sequence L fromPublicKey toPublicKey usdcMint
       fromTokenAccount toTokenAccount 0) = Return tx ->
  TokenTransfer.POST L env_mint request =
  json_response
    (TokenTransfer.transfer_body tx
       (field (TokenTransfer.amount_field request))).
Proof.
  intros Pf Pt Pa Ef Et EN EL EZ Em Es Ed Eb ES.
  eapply TransferFacts.POST_accepts; eauto.
  rewrite EZ. reflexivity.
Qed.

Lemma POST_accepts_zero_units_witness :
  status (TokenTransfer.POST Sample.devnet None (Sample.request "0.0000001"))
  = 200%nat.
Proof.
  rewrite (@POST_accepts_zero_units Sample.devnet None
             (Sample.request "0.0000001")
             Sample.alice Sample.bob
             (js "4zMMC9srt5Ri5X14GAgXhaHii3GnPAEERYPJgZJDncDU")
             (Sample.associated [] Sample.alice)
             (Sample.associated [] Sample.bob)
             (js "EkSnNWid2cvwEVnVx9aBqawnmiCNiDgp3gUdkDPTKN1N")
             (js "create 9WzDXwBbmkg8ZTbNMqUxvQRAyrZzDsGYdLVL9zYtAWWM paid by 7xKXtg2CW87d97TXJSDpbD5jBkheTqA83TZRuJosgAsU; transfer 0; "));
    try (vm_compute; reflexivity).
Defined.

(** C1 fails as stated: ["0.0000001"] is a positive decimal that is zero
    smallest units under floor(amount x 10^6), and the build answers 200
    with a transaction that transfers 0 units. *)
Lemma POST_zero_units_not_rejected :
  Spec.positive_decimal (js "0.0000001") = true
  /\ Spec.exact_units (js "0.0000001") = Some 0%Z
  /\ status (TokenTransfer.POST Sample.devnet None
               (Sample.request "0.0000001")) = 200%nat
  /\ get "transaction"
       (body (TokenTransfer.POST Sample.devnet None
                (Sample.request "0.0000001")))
     = Return (VString (js "create 9WzDXwBbmkg8ZTbNMqUxvQRAyrZzDsGYdLVL9zYtAWWM paid by 7xKXtg2CW87d97TXJSDpbD5jBkheTqA83TZRuJosgAsU; transfer 0; ")).
Proof. vm_compute. repeat split. Qed.

(** C7.  The units the code puts in the transfer instruction for ["1.00"]
    and ["2.50"] are 1000000 and 2500000; for ["4.1"] they are 4099999,
    one less than floor(4.1 x 10^6) = 4100000. *)
Theorem transferAmount_examples :
  to_integer (TokenTransfer.transferAmount (parseFloat (js "1.00")))
    = Some 1000000%Z
  /\ Spec.exact_units (js "1.00") = Some 1000000%Z
  /\ to_integer (TokenTransfer.transferAmount (parseFloat (js "2.50")))
     = Some 2500000%Z
  /\ Spec.exact_units (js "2.50") = Some 2500000%Z
  /\ to_integer (TokenTransfer.transferAmount (parseFloat (js "4.1")))
     = Some 4099999%Z
  /\ Spec.exact_units (js "4.1") = Some 4100000%Z
  /\ get "transaction"
       (body (TokenTransfer.POST Sample.devnet None (Sample.request "4.1")))
     = Return (VString (js "create 9WzDXwBbmkg8ZTbNMqUxvQRAyrZzDsGYdLVL9zYtAWWM paid by 7xKXtg2CW87d97TXJSDpbD5jBkheTqA83TZRuJosgAsU; transfer 4099999; ")).
Proof. vm_compute. repeat split. Qed.

(** ** The balance refresh *)

Module BalanceFacts.


Section Refresh.
Variable number_to_string : number -> jsstring.
Variable fetch : jsstring -> result FetchResponse.
Variable address : jsstring.

Let url := js "/api/balances?address=" ++ address.
Let refresh := fetchBalances number_to_string fetch address.

(** A failed request, a response that is not [ok] and an unreadable body
    all end in the handler. *)
Lemma fetch_throws e : fetch url = Throw e -> refresh = Return Spec.zero_balances.
Proof.
  intro H. unfold refresh, fetchBalances. fold url. rewrite H. reflexivity.
Qed.

Lemma response_not_ok r :
  fetch url = Return r -> ok r = false -> refresh = Return Spec.zero_balances.
Proof.
  intros H Hok. unfold refresh, fetchBalances. fold url.
  rewrite H. unfold bind at 1. rewrite Hok. cbn [negb]. cbv iota.
  destruct (try_catch (json r) (fun _ => Return (VObject []))) as [d|e];
    [|reflexivity].
  unfold bind at 1. destruct (get "message" d); reflexivity.
Qed.

Lemma body_unreadable r e :
  fetch url = Return r -> json r = Throw e -> refresh = Return Spec.zero_balances.
Proof.
  intros H J. destruct (ok r) eqn:Hok.
  - unfold refresh, fetchBalances. fold url.
    rewrite H. unfold bind at 1. rewrite Hok, J. reflexivity.
  - now apply response_not_ok with r.
Qed.

Lemma never_throws : exists b, refresh = Return b.
Proof.
  unfold refresh, fetchBalances.
  match goal with |- exists b, try_catch ?c _ = _ => destruct c as [b|e] end.
  - now exists b.
  - now exists Spec.zero_balances.
Qed.

(** An [ok] response with a JSON object for body is read field by field. *)
Lemma response_ok r fields :
  fetch url = Return r -> ok r = true -> json r = Return (VObject fields) ->
  refresh =
  Return {| solBalance := or_else (lookup "solBalance" fields) (VNumber zero);
            usdcBalance := or_else (lookup "usdcBalance" fields)
                                   (VNumber zero) |}.
Proof.
  intros H Hok J. unfold refresh, fetchBalances. fold url.
  rewrite H. unfold bind at 1. rewrite Hok, J. reflexivity.
Qed.

End Refresh.

(** The balance route, when the owner's token account is missing and the
    other ledger calls return, answers 200 with [usdcBalance] zero. *)
Lemma GET_missing_token_account number_to_string (L : Ledger) env_mint
      addr publicKey usdcMint lamports tokenAccountAddress e :
  present addr = true ->
  newPublicKey L (field addr) = Return publicKey ->
  newPublicKey L (BALANCES_USDC_MINT_ADDRESS env_mint) = Return usdcMint ->
  getBalance L publicKey = Return lamports ->
  getAssociatedTokenAddress L usdcMint publicKey = Return tokenAccountAddress ->
  getAccount L tokenAccountAddress = Throw e ->
  GET number_to_string L env_mint addr =
  json_response
    (balances_body
       (parseFloat
          (toFixed number_to_string 3
             (div (of_Z (Z.of_N lamports)) LAMPORTS_PER_SOL)))
       zero).
Proof.
  intros Pa Ek Em Eb Ea Eg. unfold GET, bind.
  rewrite Pa, Ek. cbn [negb]. cbv beta iota.
  assert (P : present (Some (BALANCES_USDC_MINT_ADDRESS env_mint)) = true).
  { unfold BALANCES_USDC_MINT_ADDRESS. destruct env_mint as [[|c s]|];
      reflexivity. }
  rewrite P, Em, Eb, Ea, Eg. reflexivity.
Qed.

End BalanceFacts.

(** C8.  The balance refresh always returns: whatever [fetch] does, the
    result is a snapshot, never a thrown value.  A failed request, a
    response that is not [ok] and an unreadable body give zero balances.
    When the route finds no token account for the owner, it answers 200
    with [usdcBalance] 0, and the refresh returns a snapshot with token
    balance 0. *)
Theorem fetchBalances_never_throws number_to_string
    (fetch : jsstring -> result FetchResponse) (address : jsstring) :
  let url := js "/api/balances?address=" ++ address in
  let refresh := fetchBalances number_to_string fetch address in
  (exists snapshot, refresh = Return snapshot)
  /\ (forall e, fetch url = Throw e -> refresh = Return Spec.zero_balances)
  /\ (forall r, fetch url = Return r -> ok r = false ->
        refresh = Return Spec.zero_balances)
  /\ (forall r e, fetch url = Return r -> json r = Throw e ->
        refresh = Return Spec.zero_balances)
  /\ (forall (L : Ledger) env_mint addr publicKey usdcMint lamports
             tokenAccountAddress e status_text,
        present addr = true ->
        newPublicKey L (field addr) = Return publicKey ->
        newPublicKey L (BALANCES_USDC_MINT_ADDRESS env_mint)
          = Return usdcMint ->
        getBalance L publicKey = Return lamports ->
        getAssociatedTokenAddress L usdcMint publicKey
          = Return tokenAccountAddress ->
        getAccount L tokenAccountAddress = Throw e ->
        fetch url
          = Return (delivered (GET number_to_string L env_mint addr)
                              status_text) ->
        status (GET number_to_string L env_mint addr) = 200%nat
        /\ get "usdcBalance" (body (GET number_to_string L env_mint addr))
           = Return (VNumber zero)
        /\ exists sol,
             refresh = Return {| solBalance := sol;
                                 usdcBalance := VNumber zero |}).
Proof.
  intros url refresh.
  split; [apply BalanceFacts.never_throws|].
  split; [apply BalanceFacts.fetch_throws|].
  split; [apply BalanceFacts.response_not_ok|].
  split; [apply BalanceFacts.body_unreadable|].
  intros L env_mint addr publicKey usdcMint lamports ata e status_text
         Pa Ek Em Eb Ea Eg Ef.
  rewrite (BalanceFacts.GET_missing_token_account number_to_string
             L env_mint addr Pa Ek Em Eb Ea Eg) in Ef |- *.
  split; [reflexivity|]. split; [reflexivity|].
  eexists. unfold refresh.
  rewrite (BalanceFacts.response_ok number_to_string fetch address Ef
             eq_refl eq_refl).
  reflexivity.
Qed.

Lemma fetchBalances_never_throws_witness :
  fetchBalances Sample.number_to_string Sample.fetch Sample.bob
  = Return {| solBalance := VNumber (of_Z 1);
              usdcBalance := VNumber zero |}.
Proof.
  destruct (fetchBalances_never_throws Sample.number_to_string
              Sample.fetch Sample.bob) as (_ & _ & _ & _ & H).
  destruct (H Sample.devnet None (Some Sample.bob) Sample.bob
              (js "6a3ytKTopkEyymNB1MsKkGKUHP6J3oafHMzkSBpTKRfd")
              1000000000%N (Sample.associated [] Sample.bob)
              (VError (js "TokenAccountNotFoundError")) (js "OK")
              eq_refl eq_refl eq_refl eq_refl eq_refl eq_refl eq_refl)
    as (_ & _ & sol & E).
  rewrite E. vm_compute in E. injection E as <-. reflexivity.
Defined.

(** ** The signing step *)

Module SigningFacts.
Import Signing.

Lemma eqb_eq s t : JsString.eqb s t = true <-> s = t.
Proof.
  unfold JsString.eqb. destruct (list_eq_dec N.eq_dec s t); split;
    congruence.
Qed.

Lemma eqb_neq s t : JsString.eqb s t = false <-> s <> t.
Proof.
  unfold JsString.eqb. destruct (list_eq_dec N.eq_dec s t); split;
    congruence.
Qed.

Lemma check_status_success signed r :
  check_status signed = Return r <->
  signed = Some r /\ status r = Some (js "SUCCESS").
Proof.
  unfold check_status. destruct signed as [r'|];
    [|split; [discriminate | intros [? _]; discriminate]].
  destruct (status r') as [s|] eqn:Es.
  - destruct (JsString.eqb s (js "SUCCESS")) eqn:E.
    + apply eqb_eq in E. subst s. split.
      * intro H. injection H as ->. now split.
      * intros [H _]. injection H as ->. reflexivity.
    + apply eqb_neq in E. split; [discriminate|].
      intros [H S]. injection H as ->. congruence.
  - split; [discriminate|].
    intros [H S]. injection H as ->. congruence.
Qed.

Lemma check_status_other signed :
  reported_status signed <> js "SUCCESS" ->
  check_status signed = Throw (status_failure signed).
Proof.
  intro H. unfold check_status, reported_status in *.
  destruct signed as [r|]; [|reflexivity].
  destruct (status r) as [s|] eqn:Es; [|reflexivity].
  destruct (JsString.eqb s (js "SUCCESS")) eqn:E; [|reflexivity].
  apply eqb_eq in E. subst s. exfalso. apply H. reflexivity.
Qed.

(** A hexadecimal digit is a character of Basic Latin between ["0"] and
    ["f"], and its value is below 16. *)
Lemma unhex_range c x :
  unhex c = Some x -> (48 <= c <= 102)%N /\ (x < 16)%N.
Proof.
  unfold unhex, in_range, in_range_N.
  change (cu "0") with 48%N. change (cu "9") with 57%N.
  change (cu "a") with 97%N. change (cu "f") with 102%N.
  change (cu "A") with 65%N. change (cu "F") with 70%N.
  destruct (N.leb_spec 48 c), (N.leb_spec c 57), (N.leb_spec 97 c),
    (N.leb_spec c 102), (N.leb_spec 65 c), (N.leb_spec c 70);
    cbn [andb]; intro E; inversion E; lia.
Qed.

Lemma hex_digit_not_space c x : unhex c = Some x -> is_white_space c = false.
Proof.
  intro H. apply unhex_range in H as [[Lo Hi] _].
  unfold is_white_space. cbn [existsb].
  repeat match goal with
         | |- context [N.eqb c ?k] =>
             replace (N.eqb c k) with false
               by (symmetry; apply N.eqb_neq; lia)
         end.
  replace (8192 <=? c)%N with false by (symmetry; apply N.leb_gt; lia).
  reflexivity.
Qed.

(** On two hexadecimal digits [parseInt] gives the byte they spell. *)
Lemma parseInt_pair_digits a b x y :
  unhex a = Some x -> unhex b = Some y ->
  parseInt_pair a b = Some (16 * x + y)%N.
Proof.
  intros Ha Hb. unfold parseInt_pair.
  rewrite (hex_digit_not_space _ Ha), Ha, Hb.
  apply unhex_range in Ha as [[Lo Hi] _].
  change (cu "+") with 43%N. change (cu "-") with 45%N.
  replace (N.eqb a 43) with false by (symmetry; apply N.eqb_neq; lia).
  replace (N.eqb a 45) with false by (symmetry; apply N.eqb_neq; lia).
  reflexivity.
Qed.

(** The decoder agrees with the failing one wherever that one succeeds,
    and stops where the text after it lets it. *)
Lemma Buffer_from_hex_stops : forall h tail bytes,
  Spec.hex_decode h = Some bytes -> stops tail ->
  Buffer_from_hex (h ++ tail) = bytes.
Proof.
  fix IH 1. intros [|a [|b rest]] tail bytes H St.
  - cbn [Spec.hex_decode] in H. injection H as <-. cbn [app].
    destruct tail as [|c [|d tail]]; cbn [Buffer_from_hex]; trivial.
    cbn [stops] in St. now rewrite St.
  - discriminate.
  - cbn [Spec.hex_decode] in H. cbn [app Buffer_from_hex].
    destruct (unhex a) as [x|] eqn:Ea; [|discriminate].
    destruct (unhex b) as [y|] eqn:Eb; [|discriminate].
    destruct (Spec.hex_decode rest) as [bs|] eqn:E; [|discriminate].
    injection H as <-. rewrite (parseInt_pair_digits _ _ Ea Eb).
    f_equal. now apply IH.
Qed.

Lemma Buffer_from_hex_strict : forall s bytes,
  Spec.hex_decode s = Some bytes -> Buffer_from_hex s = bytes.
Proof.
  intros s bytes H. rewrite <- (app_nil_r s).
  now apply Buffer_from_hex_stops.
Qed.

Lemma signatureBytes_strip s :
  signatureBytes s = Buffer_from_hex (Spec.strip_0x s).
Proof.
  unfold signatureBytes, Spec.strip_0x, slice_from.
  destruct (startsWith (js "0x") s); reflexivity.
Qed.

Lemma findIndex_bound {A} (p : A -> bool) l i :
  findIndex p l = Some i -> (i < length l)%nat.
Proof.
  revert i. induction l as [|x l IH]; intros i; simpl; [discriminate|].
  destruct (p x); [intro H; injection H as <-; lia|].
  destruct (findIndex p l) as [j|]; [|discriminate].
  intro H. injection H as <-. specialize (IH j eq_refl). lia.
Qed.

Lemma set_index_nth {A} (x d : A) : forall i l,
  nth_error (set_index i x d l) i = Some x.
Proof.
  induction i as [|i IH]; intros [|y l]; simpl; trivial.
Qed.

End SigningFacts.

(** C5.  The signing step goes on only when the response has status
    SUCCESS.  With status USER_REQUEST_DENIED or USER_CONSENT_DENIED it
    throws the user-denial error; with any other status, an empty or
    missing one, or no response at all, it throws the generic signing
    failure naming the status; with SUCCESS and no signature it throws the
    generic missing-signature failure. *)
Theorem sign_status_outcomes (L : Ledger) wallet_address
    (transaction : Signing.VersionedTransaction (PublicKey L))
    (signed : option Signing.MetaKeepSignTxResponse) :
  let st := Signing.reported_status signed in
  let outcome := Signing.sign L wallet_address transaction signed in
  (forall r, Signing.check_status signed = Return r <->
             signed = Some r /\ Signing.status r = Some (js "SUCCESS"))
  /\ (forall signedTx, outcome = Return signedTx ->
        exists r, signed = Some r
                  /\ Signing.status r = Some (js "SUCCESS")
                  /\ present (Signing.signature r) = true)
  /\ (st = js "USER_REQUEST_DENIED" \/ st = js "USER_CONSENT_DENIED" ->
      outcome = Throw (VError (js "User denied transaction signing")))
  /\ (st <> js "SUCCESS" -> st <> js "USER_REQUEST_DENIED" ->
      st <> js "USER_CONSENT_DENIED" ->
      outcome = Throw (VError (js "Transaction signing failed ("
                                 ++ st ++ js ")")))
  /\ (forall r, signed = Some r ->
      Signing.status r = Some (js "SUCCESS") ->
      present (Signing.signature r) = false ->
      outcome = Throw (VError
                         (js "MetaKeep did not return a transaction signature"))).
Proof.
  intros st outcome. unfold outcome, Signing.sign.
  split; [|split; [|split; [|split]]].
  - intro r. apply SigningFacts.check_status_success.
  - intros signedTx H.
    destruct (Signing.check_status signed) as [r|e] eqn:C; [|discriminate].
    apply SigningFacts.check_status_success in C as [-> S].
    exists r. repeat split; trivial.
    unfold bind in H.
    destruct (present (Signing.signature r)); [reflexivity | discriminate].
  - intros D.
    rewrite SigningFacts.check_status_other.
    + unfold Signing.status_failure. fold st.
      destruct D as [-> | ->]; reflexivity.
    + fold st. destruct D as [-> | ->]; discriminate.
  - intros N1 N2 N3.
    rewrite SigningFacts.check_status_other by exact N1.
    unfold Signing.status_failure. fold st.
    apply SigningFacts.eqb_neq in N2, N3. now rewrite N2, N3.
  - intros r -> S P.
    assert (C : Signing.check_status (Some r) = Return r)
      by (apply SigningFacts.check_status_success; now split).
    rewrite C. unfold bind. now rewrite P.
Qed.

Lemma sign_status_outcomes_witness :
  Signing.sign Sample.devnet Sample.alice Sample.unsigned
    (Some (Sample.response "USER_CONSENT_DENIED" None))
  = Throw (VError (js "User denied transaction signing")).
Proof.
  apply (sign_status_outcomes Sample.devnet Sample.alice Sample.unsigned
           (Some (Sample.response "USER_CONSENT_DENIED" None))).
  right. reflexivity.
Defined.

(** C4, as the code has it.  For a response with status SUCCESS and a
    signature, the bytes are those the browser's decoder reads from the
    signature without its optional 0x prefix.  The decoder never fails:
    it gives the decoded bytes whenever the remainder is made of
    hexadecimal digit pairs only, and the bytes of the hexadecimal part
    whenever that part is followed by text at which it stops.  The step
    produces a signed transaction exactly when 64 bytes come out, the
    wallet address parses and its key is one of the signers: when the
    number of bytes is not 64 the step throws, and when the step returns,
    the 64 bytes sit in the slot of the wallet's key. *)
Theorem sign_decodes_signature (L : Ledger) wallet_address
    (transaction : Signing.VersionedTransaction (PublicKey L))
    (r : Signing.MetaKeepSignTxResponse) :
  Signing.status r = Some (js "SUCCESS") ->
  present (Signing.signature r) = true ->
  let sigStr := field (Signing.signature r) in
  let bytes := Signing.Buffer_from_hex (Spec.strip_0x sigStr) in
  let outcome := Signing.sign L wallet_address transaction (Some r) in
  (forall decoded, Spec.hex_decode (Spec.strip_0x sigStr) = Some decoded ->
     bytes = decoded)
  /\ (forall h tail decoded,
        Spec.strip_0x sigStr = h ++ tail ->
        Spec.hex_decode h = Some decoded -> Signing.stops tail ->
        bytes = decoded)
  /\ (length bytes <> 64%nat -> exists e, outcome = Throw e)
  /\ (forall signedTx, outcome = Return signedTx ->
        length bytes = 64%nat
        /\ exists publicKey signerIndex,
             newPublicKey L wallet_address = Return publicKey
             /\ Signing.findIndex (fun pubkey => equals L pubkey publicKey)
                  (Signing.signerPubkeys transaction) = Some signerIndex
             /\ nth_error (Signing.signatures signedTx) signerIndex
                = Some bytes)
  /\ (forall publicKey signerIndex,
        length bytes = 64%nat ->
        newPublicKey L wallet_address = Return publicKey ->
        Signing.findIndex (fun pubkey => equals L pubkey publicKey)
          (Signing.signerPubkeys transaction) = Some signerIndex ->
        outcome
        = Return {| Signing.signerPubkeys := Signing.signerPubkeys transaction;
                    Signing.signatures :=
                      Signing.set_index signerIndex bytes []
                        (Signing.signatures transaction);
                    Signing.message := Signing.message transaction |}).
Proof.
  intros S P sigStr bytes outcome.
  assert (C : Signing.check_status (Some r) = Return r)
    by (apply SigningFacts.check_status_success; now split).
  assert (O : outcome =
              (publicKey <- newPublicKey L wallet_address ;;
               Signing.addSignature L transaction publicKey bytes)).
  { unfold outcome, Signing.sign. rewrite C. unfold bind at 1.
    rewrite P. cbn [negb]. cbv iota zeta.
    now rewrite SigningFacts.signatureBytes_strip. }
  split; [|split; [|split; [|split]]].
  - intros decoded H. now apply SigningFacts.Buffer_from_hex_strict.
  - intros h tail decoded E H St. unfold bytes. rewrite E.
    now apply SigningFacts.Buffer_from_hex_stops.
  - intro Len. rewrite O. unfold bind.
    destruct (newPublicKey L wallet_address) as [pk|e]; [|now exists e].
    unfold Signing.addSignature.
    apply Nat.eqb_neq in Len. rewrite Len. cbn [negb]. now eexists.
  - intros signedTx H. rewrite O in H. unfold bind in H.
    destruct (newPublicKey L wallet_address) as [pk|e]; [|discriminate].
    unfold Signing.addSignature in H.
    destruct (Nat.eqb (length bytes) 64) eqn:Len; [|discriminate].
    cbn [negb] in H.
    destruct (Signing.findIndex _ _) as [i|] eqn:F; [|discriminate].
    injection H as <-. split; [now apply Nat.eqb_eq|].
    exists pk, i. repeat split; trivial.
    apply SigningFacts.set_index_nth.
  - intros pk i Len K F. rewrite O. unfold bind. rewrite K.
    unfold Signing.addSignature.
    apply Nat.eqb_eq in Len. rewrite Len. cbn [negb]. now rewrite F.
Qed.

Lemma sign_decodes_signature_witness :
  exists e,
    Signing.sign Sample.devnet Sample.alice Sample.unsigned
      (Some (Sample.response "SUCCESS" (Some (js "0xabcd1234")))) = Throw e.
Proof.
  apply (@sign_decodes_signature Sample.devnet Sample.alice Sample.unsigned
           (Sample.response "SUCCESS" (Some (js "0xabcd1234")))
           eq_refl eq_refl).
  vm_compute. discriminate.
Defined.

(** C4 fails as stated: text that does not decode as a hex string still
    gives a signed transaction.  After the 0x prefix, 128 hexadecimal
    digits followed by ["zz"] are signed with the first 64 bytes; and
    126 digits followed by ["1g"] are signed with 64 bytes of which the
    last is 1, read from ["1g"]. *)
Lemma sign_accepts_malformed_hex :
  Spec.hex_decode (Spec.strip_0x (js "0x" ++ Sample.hex128 ++ js "zz")) = None
  /\ Signing.sign Sample.devnet Sample.alice Sample.unsigned
       (Some (Sample.response "SUCCESS"
                (Some (js "0x" ++ Sample.hex128 ++ js "zz"))))
     = Return {| Signing.signerPubkeys := [Sample.alice];
                 Signing.signatures :=
                   [Signing.Buffer_from_hex Sample.hex128];
                 Signing.message := js "transfer 2500000; " |}
  /\ Spec.hex_decode (firstn 126 Sample.hex128 ++ js "1g") = None
  /\ Signing.sign Sample.devnet Sample.alice Sample.unsigned
       (Some (Sample.response "SUCCESS"
                (Some (firstn 126 Sample.hex128 ++ js "1g"))))
     = Return {| Signing.signerPubkeys := [Sample.alice];
                 Signing.signatures :=
                   [Signing.Buffer_from_hex (firstn 126 Sample.hex128)
                    ++ [1%N]];
                 Signing.message := js "transfer 2500000; " |}
  /\ length (Signing.Buffer_from_hex (firstn 126 Sample.hex128) ++ [1%N])
     = 64%nat.
Proof. vm_compute. repeat split; reflexivity. Qed.

(** ** The insufficient-gas classifier *)

(** C10.  A failure signal that is neither a string nor an [Error] object
    is never classified as insufficient gas, whatever the lower-casing
    function is. *)
Theorem isInsufficientGasError_other_values
    (toLowerCase : jsstring -> jsstring) (error : value) :
  (forall s, error <> VString s) ->
  (forall m, error <> VError m) ->
  isInsufficientGasError toLowerCase error = false.
Proof.
  intros NS NE. destruct error; try reflexivity.
  - now destruct (NS s).
  - now destruct (NE message).
Qed.

Lemma isInsufficientGasError_other_values_witness :
  isInsufficientGasError (fun s => s)
    (VObject [("error", VString (js "insufficient funds"))]) = false.
Proof.
  apply isInsufficientGasError_other_values; intros ? ?; discriminate.
Defined.

(* ================================================================== *)
(** * Further properties of the sources *)
(* ================================================================== *)

(** ** Strings: substring search and padding *)

Module StringFacts.
Import TrimFacts.

Lemma startsWith_iff p s :
  startsWith p s = true <-> exists r, s = p ++ r.
Proof.
  revert s. induction p as [|a p IH]; intro s; simpl.
  - split; [now exists s | reflexivity].
  - destruct s as [|b s].
    + split; [discriminate | intros (r & E); discriminate].
    + rewrite andb_true_iff, N.eqb_eq, IH. split.
      * intros (-> & r & ->). now exists r.
      * intros (r & E). injection E as -> ->. split; [reflexivity | now exists r].
Qed.

(** [s.includes(needle)] holds exactly when [needle] occurs in [s]. *)
Lemma includes_iff needle s :
  includes needle s = true <-> exists pre post, s = pre ++ needle ++ post.
Proof.
  induction s as [|c s IH]; simpl.
  - rewrite orb_false_r, startsWith_iff. split.
    + intros (r & E). now exists [], r.
    + intros (pre & post & E). destruct pre; simpl in E.
      * now exists post.
      * discriminate.
  - rewrite orb_true_iff, startsWith_iff, IH. split.
    + intros [(r & E) | (pre & post & E)].
      * now exists [], r.
      * exists (c :: pre), post. simpl. now rewrite E.
    + intros (pre & post & E). destruct pre as [|x pre]; simpl in E.
      * left. now exists post.
      * right. injection E as -> ->. now exists pre, post.
Qed.

Lemma trimStart_skip a s :
  forallb is_white_space a = true -> trimStart (a ++ s) = trimStart s.
Proof.
  induction a as [|x a IH]; simpl; [reflexivity|].
  intro H. apply andb_true_iff in H as [-> H]. now apply IH.
Qed.

Lemma trimStart_app_kept s c u b :
  trimStart s = c :: u -> trimStart (s ++ b) = (c :: u) ++ b.
Proof.
  induction s as [|x s IH]; simpl; [discriminate|].
  destruct (is_white_space x); [exact IH|].
  intro E. injection E as -> ->. reflexivity.
Qed.

Lemma forallb_rev {A} (p : A -> bool) l : forallb p (rev l) = forallb p l.
Proof.
  induction l as [|x l IH]; simpl; [reflexivity|].
  rewrite forallb_app, IH. simpl. rewrite andb_true_r. apply andb_comm.
Qed.

Lemma trimEnd_skip s b :
  forallb is_white_space b = true -> trimEnd (s ++ b) = trimEnd s.
Proof.
  intro H. unfold trimEnd. rewrite rev_app_distr, trimStart_skip; trivial.
  now rewrite forallb_rev.
Qed.

(** White space around a string does not change what [trim] returns. *)
Lemma trim_padding a s b :
  forallb is_white_space a = true -> forallb is_white_space b = true ->
  trim (a ++ s ++ b) = trim s.
Proof.
  intros Ha Hb. unfold trim. rewrite trimStart_skip by assumption.
  destruct (trimStart_head s) as [E | (c & u & E & W)].
  - rewrite E.
    assert (F : forallb is_white_space (s ++ b) = true).
    { rewrite forallb_app, Hb, andb_true_r. now apply trimStart_nil_ws. }
    now rewrite (trimStart_all_ws _ F).
  - rewrite (trimStart_app_kept _ b E), E. now apply trimEnd_skip.
Qed.

End StringFacts.

(** ** Recipient classification, continued *)

Module ClassificationMore.
Import RegexFacts ClassFacts TrimFacts SplitFacts EmailFacts
       ClassificationFacts StringFacts.

Lemma count_outside_class (p : code_unit -> bool) (x : code_unit) s :
  p x = false -> forallb p s = true -> count_occ N.eq_dec s x = 0%nat.
Proof.
  intros Px. induction s as [|c s IH]; simpl; [reflexivity|].
  intro H. apply andb_true_iff in H as [Pc H].
  destruct (N.eq_dec c x) as [-> | _]; [congruence | now apply IH].
Qed.

Lemma count_at_class (p : code_unit -> bool) s :
  p (cu "@") = false -> forallb p s = true ->
  count_occ N.eq_dec s (cu "@") = 0%nat.
Proof. apply count_outside_class. Qed.

Lemma count_at_label l :
  Spec.label_shaped l -> count_occ N.eq_dec l (cu "@") = 0%nat.
Proof.
  intros (_ & F & _). now apply (count_at_class is_alnum_hyphen).
Qed.

Lemma count_at_dotted labels :
  Forall Spec.label_shaped labels ->
  count_occ N.eq_dec (Spec.dotted labels) (cu "@") = 0%nat.
Proof.
  induction 1 as [|l labels Hl _ IH]; [reflexivity|].
  change (Spec.dotted (l :: labels))
    with (([cu "."] ++ l) ++ Spec.dotted labels).
  pose proof (count_at_label Hl) as Hl'.
  rewrite !count_occ_app. unfold jsstring, code_unit in *.
  rewrite IH, Hl'. reflexivity.
Qed.

(** A string of the pattern's shape has exactly one at-sign. *)
Lemma pattern_one_at t :
  Spec.pattern_shaped t -> count_occ N.eq_dec t (cu "@") = 1%nat.
Proof.
  intros (loc & lab & labels & -> & _ & F & FL).
  inversion FL as [|x y Hlab Hlabels]; subst.
  pose proof (count_at_class is_local_part loc eq_refl F) as H1.
  pose proof (count_at_label Hlab) as H2.
  pose proof (count_at_dotted Hlabels) as H3.
  rewrite !count_occ_app. unfold jsstring, code_unit in *.
  rewrite H1, H2, H3. reflexivity.
Qed.

End ClassificationMore.

(** X1.  [isValidEmail] accepts exactly the strings whose trimmed form has at
    most 254 characters and the shape local@label(.label)*: the check that
    the string splits in two on the at-sign never changes the answer. *)
Theorem isValidEmail_shape (s : jsstring) :
  isValidEmail s = true <->
  (length (trim s) <= 254)%nat /\ Spec.pattern_shaped (trim s).
Proof.
  unfold isValidEmail. cbv zeta. rewrite Nat.ltb_antisym.
  destruct (Nat.leb_spec (length (trim s)) 254) as [L | L]; cbn [negb].
  - destruct (Nat.eqb_spec (length (split (cu "@") (trim s))) 2) as [E | E];
      cbn [negb].
    + rewrite RegexFacts.test_iff, EmailFacts.emailRegex_iff. tauto.
    + split; [discriminate|]. intros [_ P]. exfalso. apply E.
      rewrite SplitFacts.split_length.
      now rewrite (ClassificationMore.pattern_one_at P).
  - split; [discriminate | lia].
Qed.

(** X2.  White space before and after the input does not change its
    classification. *)
Theorem detectInputType_padding (a input b : jsstring) :
  forallb is_white_space a = true ->
  forallb is_white_space b = true ->
  detectInputType (a ++ input ++ b) = detectInputType input.
Proof.
  intros Ha Hb.
  rewrite !ClassificationFacts.detectInputType_unfold.
  now rewrite StringFacts.trim_padding.
Qed.

Lemma detectInputType_padding_witness :
  detectInputType (js "  " ++ Sample.alice ++ js " ") = Address.
Proof.
  rewrite (@detectInputType_padding (js "  ") Sample.alice (js " ")
             eq_refl eq_refl).
  reflexivity.
Defined.

(** ** The signing step, continued *)

Module SigningMore.
Import Signing SigningFacts.

Lemma hex_decode_no_0x h bytes :
  Spec.hex_decode h = Some bytes -> startsWith (js "0x") h = false.
Proof.
  intro H. destruct (startsWith (js "0x") h) eqn:E; [|reflexivity].
  apply StringFacts.startsWith_iff in E as (r & ->).
  change (js "0x" ++ r) with (48 :: 120 :: r)%N in H.
  cbn [Spec.hex_decode] in H.
  replace (unhex 120%N) with (@None N) in H by reflexivity.
  destruct (unhex 48%N); discriminate.
Qed.

(** The decoder yields at most one byte for two characters. *)
Lemma Buffer_from_hex_length : forall s,
  (2 * length (Buffer_from_hex s) <= length s)%nat.
Proof.
  fix IH 1. intros [|a [|b rest]]; cbn [Buffer_from_hex length]; try lia.
  destruct (parseInt_pair a b); cbn [length]; [|lia].
  specialize (IH rest). lia.
Qed.

Lemma unhex_byte c x : unhex c = Some x -> (x < 16)%N.
Proof.
  unfold unhex, in_range, in_range_N.
  change (cu "0") with 48%N. change (cu "9") with 57%N.
  change (cu "a") with 97%N. change (cu "f") with 102%N.
  change (cu "A") with 65%N. change (cu "F") with 70%N.
  destruct (N.leb_spec 48 c), (N.leb_spec c 57), (N.leb_spec 97 c),
    (N.leb_spec c 102), (N.leb_spec 65 c), (N.leb_spec c 70);
    cbn [andb]; intro E; inversion E; lia.
Qed.

Lemma set_index_other {A} (x d : A) : forall i j l,
  i <> j -> (i < length l)%nat ->
  nth_error (set_index i x d l) j = nth_error l j.
Proof.
  induction i as [|i IH]; intros [|j] [|y l] N L; simpl in *;
    try lia; try reflexivity.
  apply IH; lia.
Qed.

(** What [parseInt] reads from a pair is kept as a byte. *)
Lemma parseInt_pair_byte a b v : parseInt_pair a b = Some v -> (v < 256)%N.
Proof.
  unfold parseInt_pair.
  destruct (is_white_space a);
    [intro E; apply unhex_byte in E; lia|].
  destruct (N.eqb a (cu "+"));
    [intro E; apply unhex_byte in E; lia|].
  destruct (N.eqb a (cu "-")).
  - destruct (unhex b) as [y|]; [|discriminate].
    intro E. assert (V : v = ((256 - y) mod 256)%N) by congruence.
    rewrite V. apply N.mod_lt. discriminate.
  - destruct (unhex a) as [x|] eqn:Ea; [|discriminate].
    apply unhex_byte in Ea.
    destruct (unhex b) as [y|] eqn:Eb.
    + apply unhex_byte in Eb. intro E.
      assert (V : v = (16 * x + y)%N) by congruence. rewrite V. lia.
    + destruct (_ && _); [discriminate|]. intro E.
      assert (V : v = x) by congruence. rewrite V. lia.
Qed.

Lemma Buffer_from_hex_bytes : forall s,
  Forall (fun b => (b < 256)%N) (Buffer_from_hex s).
Proof.
  fix IH 1. intros [|a [|b rest]]; cbn [Buffer_from_hex]; try constructor.
  destruct (parseInt_pair a b) as [v|] eqn:E; [|constructor].
  constructor; [exact (parseInt_pair_byte _ _ E) | apply IH].
Qed.

Lemma set_index_length {A} (x d : A) : forall i l,
  (i < length l)%nat -> length (set_index i x d l) = length l.
Proof.
  induction i as [|i IH]; intros [|y l] L; simpl in *; try lia.
  f_equal. apply IH. lia.
Qed.

Lemma sign_success_inv (L : Ledger) wallet_address transaction signed signedTx :
  sign L wallet_address transaction signed = Return signedTx ->
  exists r publicKey signerIndex,
    signed = Some r
    /\ status r = Some (js "SUCCESS")
    /\ present (signature r) = true
    /\ newPublicKey L wallet_address = Return publicKey
    /\ length (signatureBytes (field (signature r))) = 64%nat
    /\ findIndex (fun pubkey => equals L pubkey publicKey)
         (signerPubkeys transaction) = Some signerIndex
    /\ signedTx =
       {| signerPubkeys := signerPubkeys transaction;
          signatures := set_index signerIndex
                          (signatureBytes (field (signature r))) []
                          (signatures transaction);
          message := message transaction |}.
Proof.
  unfold sign. intro H.
  destruct (check_status signed) as [r|e] eqn:C; [|discriminate].
  apply check_status_success in C as [-> S].
  unfold bind in H.
  destruct (present (signature r)) eqn:P; [|discriminate].
  cbn [negb] in H.
  destruct (newPublicKey L wallet_address) as [pk|e] eqn:K; [|discriminate].
  unfold addSignature in H.
  destruct (Nat.eqb (length (signatureBytes (field (signature r)))) 64)
    eqn:Len; [|discriminate].
  cbn [negb] in H.
  destruct (findIndex _ _) as [i|] eqn:F; [|discriminate].
  injection H as <-. apply Nat.eqb_eq in Len.
  exists r, pk, i. repeat split; trivial.
Qed.

End SigningMore.

(** X3.  Signature decoding does not depend on the 0x prefix: for every
    well-formed hexadecimal string the bytes read with and without the
    prefix are the same, and they are the decoded bytes. *)
Theorem signatureBytes_prefix_insensitive (h : jsstring) (bytes : list N) :
  Spec.hex_decode h = Some bytes ->
  Signing.signatureBytes (js "0x" ++ h) = bytes
  /\ Signing.signatureBytes h = bytes.
Proof.
  intro H. split.
  - unfold Signing.signatureBytes. simpl.
    now apply SigningFacts.Buffer_from_hex_strict.
  - unfold Signing.signatureBytes.
    rewrite (SigningMore.hex_decode_no_0x _ H).
    now apply SigningFacts.Buffer_from_hex_strict.
Qed.

Lemma signatureBytes_prefix_insensitive_witness :
  Signing.signatureBytes (js "0x" ++ js "abcd1234") = [171; 205; 18; 52]%N
  /\ Signing.signatureBytes (js "abcd1234") = [171; 205; 18; 52]%N.
Proof.
  apply signatureBytes_prefix_insensitive. reflexivity.
Defined.

(** X4.  A signature of fewer than 128 characters after the optional 0x
    prefix is always refused: with status SUCCESS and a wallet address that
    parses, the step throws the 64-byte assertion error. *)
Theorem sign_short_signature (L : Ledger) wallet_address publicKey
    (transaction : Signing.VersionedTransaction (PublicKey L))
    (r : Signing.MetaKeepSignTxResponse) :
  Signing.status r = Some (js "SUCCESS") ->
  present (Signing.signature r) = true ->
  (length (Spec.strip_0x (field (Signing.signature r))) < 128)%nat ->
  newPublicKey L wallet_address = Return publicKey ->
  Signing.sign L wallet_address transaction (Some r)
  = Throw (VError (js "Signature must be 64 bytes long")).
Proof.
  intros S P Len K. unfold Signing.sign.
  assert (C : Signing.check_status (Some r) = Return r)
    by (apply SigningFacts.check_status_success; now split).
  rewrite C. unfold bind. rewrite P, K. cbn [negb].
  unfold Signing.addSignature.
  rewrite SigningFacts.signatureBytes_strip.
  pose proof (SigningMore.Buffer_from_hex_length
                (Spec.strip_0x (field (Signing.signature r)))) as B.
  destruct (Nat.eqb_spec
              (length (Signing.Buffer_from_hex
                         (Spec.strip_0x (field (Signing.signature r))))) 64)
    as [E | _]; [lia | reflexivity].
Qed.

Lemma sign_short_signature_witness :
  Signing.sign Sample.devnet Sample.alice Sample.unsigned
    (Some (Sample.response "SUCCESS" (Some (js "0xabcd1234"))))
  = Throw (VError (js "Signature must be 64 bytes long")).
Proof.
  apply (@sign_short_signature Sample.devnet Sample.alice Sample.alice
           Sample.unsigned
           (Sample.response "SUCCESS" (Some (js "0xabcd1234"))));
    try reflexivity.
  vm_compute. lia.
Defined.

(** X5.  When the signing step returns, the signed transaction is the
    unsigned one with the slot of the wallet's key filled: the message and
    the signer keys are the same, and, the transaction having one slot for
    each signer key, the number of slots and every other slot are
    unchanged. *)
Theorem sign_frame (L : Ledger) wallet_address
    (transaction signedTx : Signing.VersionedTransaction (PublicKey L))
    (signed : option Signing.MetaKeepSignTxResponse) :
  length (Signing.signatures transaction)
    = length (Signing.signerPubkeys transaction) ->
  Signing.sign L wallet_address transaction signed = Return signedTx ->
  Signing.message signedTx = Signing.message transaction
  /\ Signing.signerPubkeys signedTx = Signing.signerPubkeys transaction
  /\ length (Signing.signatures signedTx)
     = length (Signing.signatures transaction)
  /\ exists signerIndex bytes,
       nth_error (Signing.signatures signedTx) signerIndex = Some bytes
       /\ length bytes = 64%nat
       /\ Forall (fun b => (b < 256)%N) bytes
       /\ forall j, j <> signerIndex ->
                    nth_error (Signing.signatures signedTx) j
                    = nth_error (Signing.signatures transaction) j.
Proof.
  intros Slots H.
  destruct (SigningMore.sign_success_inv _ _ _ _ H)
    as (r & pk & i & _ & _ & _ & _ & Len & F & ->).
  pose proof (SigningFacts.findIndex_bound _ _ F) as B.
  rewrite <- Slots in B. cbn [Signing.message Signing.signerPubkeys
                              Signing.signatures].
  split; [reflexivity|]. split; [reflexivity|].
  split; [now apply SigningMore.set_index_length|].
  exists i, (Signing.signatureBytes (field (Signing.signature r))).
  split; [apply SigningFacts.set_index_nth|].
  split; [exact Len|].
  split.
  - rewrite SigningFacts.signatureBytes_strip.
    apply SigningMore.Buffer_from_hex_bytes.
  - intros j N. apply SigningMore.set_index_other; [congruence | exact B].
Qed.

Lemma sign_frame_witness :
  exists signedTx,
    Signing.sign Sample.devnet Sample.alice Sample.unsigned
      (Some (Sample.response "SUCCESS" (Some (js "0x" ++ Sample.hex128))))
    = Return signedTx
    /\ Signing.message signedTx = Signing.message Sample.unsigned.
Proof.
  eexists. split; [vm_compute; reflexivity|].
  apply (@sign_frame Sample.devnet Sample.alice Sample.unsigned _
           (Some (Sample.response "SUCCESS"
                    (Some (js "0x" ++ Sample.hex128))))
           eq_refl).
  vm_compute. reflexivity.
Defined.

(** ** The two routes, continued *)

Module RouteFacts.
Import TokenTransfer.

Lemma BALANCES_MINT_present env_mint :
  present (Some (BALANCES_USDC_MINT_ADDRESS env_mint)) = true.
Proof.
  unfold BALANCES_USDC_MINT_ADDRESS.
  destruct env_mint as [[|c s]|]; reflexivity.
Qed.

(** The five answers of the transfer route. *)
Lemma POST_cases (L : Ledger) env_mint request :
  let answer := POST L env_mint request in
  answer = json_response_status
             (error_body "Missing required fields: from, to, amount") 400
  \/ answer = json_response_status
                (error_body "Invalid Solana address format") 400
  \/ answer = json_response_status (error_body "Invalid amount") 400
  \/ (exists m,
        answer = json_response_status
                   (error_body_with_message
                      "Failed to create transfer transaction" m) 500)
  \/ (exists tx,
        answer = json_response
                   (transfer_body tx (field (amount_field request)))).
Proof.
  intro answer. subst answer. unfold POST, bind.
  destruct (negb (present (from request)) || negb (present (to request))
            || negb (present (amount_field request))); [now left|].
  destruct (newPublicKey L (field (from request))); [|right; now left].
  destruct (newPublicKey L (field (to request))); [|right; now left].
  cbv beta iota zeta.
  destruct (isNaN _ || leb _ zero); [right; right; now left|].
  rewrite TransferFacts.USDC_MINT_ADDRESS_present. cbn [negb].
  do 3 right.
  repeat match goal with
         | |- context [match ?x with Return _ => _ | Throw _ => _ end] =>
             lazymatch x with
             | context [match _ with _ => _ end] => fail
             | _ => destruct x
             end
         end;
    solve [left; now eexists | right; now eexists].
Qed.

End RouteFacts.

(** X7.  The transfer route has five answers and no other: 400 for a
    missing field, 400 for an address that does not parse, 400 for the
    amount, 500 with the message of whatever was thrown, and 200 with the
    transaction.  The answer "USDC mint address not configured" is never
    given: with its built-in default the mint address is never empty. *)
Theorem POST_answers (L : Ledger) env_mint request :
  let answer := TokenTransfer.POST L env_mint request in
  (answer = json_response_status
              (TokenTransfer.error_body
                 "Missing required fields: from, to, amount") 400
   \/ answer = json_response_status
                 (TokenTransfer.error_body "Invalid Solana address format") 400
   \/ answer = json_response_status
                 (TokenTransfer.error_body "Invalid amount") 400
   \/ (exists m,
         answer = json_response_status
                    (TokenTransfer.error_body_with_message
                       "Failed to create transfer transaction" m) 500)
   \/ (exists tx,
         answer = json_response
                    (TokenTransfer.transfer_body tx
                       (field (TokenTransfer.amount_field request)))))
  /\ get "error" (body answer)
     <> Return (VString (js "USDC mint address not configured")).
Proof.
  intro answer.
  pose proof (RouteFacts.POST_cases L env_mint request) as H.
  fold answer in H.
  split; [exact H|].
  destruct H as [-> | [-> | [-> | [(m & ->) | (tx & ->)]]]];
    cbn; intro E; injection E as E; vm_compute in E; discriminate.
Qed.

(** X8.  The balance route has four answers and no other: 400 for a
    missing address, 400 for one that does not parse, 500 with the message
    of whatever the ledger threw, and 200 with both balances; the 200
    answer is given exactly when the key, the mint, the lamport balance
    and the token address are obtained, whether or not the token account
    exists. *)
Theorem GET_answers number_to_string (L : Ledger) env_mint addr :
  let answer := GET number_to_string L env_mint addr in
  (answer = json_response_status
              (TokenTransfer.error_body "Missing wallet address") 400
   \/ answer = json_response_status
                 (TokenTransfer.error_body "Invalid Solana address") 400
   \/ (exists m,
         answer = json_response_status
                    (TokenTransfer.error_body_with_message
                       "Failed to fetch balances" m) 500)
   \/ (exists sol usdc, answer = json_response (balances_body sol usdc)))
  /\ (status answer = 200%nat <->
      present addr = true
      /\ exists publicKey usdcMint lamports tokenAccountAddress,
           newPublicKey L (field addr) = Return publicKey
           /\ newPublicKey L (BALANCES_USDC_MINT_ADDRESS env_mint)
              = Return usdcMint
           /\ getBalance L publicKey = Return lamports
           /\ getAssociatedTokenAddress L usdcMint publicKey
              = Return tokenAccountAddress).
Proof.
  intro answer. subst answer. unfold GET, bind.
  destruct (present addr); cbn [negb];
    [|split; [now left | split; [discriminate | intros [? _]; discriminate]]].
  destruct (newPublicKey L (field addr)) as [pk|e].
  2:{ split; [right; now left|]. split; [discriminate|].
      intros (_ & pk & ? & ? & ? & E & _). discriminate. }
  rewrite RouteFacts.BALANCES_MINT_present. cbn [negb].
  destruct (newPublicKey L (BALANCES_USDC_MINT_ADDRESS env_mint))
    as [mint|e].
  2:{ split; [right; right; left; now eexists|]. split; [discriminate|].
      intros (_ & ? & ? & ? & ? & _ & E & _). discriminate. }
  destruct (getBalance L pk) as [lam|e] eqn:EB.
  2:{ split; [right; right; left; now eexists|]. split; [discriminate|].
      intros (_ & ? & ? & ? & ? & E1 & _ & E & _).
      injection E1 as <-. congruence. }
  destruct (getAssociatedTokenAddress L mint pk) as [ata|e] eqn:EA.
  2:{ split; [right; right; left; now eexists|]. split; [discriminate|].
      intros (_ & ? & ? & ? & ? & E1 & E2 & _ & E).
      injection E1 as <-. injection E2 as <-. congruence. }
  split; [do 3 right; now eexists _, _|].
  split; [|reflexivity].
  intros _. split; [reflexivity|]. now exists pk, mint, lam, ata.
Qed.

(** ** The send flow *)

Module PageFacts.
Import Page.

Ltac run_cases :=
  repeat (cbn [fst snd app then_ catch finally emit call ret raise negb] in *
          || match goal with
             | |- context [match ?x with _ => _ end] => destruct x eqn:?
             | |- context [if ?x then _ else _] => destruct x eqn:?
             end).

Section Flow.
Variable L : Ledger.
Variable B : Browser L.

Lemma then_ret {A C} (a : A) (k : A -> run L C) : then_ (ret L a) k = k a.
Proof. unfold then_, ret. now destruct (k a). Qed.

Lemma then_emit {C} e (k : unit -> run L C) :
  then_ (emit L e) k = (e :: fst (k tt), snd (k tt)).
Proof. unfold then_, emit. now destruct (k tt). Qed.

Lemma then_return {A C} (a : A) (k : A -> run L C) :
  then_ (call L (Return a)) k = k a.
Proof. unfold then_, call. now destruct (k a). Qed.

Lemma then_throw {A C} e (k : A -> run L C) :
  then_ (call L (Throw e)) k = ([], Throw e).
Proof. reflexivity. Qed.

Lemma then_raise {A C} e (k : A -> run L C) :
  then_ (raise L e) k = ([], Throw e).
Proof. reflexivity. Qed.

Lemma snd_then {A C} (m : run L A) (k : A -> run L C) :
  snd (then_ m k) =
  match snd m with Return a => snd (k a) | Throw e => Throw e end.
Proof. destruct m as [l [a|e]]; cbn; [now destruct (k a) | reflexivity]. Qed.

Lemma fst_then {A C} (m : run L A) (k : A -> run L C) :
  fst (then_ m k) =
  fst m ++ match snd m with Return a => fst (k a) | Throw e => [] end.
Proof.
  destruct m as [l [a|e]]; cbn; [now destruct (k a) | now rewrite app_nil_r].
Qed.

Lemma fetchWalletFromEmail_returns e :
  exists r, snd (fetchWalletFromEmail B e) = Return r.
Proof.
  unfold fetchWalletFromEmail. run_cases; now eexists.
Qed.

Lemma send_failed_returns e : snd (send_failed B e) = Return tt.
Proof. reflexivity. Qed.

Lemma send_guarded_returns w t amt inp a :
  snd (send_guarded B w t amt inp a) = Return tt.
Proof.
  unfold send_guarded.
  destruct (send_attempt B w t amt inp a) as [l [[]|e]]; reflexivity.
Qed.

Lemma resolve_recipient_returns t inp :
  exists r, snd (resolve_recipient B t inp) = Return r.
Proof.
  unfold resolve_recipient. destruct t; try (now eexists).
  rewrite snd_then.
  destruct (fetchWalletFromEmail_returns (trim inp)) as (r & ->).
  destruct (negb (present r)); [now eexists|].
  destruct (negb (isValidWalletAddress (field r))); [|now eexists].
  rewrite then_emit. now eexists.
Qed.

(** Every run of the guarded attempt is one of six: it stops before the
    request, after the request, after asking the signer, after sending,
    after asking for the confirmation, or it goes through. *)
Lemma send_guarded_trace w t amt inp a :
  let req := transfer_requested (address w) a amt in
  let why := reason t amt inp a in
  let tr := fst (send_guarded B w t amt inp a) in
  (exists e,
     tr = [setIsSending true; setSendDialogOpen false;
           showToast (failure_toast B e); setIsSending false])
  \/ (exists e,
        tr = [setIsSending true; setSendDialogOpen false; req;
              showToast (failure_toast B e); setIsSending false])
  \/ (exists tx e,
        tr = [setIsSending true; setSendDialogOpen false; req;
              signTransaction_sent tx why;
              showToast (failure_toast B e); setIsSending false])
  \/ (exists tx signed stx e,
        signTransaction B tx why = Return signed
        /\ Signing.sign L (address w) tx signed = Return stx
        /\ tr = [setIsSending true; setSendDialogOpen false; req;
                 signTransaction_sent tx why; sendRawTransaction_sent stx;
                 showToast (failure_toast B e); setIsSending false])
  \/ (exists tx signed stx sig e,
        signTransaction B tx why = Return signed
        /\ Signing.sign L (address w) tx signed = Return stx
        /\ sendRawTransaction B stx = Return sig
        /\ tr = [setIsSending true; setSendDialogOpen false; req;
                 signTransaction_sent tx why; sendRawTransaction_sent stx;
                 confirmTransaction_sent sig;
                 showToast (failure_toast B e); setIsSending false])
  \/ (exists tx signed stx sig refresh,
        signTransaction B tx why = Return signed
        /\ Signing.sign L (address w) tx signed = Return stx
        /\ sendRawTransaction B stx = Return sig
        /\ confirmTransaction B sig = Return tt
        /\ (refresh = [] \/ exists b, refresh = [setWallet b])
        /\ tr = [setIsSending true; setSendDialogOpen false; req;
                 signTransaction_sent tx why; sendRawTransaction_sent stx;
                 confirmTransaction_sent sig;
                 showToast
                   {| kind := Success;
                      message := js "Transaction confirmed on Solana!";
                      actionLabel := Some (js "View");
                      actionHref := Some (EXPLORER_TX_BASE B ++ sig
                                            ++ js "?cluster=devnet") |};
                 setRecipientInput []; setSendAmount (js "1.00")]
                ++ refresh ++ [setIsSending false]).
Proof.
  intros req why tr. subst tr.
  unfold send_guarded, send_attempt, transfer_failed, send_failed.
  fold req. fold why.
  pose proof (BalanceFacts.never_throws (number_to_string B) (fetch B)
                (address w)) as (bal & Hbal).
  rewrite Hbal.
  repeat (cbn [fst snd app then_ catch finally emit call ret raise negb]
          || match goal with
             | |- context [match ?x with _ => _ end] =>
                 lazymatch x with
                 | context [match _ with _ => _ end] => fail
                 | context [if _ then _ else _] => fail
                 | _ => destruct x eqn:?
                 end
             | |- context [if ?x then _ else _] =>
                 lazymatch x with
                 | context [match _ with _ => _ end] => fail
                 | context [if _ then _ else _] => fail
                 | _ => destruct x eqn:?
                 end
             end).
  all: repeat match goal with u : unit |- _ => destruct u end.
  all: first
         [ solve [left; eexists; reflexivity]
         | solve [right; left; eexists; reflexivity]
         | solve [right; right; left; do 2 eexists; reflexivity]
         | solve [right; right; right; left; do 4 eexists;
                  repeat split; eauto]
         | solve [right; right; right; right; left; do 5 eexists;
                  repeat split; eauto]
         | solve [right; right; right; right; right; do 4 eexists;
                  exists (@nil (event (PublicKey L)));
                  split; [eassumption|]; split; [eassumption|];
                  split; [eassumption|]; split; [eassumption|];
                  split; [now left | reflexivity]]
         | solve [right; right; right; right; right; do 4 eexists;
                  exists [setWallet bal];
                  split; [eassumption|]; split; [eassumption|];
                  split; [eassumption|]; split; [eassumption|];
                  split; [right; now exists bal | reflexivity]] ].
Qed.

(** The three runs of [fetchWalletFromEmail]. *)
Lemma fetchWalletFromEmail_trace e :
  (MetaKeep_loaded B = false
   /\ fetchWalletFromEmail B e =
      ([setIsFetchingAddress true; email_toast L; setIsFetchingAddress false],
       Return None))
  \/ (MetaKeep_loaded B = true
      /\ exists err, getWallet B e = Throw err
      /\ fetchWalletFromEmail B e =
         ([setIsFetchingAddress true; getWallet_sent e; email_toast L;
           setIsFetchingAddress false], Return None))
  \/ (MetaKeep_loaded B = true
      /\ exists response, getWallet B e = Return response
      /\ fetchWalletFromEmail B e =
         ([setIsFetchingAddress true; getWallet_sent e;
           setIsFetchingAddress false],
          Return (if JsString.eqb (status response) (js "SUCCESS")
                     && present (solAddress response)
                  then Some (field (solAddress response)) else None))).
Proof.
  unfold fetchWalletFromEmail, email_toast.
  destruct (MetaKeep_loaded B); [|now left].
  right. destruct (getWallet B e) as [r|err] eqn:G.
  - right. split; [reflexivity|]. exists r. split; [reflexivity|].
    cbn [fst snd app then_ catch finally emit call ret raise].
    destruct (JsString.eqb (status r) (js "SUCCESS")
              && present (solAddress r)); reflexivity.
  - left. split; [reflexivity|]. exists err. split; reflexivity.
Qed.

Lemma classified_address inp :
  detectInputType inp = Address -> isValidWalletAddress (trim inp) = true.
Proof.
  intro H. rewrite ClassificationFacts.detectInputType_unfold in H.
  rewrite (ClassificationFacts.isValidWalletAddress_trimmed
             (TrimFacts.trim_idem inp)).
  destruct (trim inp) as [|c u]; [discriminate|]. cbv zeta in H.
  repeat match type of H with
         | (if ?b then _ else _) = _ => destruct b eqn:?
         end; try discriminate.
  reflexivity.
Qed.

(** The runs of [handleSend]: nothing, the toast for an invalid input, the
    email lookup alone or with the toast for a malformed address, and the
    guarded attempt, after the lookup for an email. *)
Lemma handleSend_trace wallet amt inp :
  let tr := fst (handleSend B wallet amt inp) in
  tr = []
  \/ (detectInputType inp = Invalid /\ tr = [invalid_toast L])
  \/ (detectInputType inp = Email
      /\ exists r, snd (fetchWalletFromEmail B (trim inp)) = Return r
      /\ present r = false
      /\ tr = fst (fetchWalletFromEmail B (trim inp)))
  \/ (detectInputType inp = Email
      /\ exists r, snd (fetchWalletFromEmail B (trim inp)) = Return r
      /\ present r = true
      /\ isValidWalletAddress (field r) = false
      /\ tr = fst (fetchWalletFromEmail B (trim inp)) ++ [retrieved_toast L])
  \/ (detectInputType inp = Email
      /\ exists w r, wallet = Some w
      /\ snd (fetchWalletFromEmail B (trim inp)) = Return r
      /\ present r = true
      /\ isValidWalletAddress (field r) = true
      /\ tr = fst (fetchWalletFromEmail B (trim inp))
              ++ fst (send_guarded B w Email amt inp (field r)))
  \/ (detectInputType inp = Address
      /\ exists w, wallet = Some w
      /\ isValidWalletAddress (trim inp) = true
      /\ tr = fst (send_guarded B w Address amt inp (trim inp))).
Proof.
  intro tr. subst tr. unfold handleSend.
  destruct wallet as [w|]; [|now left].
  destruct amt as [|a amt]; [now left|].
  destruct inp as [|c inp]; [now left|].
  cbv zeta.
  destruct (detectInputType (c :: inp)) eqn:T.
  - do 5 right. split; [reflexivity|]. exists w.
    pose proof (classified_address _ T) as V.
    split; [reflexivity|]. split; [exact V|].
    unfold resolve_recipient. rewrite then_ret, V. reflexivity.
  - right. right. rewrite fst_then. unfold resolve_recipient.
    rewrite fst_then, snd_then.
    destruct (fetchWalletFromEmail_returns (trim (c :: inp))) as (r & Hr).
    rewrite Hr.
    destruct (present r) eqn:P; cbn [negb].
    + right. destruct (isValidWalletAddress (field r)) eqn:V; cbn [negb].
      * right. left. split; [reflexivity|]. exists w, r.
        repeat split; trivial.
        cbn [ret fst snd]. rewrite V. cbn [negb]. now rewrite app_nil_r.
      * left. split; [reflexivity|]. exists r. repeat split; trivial.
        rewrite then_emit. cbn [ret fst snd]. now rewrite app_nil_r.
    + left. split; [reflexivity|]. exists r. repeat split; trivial.
      cbn [ret fst snd]. now rewrite !app_nil_r.
  - right. left. split; reflexivity.
Qed.

End Flow.

End PageFacts.

(** X6.  [handleSend] never throws: whatever the SDK, the routes, the
    decoder, the signer and the ledger do, the run ends normally. *)
Theorem handleSend_never_throws (L : Ledger) (B : Page.Browser L)
    (wallet : option Page.WalletData) (sendAmount recipientInput : jsstring) :
  snd (Page.handleSend B wallet sendAmount recipientInput) = Return tt.
Proof.
  unfold Page.handleSend.
  destruct wallet as [w|]; [|reflexivity].
  destruct sendAmount as [|a amt]; [reflexivity|].
  destruct recipientInput as [|c inp]; [reflexivity|].
  cbv zeta.
  destruct (detectInputType (c :: inp)) eqn:T; [| |reflexivity];
    rewrite PageFacts.snd_then;
    match goal with
    | |- context [Page.resolve_recipient B ?t ?i] =>
        destruct (PageFacts.resolve_recipient_returns B t i) as (r & ->)
    end;
    (destruct r as [final|]; [|reflexivity]);
    (destruct (negb (isValidWalletAddress final));
       [reflexivity | apply PageFacts.send_guarded_returns]).
Qed.

Module TraceFacts.
Import Page PageFacts.

Section Traces.
Variable L : Ledger.
Variable B : Browser L.

Lemma after_app (ui : Ui) (l1 l2 : list (event (PublicKey L))) :
  after (after ui l1) l2 = after ui (l1 ++ l2).
Proof. unfold after. now rewrite fold_left_app. Qed.

Lemma toasts_app (l1 l2 : list (event (PublicKey L))) : toasts (l1 ++ l2) = toasts l1 ++ toasts l2.
Proof.
  induction l1 as [|e l1 IH]; [reflexivity|].
  destruct e; simpl; now rewrite ?IH.
Qed.

Lemma failure_toast_kind e : kind (failure_toast B e) = Error.
Proof. unfold failure_toast. now destruct (match e with VError _ => _ | _ => _ end). Qed.

Lemma failure_toast_message e :
  message (failure_toast B e) = js "Insufficient SOL for gas"
  \/ message (failure_toast B e) = js "Send failed: " ++ message_or_unknown e.
Proof.
  unfold failure_toast.
  destruct (match e with VError _ => _ | _ => _ end); [now left | now right].
Qed.

(** A lookup that returns an address shows no toast. *)
Lemma lookup_found e r :
  snd (fetchWalletFromEmail B e) = Return r -> present r = true ->
  exists response,
    getWallet B e = Return response
    /\ status response = js "SUCCESS"
    /\ solAddress response = Some (field r)
    /\ fst (fetchWalletFromEmail B e) =
       [setIsFetchingAddress true; getWallet_sent e;
        setIsFetchingAddress false].
Proof.
  intros Hr P.
  destruct (fetchWalletFromEmail_trace B e)
    as [(_ & E) | [(_ & err & _ & E) | (_ & resp & G & E)]];
    rewrite E in Hr |- *; cbn [fst snd] in *.
  - injection Hr as <-. discriminate.
  - injection Hr as <-. discriminate.
  - exists resp. split; [exact G|].
    destruct (JsString.eqb (status resp) (js "SUCCESS")) eqn:S;
      cbn [andb] in Hr.
    + destruct (present (solAddress resp)) eqn:PS.
      * injection Hr as <-. apply SigningFacts.eqb_eq in S.
        repeat split; trivial.
        destruct (solAddress resp) as [[|]|]; try discriminate. reflexivity.
      * injection Hr as <-. discriminate.
    + injection Hr as <-. discriminate.
Qed.

Lemma lookup_shape e :
  exists mid,
    fst (fetchWalletFromEmail B e)
    = setIsFetchingAddress true :: mid ++ [setIsFetchingAddress false]
    /\ (mid = [email_toast L] \/ mid = [getWallet_sent e; email_toast L]
        \/ mid = [getWallet_sent e]).
Proof.
  destruct (fetchWalletFromEmail_trace B e)
    as [(_ & E) | [(_ & err & _ & E) | (_ & resp & G & E)]]; rewrite E.
  - exists [email_toast L]. split; [reflexivity | auto].
  - exists [getWallet_sent e; email_toast L]. split; [reflexivity | auto].
  - exists [getWallet_sent e]. split; [reflexivity | auto].
Qed.

End Traces.

End TraceFacts.

(** X9.  A run of [handleSend] that starts with both busy flags down ends
    with both down: [isSending] and [isFetchingAddress] are reset on every
    path, also when the lookup, the route, the signer or the ledger
    throws. *)
Theorem handleSend_resets_flags (L : Ledger) (B : Page.Browser L)
    (wallet : option Page.WalletData) (sendAmount recipientInput : jsstring)
    (ui : Page.Ui) :
  Page.isSending ui = false ->
  Page.isFetchingAddress ui = false ->
  let ui' :=
    Page.after ui (fst (Page.handleSend B wallet sendAmount recipientInput)) in
  Page.isSending ui' = false /\ Page.isFetchingAddress ui' = false.
Proof.
  intros S F.
  assert (LK : forall e ui0,
             Page.isSending ui0 = false ->
             Page.isSending
               (Page.after ui0 (fst (Page.fetchWalletFromEmail B e))) = false
             /\ Page.isFetchingAddress
                  (Page.after ui0 (fst (Page.fetchWalletFromEmail B e)))
                = false).
  { intros e ui0 S0.
    destruct (TraceFacts.lookup_shape B e) as (mid & -> & [-> | [-> | ->]]);
      cbn; auto. }
  assert (GD : forall w t a ui0,
             Page.isFetchingAddress ui0 = false ->
             Page.isSending
               (Page.after ui0
                  (fst (Page.send_guarded B w t sendAmount recipientInput a)))
             = false
             /\ Page.isFetchingAddress
                  (Page.after ui0
                     (fst (Page.send_guarded B w t sendAmount
                                             recipientInput a))) = false).
  { intros w t a ui0 F0.
    destruct (PageFacts.send_guarded_trace B w t sendAmount recipientInput a)
      as [(e & ->) | [(e & ->) | [(tx & e & ->) | [(tx & sg & stx & e & _ & _ & ->)
         | [(tx & sg & stx & sig & e & _ & _ & _ & ->)
         | (tx & sg & stx & sig & rf & _ & _ & _ & _ & [-> | (b & ->)] & ->)]]]]];
      cbn; auto. }
  destruct (PageFacts.handleSend_trace B wallet sendAmount recipientInput)
    as [-> | [(_ & ->) | [(_ & r & _ & _ & ->) | [(_ & r & _ & _ & _ & ->)
       | [(_ & w & r & _ & _ & _ & _ & ->) | (_ & w & _ & _ & ->)]]]]];
    cbv zeta.
  - now split.
  - now split.
  - now apply LK.
  - rewrite <- TraceFacts.after_app.
    destruct (LK (trim recipientInput) ui S) as [S1 F1]. cbn. now split.
  - rewrite <- TraceFacts.after_app.
    destruct (LK (trim recipientInput) ui S) as [S1 F1]. now apply GD.
  - now apply GD.
Qed.

Lemma handleSend_resets_flags_witness :
  Page.isSending
    (Page.after SamplePage.ui
       (fst (Page.handleSend SamplePage.refusing (Some SamplePage.wallet)
                             (js "2.50") Sample.bob))) = false.
Proof.
  apply (@handleSend_resets_flags Sample.devnet SamplePage.refusing
           (Some SamplePage.wallet) (js "2.50") Sample.bob SamplePage.ui
           eq_refl eq_refl).
Defined.

(** X10.  A run of [handleSend] shows at most one toast. *)
Theorem handleSend_one_toast (L : Ledger) (B : Page.Browser L)
    (wallet : option Page.WalletData) (sendAmount recipientInput : jsstring) :
  (length (Page.toasts
             (fst (Page.handleSend B wallet sendAmount recipientInput)))
   <= 1)%nat.
Proof.
  assert (GD : forall w t a,
             length (Page.toasts
                       (fst (Page.send_guarded B w t sendAmount
                                               recipientInput a))) = 1%nat).
  { intros w t a.
    destruct (PageFacts.send_guarded_trace B w t sendAmount recipientInput a)
      as [(e & ->) | [(e & ->) | [(tx & e & ->) | [(tx & sg & stx & e & _ & _ & ->)
         | [(tx & sg & stx & sig & e & _ & _ & _ & ->)
         | (tx & sg & stx & sig & rf & _ & _ & _ & _ & [-> | (b & ->)] & ->)]]]]];
      reflexivity. }
  destruct (PageFacts.handleSend_trace B wallet sendAmount recipientInput)
    as [-> | [(_ & ->) | [(_ & r & _ & _ & ->) | [(_ & r & Hr & P & _ & ->)
       | [(_ & w & r & _ & Hr & P & _ & ->) | (_ & w & _ & _ & ->)]]]]].
  - simpl. lia.
  - simpl. lia.
  - destruct (TraceFacts.lookup_shape B (trim recipientInput))
      as (mid & -> & [-> | [-> | ->]]); simpl; lia.
  - destruct (TraceFacts.lookup_found B _ Hr P) as (_ & _ & _ & _ & ->).
    simpl. lia.
  - destruct (TraceFacts.lookup_found B _ Hr P) as (_ & _ & _ & _ & ->).
    rewrite TraceFacts.toasts_app, length_app, GD. simpl. lia.
  - rewrite GD. lia.
Qed.

(** X11.  Every transfer request a run sends names the wallet as sender,
    the amount as typed, and a recipient that passes the address check:
    the trimmed input when it was classified as an address, and for an
    email the address the signer's lookup returned with status SUCCESS. *)
Theorem handleSend_requests (L : Ledger) (B : Page.Browser L)
    (wallet : option Page.WalletData) (sendAmount recipientInput : jsstring)
    (from to amount : jsstring) :
  In (Page.transfer_requested from to amount)
     (fst (Page.handleSend B wallet sendAmount recipientInput)) ->
  (exists w, wallet = Some w /\ from = Page.address w)
  /\ amount = sendAmount
  /\ isValidWalletAddress to = true
  /\ (detectInputType recipientInput = Address
      /\ to = trim recipientInput /\ Spec.address_shaped to
      \/ detectInputType recipientInput = Email
         /\ exists response,
              Page.getWallet B (trim recipientInput) = Return response
              /\ Page.status response = js "SUCCESS"
              /\ Page.solAddress response = Some to).
Proof.
  intro H.
  assert (GD : forall w t a,
             In (Page.transfer_requested from to amount)
                (fst (Page.send_guarded B w t sendAmount recipientInput a)) ->
             from = Page.address w /\ to = a /\ amount = sendAmount).
  { intros w t a HI.
    destruct (PageFacts.send_guarded_trace B w t sendAmount recipientInput a)
      as [(e & E) | [(e & E) | [(tx & e & E) | [(tx & sg & stx & e & _ & _ & E)
         | [(tx & sg & stx & sig & e & _ & _ & _ & E)
         | (tx & sg & stx & sig & rf & _ & _ & _ & _ & [-> | (b & ->)] & E)]]]]];
      rewrite E in HI; cbn [In app] in HI;
      repeat match goal with
             | X : _ \/ _ |- _ => destruct X as [X | X]
             | X : False |- _ => destruct X
             | X : _ = Page.transfer_requested _ _ _ |- _ =>
                 first [discriminate X | injection X as <- <- <-]
             end; auto. }
  assert (LK : forall e,
             ~ In (Page.transfer_requested from to amount)
                  (fst (Page.fetchWalletFromEmail B e))).
  { intros e HI.
    destruct (TraceFacts.lookup_shape B e) as (mid & E & [-> | [-> | ->]]);
      rewrite E in HI; cbn [In app] in HI;
      repeat match goal with
             | X : _ \/ _ |- _ => destruct X as [X | X]
             | X : False |- _ => destruct X
             | X : _ = Page.transfer_requested _ _ _ |- _ => discriminate X
             end. }
  destruct (PageFacts.handleSend_trace B wallet sendAmount recipientInput)
    as [E | [(_ & E) | [(_ & r & _ & _ & E) | [(_ & r & Hr & P & _ & E)
       | [(T & w & r & -> & Hr & P & V & E) | (T & w & -> & V & E)]]]]];
    rewrite E in H.
  - destruct H.
  - destruct H as [H | []]. discriminate.
  - now apply LK in H.
  - apply in_app_or in H as [H | [H | []]]; [now apply LK in H | discriminate].
  - apply in_app_or in H as [H | H]; [now apply LK in H|].
    apply GD in H as (-> & -> & ->).
    destruct (TraceFacts.lookup_found B _ Hr P) as (resp & G & S & A & _).
    split; [now exists w|]. split; [reflexivity|]. split; [exact V|].
    right. split; [exact T|]. now exists resp.
  - apply GD in H as (-> & -> & ->).
    split; [now exists w|]. split; [reflexivity|]. split; [exact V|].
    left. split; [exact T|]. split; [reflexivity|].
    apply ClassificationFacts.solanaAddressRegex_iff.
    now rewrite <- (ClassificationFacts.isValidWalletAddress_trimmed
                      (TrimFacts.trim_idem recipientInput)).
Qed.

Lemma handleSend_requests_witness :
  isValidWalletAddress Sample.bob = true.
Proof.
  apply (@handleSend_requests Sample.devnet SamplePage.approving
           (Some SamplePage.wallet) (js "2.50") (js "bob@example.com")
           Sample.alice Sample.bob (js "2.50")).
  vm_compute. tauto.
Defined.

(** X12.  A run broadcasts only a transaction the signer approved: every
    transaction handed to [sendRawTransaction] comes from a signer answer
    with status SUCCESS, and carries the 64 bytes decoded from that answer
    in the signature slot of the wallet's key. *)
Theorem handleSend_broadcasts_signed (L : Ledger) (B : Page.Browser L)
    (wallet : option Page.WalletData) (sendAmount recipientInput : jsstring)
    (sent : Signing.VersionedTransaction (PublicKey L)) :
  In (Page.sendRawTransaction_sent sent)
     (fst (Page.handleSend B wallet sendAmount recipientInput)) ->
  exists w transaction why r publicKey signerIndex,
    wallet = Some w
    /\ In (Page.signTransaction_sent transaction why)
          (fst (Page.handleSend B wallet sendAmount recipientInput))
    /\ Page.signTransaction B transaction why = Return (Some r)
    /\ Signing.status r = Some (js "SUCCESS")
    /\ newPublicKey L (Page.address w) = Return publicKey
    /\ Signing.findIndex (fun pubkey => equals L pubkey publicKey)
         (Signing.signerPubkeys transaction) = Some signerIndex
    /\ nth_error (Signing.signatures sent) signerIndex
       = Some (Signing.signatureBytes (field (Signing.signature r)))
    /\ length (Signing.signatureBytes (field (Signing.signature r)))
       = 64%nat
    /\ Signing.message sent = Signing.message transaction.
Proof.
  intro H.
  assert (GD : forall w t a,
             In (Page.sendRawTransaction_sent sent)
                (fst (Page.send_guarded B w t sendAmount recipientInput a)) ->
             exists transaction why signed,
               In (Page.signTransaction_sent transaction why)
                  (fst (Page.send_guarded B w t sendAmount recipientInput a))
               /\ Page.signTransaction B transaction why = Return signed
               /\ Signing.sign L (Page.address w) transaction signed
                  = Return sent).
  { intros w t a HI.
    destruct (PageFacts.send_guarded_trace B w t sendAmount recipientInput a)
      as [(e & E) | [(e & E) | [(tx & e & E) | [(tx & sg & stx & e & S1 & S2 & E)
         | [(tx & sg & stx & sig & e & S1 & S2 & _ & E)
         | (tx & sg & stx & sig & rf & S1 & S2 & _ & _ & [-> | (b & ->)] & E)]]]]];
      rewrite E in HI |- *; cbn [In app] in HI |- *;
      repeat match goal with
             | X : _ \/ _ |- _ => destruct X as [X | X]
             | X : False |- _ => destruct X
             | X : _ = Page.sendRawTransaction_sent _ |- _ =>
                 first [discriminate X | injection X as <-]
             end;
      exists tx, (Page.reason t sendAmount recipientInput a), sg;
      (split; [tauto | split; assumption]). }
  assert (LK : forall e,
             ~ In (Page.sendRawTransaction_sent sent)
                  (fst (Page.fetchWalletFromEmail B e))).
  { intros e HI.
    destruct (TraceFacts.lookup_shape B e) as (mid & E & [-> | [-> | ->]]);
      rewrite E in HI; cbn [In app] in HI;
      repeat match goal with
             | X : _ \/ _ |- _ => destruct X as [X | X]
             | X : False |- _ => destruct X
             | X : _ = Page.sendRawTransaction_sent _ |- _ => discriminate X
             end. }
  assert (FIN : forall w t a,
             In (Page.sendRawTransaction_sent sent)
                (fst (Page.send_guarded B w t sendAmount recipientInput a)) ->
             exists transaction why r publicKey signerIndex,
               In (Page.signTransaction_sent transaction why)
                  (fst (Page.send_guarded B w t sendAmount recipientInput a))
               /\ Page.signTransaction B transaction why = Return (Some r)
               /\ Signing.status r = Some (js "SUCCESS")
               /\ newPublicKey L (Page.address w) = Return publicKey
               /\ Signing.findIndex (fun pubkey => equals L pubkey publicKey)
                    (Signing.signerPubkeys transaction) = Some signerIndex
               /\ nth_error (Signing.signatures sent) signerIndex
                  = Some (Signing.signatureBytes (field (Signing.signature r)))
               /\ length (Signing.signatureBytes (field (Signing.signature r)))
                  = 64%nat
               /\ Signing.message sent = Signing.message transaction).
  { intros w t a HI.
    destruct (GD w t a HI) as (tx & why & sg & I & S1 & S2).
    destruct (SigningMore.sign_success_inv _ _ _ _ S2)
      as (r & pk & i & -> & St & _ & K & Len & F & ->).
    exists tx, why, r, pk, i. repeat split; trivial.
    apply SigningFacts.set_index_nth. }
  destruct (PageFacts.handleSend_trace B wallet sendAmount recipientInput)
    as [E | [(_ & E) | [(_ & r & _ & _ & E) | [(_ & r & Hr & P & _ & E)
       | [(T & w & r & -> & Hr & P & V & E) | (T & w & -> & V & E)]]]]];
    rewrite E in H |- *.
  - destruct H.
  - destruct H as [H | []]. discriminate.
  - now apply LK in H.
  - apply in_app_or in H as [H | [H | []]]; [now apply LK in H | discriminate].
  - apply in_app_or in H as [H | H]; [now apply LK in H|].
    destruct (FIN _ _ _ H) as (tx & why & r0 & pk & i & I & R).
    exists w, tx, why, r0, pk, i. split; [reflexivity|].
    split; [apply in_or_app; now right | exact R].
  - destruct (FIN _ _ _ H) as (tx & why & r0 & pk & i & I & R).
    exists w, tx, why, r0, pk, i. split; [reflexivity|].
    split; [exact I | exact R].
Qed.

Lemma handleSend_broadcasts_signed_witness :
  exists transaction why r,
    Page.signTransaction SamplePage.approving transaction why
    = Return (Some r)
    /\ Signing.status r = Some (js "SUCCESS").
Proof.
  destruct (@handleSend_broadcasts_signed Sample.devnet SamplePage.approving
              (Some SamplePage.wallet) (js "2.50") Sample.bob
              {| Signing.signerPubkeys := [Sample.alice];
                 Signing.signatures :=
                   [Signing.Buffer_from_hex Sample.hex128];
                 Signing.message :=
                   js "create 9WzDXwBbmkg8ZTbNMqUxvQRAyrZzDsGYdLVL9zYtAWWM paid by 7xKXtg2CW87d97TXJSDpbD5jBkheTqA83TZRuJosgAsU; transfer 2500000; " |})
    as (w & tx & why & r & pk & i & _ & _ & S & St & _).
  - vm_compute. tauto.
  - now exists tx, why, r.
Defined.

(** X13.  The success toast is shown only for a confirmed broadcast: the
    ledger returned a transaction id for a transaction the run sent, the
    confirmation of that id returned, and the toast links to that id on
    the explorer. *)
Theorem handleSend_success_toast (L : Ledger) (B : Page.Browser L)
    (wallet : option Page.WalletData) (sendAmount recipientInput : jsstring)
    (t : Page.ToastState) :
  In (Page.showToast t)
     (fst (Page.handleSend B wallet sendAmount recipientInput)) ->
  Page.kind t = Page.Success ->
  exists sent signature,
    In (Page.sendRawTransaction_sent sent)
       (fst (Page.handleSend B wallet sendAmount recipientInput))
    /\ Page.sendRawTransaction B sent = Return signature
    /\ Page.confirmTransaction B signature = Return tt
    /\ Page.actionHref t
       = Some (Page.EXPLORER_TX_BASE B ++ signature ++ js "?cluster=devnet").
Proof.
  intros H K.
  assert (GD : forall w ty a,
             In (Page.showToast t)
                (fst (Page.send_guarded B w ty sendAmount recipientInput a)) ->
             exists sent signature,
               In (Page.sendRawTransaction_sent sent)
                  (fst (Page.send_guarded B w ty sendAmount recipientInput a))
               /\ Page.sendRawTransaction B sent = Return signature
               /\ Page.confirmTransaction B signature = Return tt
               /\ Page.actionHref t
                  = Some (Page.EXPLORER_TX_BASE B ++ signature
                            ++ js "?cluster=devnet")).
  { intros w ty a HI.
    destruct (PageFacts.send_guarded_trace B w ty sendAmount recipientInput a)
      as [(e & E) | [(e & E) | [(tx & e & E) | [(tx & sg & stx & e & S1 & S2 & E)
         | [(tx & sg & stx & sig & e & S1 & S2 & _ & E)
         | (tx & sg & stx & sig & rf & S1 & S2 & S3 & S4 & [-> | (b & ->)] & E)]]]]];
      rewrite E in HI |- *; cbn [In app] in HI |- *;
      repeat match goal with
             | X : _ \/ _ |- _ => destruct X as [X | X]
             | X : False |- _ => destruct X
             | X : _ = Page.showToast _ |- _ =>
                 first [discriminate X | injection X as X; subst t]
             end;
      try (rewrite TraceFacts.failure_toast_kind in K; discriminate K);
      exists stx, sig; (split; [tauto | repeat split; assumption]). }
  assert (LK : forall e,
             ~ In (Page.showToast t) (fst (Page.fetchWalletFromEmail B e))).
  { intros e HI.
    destruct (TraceFacts.lookup_shape B e) as (mid & E & [-> | [-> | ->]]);
      rewrite E in HI; cbn [In app] in HI;
      repeat match goal with
             | X : _ \/ _ |- _ => destruct X as [X | X]
             | X : False |- _ => destruct X
             | X : _ = Page.showToast _ |- _ =>
                 first [discriminate X
                       | injection X as X; subst t; discriminate K]
             end. }
  destruct (PageFacts.handleSend_trace B wallet sendAmount recipientInput)
    as [E | [(_ & E) | [(_ & r & _ & _ & E) | [(_ & r & Hr & P & _ & E)
       | [(T & w & r & -> & Hr & P & V & E) | (T & w & -> & V & E)]]]]];
    rewrite E in H |- *.
  - destruct H.
  - destruct H as [H | []]. injection H as H. subst t. discriminate K.
  - now apply LK in H.
  - apply in_app_or in H as [H | [H | []]]; [now apply LK in H|].
    injection H as H. subst t. discriminate K.
  - apply in_app_or in H as [H | H]; [now apply LK in H|].
    destruct (GD _ _ _ H) as (stx & sig & I & R).
    exists stx, sig. split; [apply in_or_app; now right | exact R].
  - now apply GD.
Qed.

Lemma handleSend_success_toast_witness :
  exists sent signature,
    Page.sendRawTransaction SamplePage.approving sent = Return signature
    /\ Page.confirmTransaction SamplePage.approving signature = Return tt.
Proof.
  destruct (@handleSend_success_toast Sample.devnet SamplePage.approving
              (Some SamplePage.wallet) (js "2.50") Sample.bob
              {| Page.kind := Page.Success;
                 Page.message := js "Transaction confirmed on Solana!";
                 Page.actionLabel := Some (js "View");
                 Page.actionHref :=
                   Some (js "https://explorer.solana.com/tx/5VERv8NMvzbJMEkV8xnrLkEaWRtSz9CosKDYjCJjBRnbJLgp8uirBgmQpjKhoR4tjF3ZpRzrFmBV6UjKdiSZkQUW?cluster=devnet") |})
    as (sent & sig & _ & S & C & _).
  - vm_compute. tauto.
  - reflexivity.
  - now exists sent, sig.
Defined.

Module ToastFacts.
Import Page.

Lemma failure_not_format (L : Ledger) (B : Browser L) e :
  showToast (failure_toast B e) <> format_toast L.
Proof.
  unfold format_toast. intro X. injection X as X.
  apply (f_equal message) in X.
  destruct (TraceFacts.failure_toast_message B e) as [M | M];
    rewrite M in X; vm_compute in X; discriminate X.
Qed.

End ToastFacts.

(** X14.  The toast "Invalid wallet address format" is never shown: the
    address that reaches the last format check has already passed the same
    check, in the classification of the input or right after the email
    lookup. *)
Theorem handleSend_no_format_toast (L : Ledger) (B : Page.Browser L)
    (wallet : option Page.WalletData) (sendAmount recipientInput : jsstring) :
  ~ In (Page.format_toast L)
       (fst (Page.handleSend B wallet sendAmount recipientInput)).
Proof.
  intro H.
  assert (GD : forall w t a,
             ~ In (Page.format_toast L)
                  (fst (Page.send_guarded B w t sendAmount recipientInput a))).
  { intros w t a HI.
    destruct (PageFacts.send_guarded_trace B w t sendAmount recipientInput a)
      as [(e & E) | [(e & E) | [(tx & e & E) | [(tx & sg & stx & e & _ & _ & E)
         | [(tx & sg & stx & sig & e & _ & _ & _ & E)
         | (tx & sg & stx & sig & rf & _ & _ & _ & _ & [-> | (b & ->)] & E)]]]]];
      rewrite E in HI; cbn [In app] in HI;
      repeat match goal with
             | X : _ \/ _ |- _ => destruct X as [X | X]
             | X : False |- _ => destruct X
             | X : Page.showToast (Page.failure_toast _ _) = _ |- _ =>
                 now apply ToastFacts.failure_not_format in X
             | X : _ = Page.format_toast _ |- _ => discriminate X
             end. }
  assert (LK : forall e,
             ~ In (Page.format_toast L) (fst (Page.fetchWalletFromEmail B e))).
  { intros e HI.
    destruct (TraceFacts.lookup_shape B e) as (mid & E & [-> | [-> | ->]]);
      rewrite E in HI; cbn [In app] in HI;
      repeat match goal with
             | X : _ \/ _ |- _ => destruct X as [X | X]
             | X : False |- _ => destruct X
             | X : _ = Page.format_toast _ |- _ => discriminate X
             end. }
  destruct (PageFacts.handleSend_trace B wallet sendAmount recipientInput)
    as [E | [(_ & E) | [(_ & r & _ & _ & E) | [(_ & r & Hr & P & _ & E)
       | [(T & w & r & -> & Hr & P & V & E) | (T & w & -> & V & E)]]]]];
    rewrite E in H.
  - destruct H.
  - destruct H as [H | []]. discriminate.
  - now apply LK in H.
  - apply in_app_or in H as [H | [H | []]]; [now apply LK in H | discriminate].
  - apply in_app_or in H as [H | H]; [now apply LK in H | now apply GD in H].
  - now apply GD in H.
Qed.

(** X15.  An email that the signer does not resolve ends the run in
    silence: when the lookup returns without status SUCCESS or without an
    address, the run is the lookup alone, with no toast and no request. *)
Theorem handleSend_unresolved_email (L : Ledger) (B : Page.Browser L)
    (w : Page.WalletData) (sendAmount recipientInput : jsstring)
    (response : Page.MetaKeepGetWalletResponse) :
  sendAmount <> [] ->
  detectInputType recipientInput = Email ->
  Page.MetaKeep_loaded B = true ->
  Page.getWallet B (trim recipientInput) = Return response ->
  Page.status response <> js "SUCCESS"
  \/ present (Page.solAddress response) = false ->
  Page.handleSend B (Some w) sendAmount recipientInput
  = ([Page.setIsFetchingAddress true;
      Page.getWallet_sent (trim recipientInput);
      Page.setIsFetchingAddress false], Return tt).
Proof.
  intros NA T Ld G U.
  destruct sendAmount as [|a amt]; [congruence|].
  destruct recipientInput as [|c inp]; [discriminate T|].
  unfold Page.handleSend. cbv zeta. rewrite T.
  unfold Page.resolve_recipient.
  destruct (PageFacts.fetchWalletFromEmail_trace B (trim (c :: inp)))
    as [(X & _) | [(_ & err & X & _) | (_ & resp & G' & E)]];
    try congruence.
  rewrite G in G'. injection G' as <-. rewrite E.
  assert (C : JsString.eqb (Page.status response) (js "SUCCESS")
              && present (Page.solAddress response) = false).
  { destruct U as [U | U].
    - apply SigningFacts.eqb_neq in U. now rewrite U.
    - rewrite U. apply andb_false_r. }
  rewrite C. reflexivity.
Qed.

Lemma handleSend_unresolved_email_witness :
  Page.toasts
    (fst (Page.handleSend
            (@Page.Build_Browser Sample.devnet
               (map Page.ascii_lower) Sample.number_to_string true
               (fun _ => Return {| Page.status := js "FAILED";
                                   Page.solAddress := None |})
               (Page.fetch_transfer SamplePage.approving)
               Sample.fetch
               (Page.deserialize SamplePage.approving)
               (Page.signTransaction SamplePage.approving)
               (Page.sendRawTransaction SamplePage.approving)
               (Page.confirmTransaction SamplePage.approving)
               None)
            (Some SamplePage.wallet) (js "2.50") (js "bob@example.com")))
  = [].
Proof.
  rewrite (@handleSend_unresolved_email Sample.devnet _ SamplePage.wallet
             (js "2.50") (js "bob@example.com")
             {| Page.status := js "FAILED"; Page.solAddress := None |}).
  - reflexivity.
  - discriminate.
  - vm_compute. reflexivity.
  - reflexivity.
  - reflexivity.
  - right. reflexivity.
Defined.

Module MessageFacts.
Import Page.

Lemma not_gas (f : jsstring -> jsstring) m :
  lowers_ascii f -> is_ascii m = true ->
  existsb (fun keyword => includes keyword (map ascii_lower m))
          insufficientGasKeywords = false ->
  isInsufficientGasError f (VString m) = false
  /\ isInsufficientGasError f (VError m) = false.
Proof.
  intros Hf A K. unfold isInsufficientGasError. now rewrite (Hf m A).
Qed.

End MessageFacts.

(* ================================================================== *)
(** * What the user sees when a send is refused *)
(* ================================================================== *)

Module RefusalFacts.
Import Page PageFacts.

Section Refusals.
Variable L : Ledger.
Variable B : Browser L.

Lemma handleSend_returns wallet amt inp :
  snd (handleSend B wallet amt inp) = Return tt.
Proof.
  unfold handleSend.
  destruct wallet as [w|]; [|reflexivity].
  destruct amt as [|a amt]; [reflexivity|].
  destruct inp as [|c inp]; [reflexivity|].
  cbv zeta.
  destruct (detectInputType (c :: inp)) eqn:T; [| |reflexivity];
    rewrite snd_then;
    match goal with
    | |- context [resolve_recipient B ?t ?i] =>
        destruct (resolve_recipient_returns B t i) as (r & ->)
    end;
    (destruct r as [final|]; [|reflexivity]);
    (destruct (negb (isValidWalletAddress final));
       [reflexivity | apply send_guarded_returns]).
Qed.

(** An event of a run that is neither of the lookup nor a toast belongs
    to the guarded part, which then follows either nothing or a lookup
    that found an address. *)
Lemma reaches_guarded wallet amt inp ev :
  In ev (fst (handleSend B wallet amt inp)) ->
  (forall b, ev <> setIsFetchingAddress b) ->
  (forall e, ev <> getWallet_sent e) ->
  (forall t, ev <> showToast t) ->
  exists lookup w t a,
    (lookup = []
     \/ lookup = [setIsFetchingAddress true; getWallet_sent (trim inp);
                  setIsFetchingAddress false])
    /\ wallet = Some w
    /\ fst (handleSend B wallet amt inp)
       = lookup ++ fst (send_guarded B w t amt inp a)
    /\ In ev (fst (send_guarded B w t amt inp a)).
Proof.
  intros H NF NG NT.
  assert (LK : forall e, ~ In ev (fst (fetchWalletFromEmail B e))).
  { intros e HI.
    destruct (TraceFacts.lookup_shape B e) as (mid & E & [-> | [-> | ->]]);
      rewrite E in HI; unfold email_toast in HI; cbn [In app] in HI;
      repeat match goal with
             | X : _ \/ _ |- _ => destruct X as [X | X]
             | X : False |- _ => destruct X
             | X : setIsFetchingAddress ?b = ev |- _ =>
                 exact (NF b (eq_sym X))
             | X : getWallet_sent ?e = ev |- _ => exact (NG e (eq_sym X))
             | X : showToast ?t = ev |- _ => exact (NT t (eq_sym X))
             end. }
  destruct (handleSend_trace B wallet amt inp)
    as [E | [(_ & E) | [(_ & r & _ & _ & E) | [(_ & r & Hr & P & _ & E)
       | [(T & w & r & -> & Hr & P & V & E) | (T & w & -> & V & E)]]]]];
    rewrite E in H.
  - destruct H.
  - unfold invalid_toast in H. destruct H as [H | []].
    exfalso. exact (NT _ (eq_sym H)).
  - now apply LK in H.
  - apply in_app_or in H as [H | [H | []]]; [now apply LK in H|].
    unfold retrieved_toast in H. exfalso. exact (NT _ (eq_sym H)).
  - apply in_app_or in H as [H | H]; [now apply LK in H|].
    destruct (TraceFacts.lookup_found B _ Hr P) as (resp & _ & _ & _ & F).
    exists [setIsFetchingAddress true; getWallet_sent (trim inp);
            setIsFetchingAddress false], w, Email, (field r).
    split; [now right|]. split; [reflexivity|].
    split; [now rewrite E, F | exact H].
  - exists [], w, Address, (trim inp).
    split; [now left|]. split; [reflexivity|]. split; [exact E | exact H].
Qed.

(** Without the SDK the guarded part stops before the request. *)
Lemma send_guarded_unloaded w t amt inp a :
  MetaKeep_loaded B = false ->
  fst (send_guarded B w t amt inp a)
  = [setIsSending true; setSendDialogOpen false;
     showToast (failure_toast B (VError (js "MetaKeep SDK not loaded")));
     setIsSending false].
Proof.
  intro Ld. unfold send_guarded, send_attempt. rewrite Ld. reflexivity.
Qed.

Lemma guarded_request w t amt inp a from to amount :
  In (transfer_requested from to amount)
     (fst (send_guarded B w t amt inp a)) ->
  from = address w /\ to = a /\ amount = amt /\ MetaKeep_loaded B = true.
Proof.
  intro HI. split; [|split; [|split]].
  4:{ destruct (MetaKeep_loaded B) eqn:Ld; [reflexivity|].
      rewrite (send_guarded_unloaded w t amt inp a Ld) in HI.
      cbn [In] in HI.
      repeat match goal with
             | X : _ \/ _ |- _ => destruct X as [X | X]
             | X : False |- _ => destruct X
             | X : _ = transfer_requested _ _ _ |- _ => discriminate X
             end. }
  all: destruct (send_guarded_trace B w t amt inp a)
      as [(e & E) | [(e & E) | [(tx & e & E) | [(tx & sg & stx & e & _ & _ & E)
         | [(tx & sg & stx & sig & e & _ & _ & _ & E)
         | (tx & sg & stx & sig & rf & _ & _ & _ & _ & [-> | (b & ->)] & E)]]]]];
      rewrite E in HI; cbn [In app] in HI;
      repeat match goal with
             | X : _ \/ _ |- _ => destruct X as [X | X]
             | X : False |- _ => destruct X
             | X : _ = transfer_requested _ _ _ |- _ =>
                 first [discriminate X | injection X as <- <- <-]
             end; auto.
Qed.

(** The toast of a failure whose message holds none of the gas
    keywords. *)
Lemma failure_toast_plain m :
  lowers_ascii (toLowerCase B) -> is_ascii m = true ->
  existsb (fun keyword => includes keyword (map ascii_lower m))
          insufficientGasKeywords = false ->
  JsString.eqb m (js "INSUFFICIENT_GAS") = false ->
  failure_toast B (VError m) = plain_toast Error (js "Send failed: " ++ m).
Proof.
  intros Lw A K G. unfold failure_toast.
  destruct (MessageFacts.not_gas m Lw A K) as [_ G2].
  now rewrite G, G2.
Qed.

(** A request the transfer route answers with 400. *)
Lemma send_guarded_refused (L' : Ledger) env_mint status_text w t amt inp a :
  MetaKeep_loaded B = true ->
  lowers_ascii (toLowerCase B) ->
  fetch_transfer B (address w) a amt
  = Return (transfer_route L' env_mint status_text (address w) a amt) ->
  Js.status (TokenTransfer.POST L' env_mint
            {| TokenTransfer.from := Some (address w);
               TokenTransfer.to := Some a;
               TokenTransfer.amount_field := Some amt |}) = 400%nat ->
  fst (send_guarded B w t amt inp a)
  = [setIsSending true; setSendDialogOpen false;
     transfer_requested (address w) a amt;
     showToast
       (plain_toast Error
          (js "Send failed: Failed to create token transfer transaction"));
     setIsSending false].
Proof.
  intros Ld Lw F S.
  destruct (MessageFacts.not_gas
              (js "Failed to create token transfer transaction")
              Lw eq_refl eq_refl) as [G1 G2].
  unfold send_guarded, send_attempt, transfer_failed,
    send_failed, failure_toast.
  rewrite Ld, F. unfold transfer_route.
  match goal with
  | |- context [TokenTransfer.POST ?l ?e ?r] =>
      pose proof (RouteFacts.POST_cases l e r) as C;
      cbv zeta in C; change (Js.status (TokenTransfer.POST l e r) = 400%nat) in S
  end.
  destruct C as [C | [C | [C | [(m & C) | (tx & C)]]]];
    rewrite C in S |- *; try discriminate S;
    cbn [fst snd app then_ catch finally emit call
         ret raise negb delivered ok json Js.status body
         json_response_status TokenTransfer.error_body try_catch get
         lookup String.eqb Ascii.eqb Bool.eqb or_else truthy andb
         Nat.leb];
    rewrite G1; cbn [orb isInsufficientGasError new_Error ToString
                     fst snd app then_ catch finally
                     emit call ret raise];
    unfold TokenTransfer.error_body, raise, then_, catch,
      finally, emit;
    cbn [isInsufficientGasError]; cbv beta iota zeta;
    unfold isInsufficientGasError in G2; rewrite G2; reflexivity.
Qed.

(** A refusal of the signer ends the signing step with the denial. *)
Lemma sign_denied wallet_address
    (transaction : Signing.VersionedTransaction (PublicKey L)) signed :
  Signing.reported_status signed = js "USER_REQUEST_DENIED"
  \/ Signing.reported_status signed = js "USER_CONSENT_DENIED" ->
  Signing.sign L wallet_address transaction signed
  = Throw (VError (js "User denied transaction signing")).
Proof.
  intro St. unfold Signing.sign.
  rewrite SigningFacts.check_status_other
    by (destruct St as [-> | ->]; discriminate).
  unfold Signing.status_failure.
  destruct St as [-> | ->]; reflexivity.
Qed.

Lemma send_guarded_denied w t amt inp a transaction why signed :
  In (signTransaction_sent transaction why)
     (fst (send_guarded B w t amt inp a)) ->
  lowers_ascii (toLowerCase B) ->
  signTransaction B transaction why = Return signed ->
  Signing.reported_status signed = js "USER_REQUEST_DENIED"
  \/ Signing.reported_status signed = js "USER_CONSENT_DENIED" ->
  fst (send_guarded B w t amt inp a)
  = [setIsSending true; setSendDialogOpen false;
     transfer_requested (address w) a amt;
     signTransaction_sent transaction why;
     showToast
       (plain_toast Error
          (js "Send failed: User denied transaction signing"));
     setIsSending false].
Proof.
  intros HI Lw Sg St.
  pose proof (failure_toast_plain
                (js "User denied transaction signing") Lw eq_refl eq_refl
                eq_refl) as FT.
  pose proof (fun tx => sign_denied (address w) tx signed St) as SD.
  revert HI.
  unfold send_guarded, send_attempt, transfer_failed, send_failed.
  pose proof (BalanceFacts.never_throws (number_to_string B) (fetch B)
                (address w)) as (bal & Hbal).
  rewrite Hbal.
  repeat (cbn [fst snd app then_ catch finally emit call ret raise negb]
          || match goal with
             | |- context [match ?x with _ => _ end] =>
                 lazymatch x with
                 | context [match _ with _ => _ end] => fail
                 | context [if _ then _ else _] => fail
                 | _ => destruct x eqn:?
                 end
             | |- context [if ?x then _ else _] =>
                 lazymatch x with
                 | context [match _ with _ => _ end] => fail
                 | context [if _ then _ else _] => fail
                 | _ => destruct x eqn:?
                 end
             end).
  all: repeat match goal with u : unit |- _ => destruct u end.
  all: cbn [In app]; intro HI;
    repeat match goal with
           | X : _ \/ _ |- _ => destruct X as [X | X]
           | X : False |- _ => destruct X
           | X : _ = signTransaction_sent _ _ |- _ =>
               first [discriminate X | injection X as ? ?; subst]
           end.
  all: repeat match goal with
              | X : signTransaction B _ _ = _ |- _ =>
                  rewrite Sg in X;
                  first [discriminate X | injection X as <-]
              | X : Signing.sign L _ _ _ = _ |- _ =>
                  rewrite SD in X;
                  first [discriminate X | injection X as <-]
              end.
  all: try (rewrite FT; reflexivity).
Qed.

End Refusals.

End RefusalFacts.

(** X16.  The reason the transfer route gives for a 400 answer never
    reaches the user.  The route puts it under [error] and the page reads
    [message]: whenever a run, after an address or after an email lookup,
    sends a request that the route refuses with status 400, the run is
    the lookup, if there was one, followed by the request and the toast
    "Send failed: Failed to create token transfer transaction"; nothing
    is signed or sent to the ledger. *)
Theorem handleSend_validation_answer (L L' : Ledger) (B : Page.Browser L)
    env_mint status_text (wallet : option Page.WalletData)
    (sendAmount recipientInput from to amount : jsstring) :
  In (Page.transfer_requested from to amount)
     (fst (Page.handleSend B wallet sendAmount recipientInput)) ->
  Page.lowers_ascii (Page.toLowerCase B) ->
  Page.fetch_transfer B from to amount
  = Return (Page.transfer_route L' env_mint status_text from to amount) ->
  status (TokenTransfer.POST L' env_mint
            {| TokenTransfer.from := Some from;
               TokenTransfer.to := Some to;
               TokenTransfer.amount_field := Some amount |}) = 400%nat ->
  exists lookup,
    (lookup = []
     \/ lookup = [Page.setIsFetchingAddress true;
                  Page.getWallet_sent (trim recipientInput);
                  Page.setIsFetchingAddress false])
    /\ Page.handleSend B wallet sendAmount recipientInput
       = (lookup ++
          [Page.setIsSending true; Page.setSendDialogOpen false;
           Page.transfer_requested from to amount;
           Page.showToast
             (Page.plain_toast Page.Error
                (js "Send failed: Failed to create token transfer transaction"));
           Page.setIsSending false], Return tt).
Proof.
  intros H Lw F S.
  destruct (@RefusalFacts.reaches_guarded L B wallet sendAmount
              recipientInput _ H)
    as (lookup & w & t & a & Hl & -> & E & HI); try discriminate.
  destruct (@RefusalFacts.guarded_request L B w t sendAmount recipientInput
              a from to amount HI) as (-> & -> & -> & Ld).
  exists lookup. split; [exact Hl|].
  rewrite (surjective_pairing (Page.handleSend B (Some w) sendAmount
                                               recipientInput)).
  rewrite RefusalFacts.handleSend_returns, E.
  now rewrite (@RefusalFacts.send_guarded_refused L B L' env_mint status_text
                 w t sendAmount recipientInput a Ld Lw F S).
Qed.

Lemma handleSend_validation_answer_witness :
  Page.toasts
    (fst (Page.handleSend SamplePage.approving (Some SamplePage.wallet)
                          (js "-1") (js "bob@example.com")))
  = [Page.plain_toast Page.Error
       (js "Send failed: Failed to create token transfer transaction")].
Proof.
  destruct (@handleSend_validation_answer Sample.devnet Sample.devnet
              SamplePage.approving None (js "Bad Request")
              (Some SamplePage.wallet) (js "-1") (js "bob@example.com")
              Sample.alice Sample.bob (js "-1"))
    as (lookup & [-> | ->] & ->).
  - vm_compute. tauto.
  - intros s _. reflexivity.
  - vm_compute. reflexivity.
  - vm_compute. reflexivity.
  - reflexivity.
  - reflexivity.
Defined.

(** X17.  A refusal in the signer's prompt ends the run after the signing
    request.  Whenever a run, after an address or after an email lookup,
    asks the signer and the answer has status USER_REQUEST_DENIED or
    USER_CONSENT_DENIED, the run is the lookup, if there was one, the
    request, the signing request and the toast "Send failed: User denied
    transaction signing"; nothing is sent to the ledger and the form
    keeps its fields. *)
Theorem handleSend_signer_denied (L : Ledger) (B : Page.Browser L)
    (wallet : option Page.WalletData) (sendAmount recipientInput : jsstring)
    (transaction : Signing.VersionedTransaction (PublicKey L))
    (why : jsstring) (signed : option Signing.MetaKeepSignTxResponse) :
  In (Page.signTransaction_sent transaction why)
     (fst (Page.handleSend B wallet sendAmount recipientInput)) ->
  Page.lowers_ascii (Page.toLowerCase B) ->
  Page.signTransaction B transaction why = Return signed ->
  Signing.reported_status signed = js "USER_REQUEST_DENIED"
  \/ Signing.reported_status signed = js "USER_CONSENT_DENIED" ->
  exists lookup w to,
    wallet = Some w
    /\ (lookup = []
        \/ lookup = [Page.setIsFetchingAddress true;
                     Page.getWallet_sent (trim recipientInput);
                     Page.setIsFetchingAddress false])
    /\ Page.handleSend B wallet sendAmount recipientInput
       = (lookup ++
          [Page.setIsSending true; Page.setSendDialogOpen false;
           Page.transfer_requested (Page.address w) to sendAmount;
           Page.signTransaction_sent transaction why;
           Page.showToast
             (Page.plain_toast Page.Error
                (js "Send failed: User denied transaction signing"));
           Page.setIsSending false], Return tt).
Proof.
  intros H Lw Sg St.
  destruct (@RefusalFacts.reaches_guarded L B wallet sendAmount
              recipientInput _ H)
    as (lookup & w & t & a & Hl & -> & E & HI); try discriminate.
  exists lookup, w, a. split; [reflexivity|]. split; [exact Hl|].
  rewrite (surjective_pairing (Page.handleSend B (Some w) sendAmount
                                               recipientInput)).
  rewrite RefusalFacts.handleSend_returns, E.
  now rewrite (@RefusalFacts.send_guarded_denied L B w t sendAmount
                 recipientInput a transaction why signed HI Lw Sg St).
Qed.

Lemma handleSend_signer_denied_witness :
  Page.toasts
    (fst (Page.handleSend SamplePage.refusing (Some SamplePage.wallet)
                          (js "2.50") (js "bob@example.com")))
  = [Page.plain_toast Page.Error
       (js "Send failed: User denied transaction signing")].
Proof.
  destruct (@handleSend_signer_denied Sample.devnet SamplePage.refusing
              (Some SamplePage.wallet) (js "2.50") (js "bob@example.com")
              (SamplePage.unsigned_with
                 (js "create 9WzDXwBbmkg8ZTbNMqUxvQRAyrZzDsGYdLVL9zYtAWWM paid by 7xKXtg2CW87d97TXJSDpbD5jBkheTqA83TZRuJosgAsU; transfer 2500000; "))
              (js "Send 2.50 USDC to bob@example.com")
              (Some (Sample.response "USER_REQUEST_DENIED" None)))
    as (lookup & w & to & _ & [-> | ->] & ->).
  - vm_compute. tauto.
  - intros s _. reflexivity.
  - reflexivity.
  - left. reflexivity.
  - reflexivity.
  - reflexivity.
Defined.

(* ================================================================== *)
(** * The amount of a built transfer *)
(* ================================================================== *)

Module AmountFacts.
Import TokenTransfer NumberFacts.

(** A Number that passes [isNaN(x) || x <= 0] is a positive finite value
    or plus infinity. *)
Lemma above_zero x :
  isNaN x = false -> leb x zero = false ->
  x = S754_infinity false \/ exists m e, x = S754_finite false m e.
Proof.
  destruct x as [s|s| |s m e]; try discriminate.
  - destruct s; [discriminate|]. now left.
  - destruct s; [discriminate|]. right. now eexists _, _.
Qed.

Lemma ten_pow_6_finite :
  exists m e, ten_pow_6 = S754_finite false m e.
Proof. vm_compute. now eexists _, _. Qed.

Lemma mul_above_zero x :
  isNaN x = false -> leb x zero = false -> signed_as false (mul x ten_pow_6).
Proof.
  intros N P. destruct ten_pow_6_finite as (m6 & e6 & ->).
  destruct (above_zero x N P) as [-> | (m & e & ->)]; [reflexivity|].
  unfold mul, SFmul. apply binary_round_aux_signed. easy.
Qed.

Lemma floor_signed x : signed_as false x -> signed_as false (floor x).
Proof.
  destruct x as [s|s| |s m e]; trivial.
  intros ->. unfold floor. destruct (0 <=? e)%Z; [reflexivity|].
  cbn [cond_Zopp].
  pose proof (Z.shiftr_nonneg (Zpos m) (- e)) as H.
  destruct (Z.shiftr (Zpos m) (- e)) as [|q|q]; [reflexivity| |].
  - apply binary_round_signed.
  - exfalso. assert (0 <= Z.neg q)%Z by (apply H; easy). lia.
Qed.

Lemma to_integer_signed x units :
  signed_as false x -> to_integer x = Some units -> (0 <= units)%Z.
Proof.
  destruct x as [s|s| |s m e]; try discriminate.
  - intros _ E. injection E as <-. lia.
  - intros ->. unfold to_integer. cbn [cond_Zopp].
    destruct (0 <=? e)%Z eqn:Ee.
    + intro E. apply Z.leb_le in Ee.
      assert (U : units = (Z.pos m * 2 ^ e)%Z) by congruence.
      rewrite U. apply Z.mul_nonneg_nonneg; [easy|]. now apply Z.pow_nonneg.
    + destruct (_ =? 0)%Z; [|discriminate].
      intro E. apply Z.leb_gt in Ee.
      assert (U : units = (Z.pos m / 2 ^ (- e))%Z) by congruence.
      rewrite U. apply Z.div_pos; [easy|]. apply Z.pow_pos_nonneg; lia.
Qed.

(** The answers with status 400, and what brings each about. *)
Lemma POST_400_inv (L : Ledger) env_mint request :
  status (POST L env_mint request) = 400%nat ->
  present (from request) && present (to request)
  && present (amount_field request) = false
  \/ (exists e, newPublicKey L (field (from request)) = Throw e)
  \/ (exists e, newPublicKey L (field (to request)) = Throw e)
  \/ isNaN (parseFloat (field (amount_field request)))
     || leb (parseFloat (field (amount_field request))) zero = true.
Proof.
  unfold POST, bind.
  destruct (present (from request)); [|now left].
  destruct (present (to request)); [|now left].
  destruct (present (amount_field request)); [|now left].
  cbn [negb orb andb].
  destruct (newPublicKey L (field (from request))) as [fpk|e];
    [|intros _; right; left; now exists e].
  destruct (newPublicKey L (field (to request))) as [tpk|e];
    [|intros _; right; right; left; now exists e].
  cbv beta iota zeta.
  destruct (isNaN _ || leb _ zero); [intros _; now do 3 right|].
  rewrite TransferFacts.USDC_MINT_ADDRESS_present. cbn [negb]. cbv iota.
  destruct (newPublicKey L (USDC_MINT_ADDRESS env_mint)) as [mint|];
    [|discriminate].
  destruct (getAssociatedTokenAddress L mint fpk) as [src|];
    [|discriminate].
  destruct (getAssociatedTokenAddress L mint tpk) as [dst|];
    [|discriminate].
  destruct (build_instructions L fpk tpk mint src dst _); [|discriminate].
  destruct (getLatestBlockhash L) as [bh|]; [|discriminate].
  destruct (serializeTransaction L fpk bh _) as [tx|]; discriminate.
Qed.

End AmountFacts.

(** X18.  The route never hands a negative amount to the transfer
    instruction: in every 200 answer [Math.floor(amountNum * 10 ** 6)] is
    a whole number of units that is zero or more.  When that number is
    below [2 ^ 64], so that the instruction's u64 field holds it as it is,
    the transaction is serialized from the instruction sequence whose
    transfer carries these units. *)
Theorem POST_units_non_negative (L : Ledger) env_mint request :
  status (TokenTransfer.POST L env_mint request) = 200%nat ->
  exists units,
    to_integer (TokenTransfer.transferAmount
                  (parseFloat (field (TokenTransfer.amount_field request))))
    = Some units
    /\ (0 <= units)%Z
    /\ ((units < 2 ^ 64)%Z ->
        exists fromPublicKey toPublicKey usdcMint fromTokenAccount
               toTokenAccount blockhash tx,
          serializeTransaction L fromPublicKey blockhash
            (Spec.instruction_sequence L fromPublicKey toPublicKey usdcMint
               fromTokenAccount toTokenAccount units) = Return tx
          /\ get "transaction" (body (TokenTransfer.POST L env_mint request))
             = Return (VString tx)).
Proof.
  intro S.
  destruct (TransferFacts.POST_success_inv L env_mint request S)
    as (fpk & tpk & mint & src & dst & units & bh & tx
        & _ & _ & _ & _ & _ & EN & EL & EU & _ & ES & EP).
  exists units. split; [exact EU|]. split.
  - eapply AmountFacts.to_integer_signed; [|exact EU].
    apply AmountFacts.floor_signed, AmountFacts.mul_above_zero; assumption.
  - intros _. exists fpk, tpk, mint, src, dst, bh, tx.
    split; [exact ES | now rewrite EP].
Qed.

Lemma POST_units_non_negative_witness :
  exists units,
    to_integer (TokenTransfer.transferAmount (parseFloat (js "2.50")))
    = Some units
    /\ (0 <= units)%Z.
Proof.
  destruct (POST_units_non_negative Sample.devnet None
              (Sample.request "2.50") eq_refl)
    as (units & H0 & H1 & _).
  exists units. split; assumption.
Defined.

(** X19.  An amount that reads as Infinity passes the amount check and
    fails in the build: with both addresses valid the answer is 500 with
    the error "Failed to create transfer transaction", never 400 and
    never a transaction. *)
Theorem POST_infinite_amount (L : Ledger) env_mint request
    fromPublicKey toPublicKey :
  present (TokenTransfer.from request) = true ->
  present (TokenTransfer.to request) = true ->
  present (TokenTransfer.amount_field request) = true ->
  newPublicKey L (field (TokenTransfer.from request)) = Return fromPublicKey ->
  newPublicKey L (field (TokenTransfer.to request)) = Return toPublicKey ->
  parseFloat (field (TokenTransfer.amount_field request))
  = S754_infinity false ->
  status (TokenTransfer.POST L env_mint request) = 500%nat
  /\ get "error" (body (TokenTransfer.POST L env_mint request))
     = Return (VString (js "Failed to create transfer transaction"))
  /\ get "transaction" (body (TokenTransfer.POST L env_mint request))
     = Return VUndefined.
Proof.
  intros Pf Pt Pa Ef Et EI.
  pose proof (RouteFacts.POST_cases L env_mint request) as C.
  pose proof (AmountFacts.POST_400_inv L env_mint request) as B.
  pose proof (TransferFacts.POST_success_inv L env_mint request) as G.
  cbv zeta in C. rewrite Pf, Pt, Pa, Ef, Et, EI in B.
  destruct C as [C | [C | [C | [(m & C) | (tx & C)]]]]; rewrite C in *.
  1-3: destruct (B eq_refl) as [H | [(e & H) | [(e & H) | H]]];
    discriminate H.
  - repeat split; reflexivity.
  - destruct (G eq_refl)
      as (_ & _ & _ & _ & _ & u & _ & _ & _ & _ & _ & _ & _ & _ & _ & EU & _).
    rewrite EI in EU. discriminate EU.
Qed.

Lemma POST_infinite_amount_witness :
  status (TokenTransfer.POST Sample.devnet None (Sample.request "1e400"))
  = 500%nat.
Proof.
  refine (proj1 (@POST_infinite_amount Sample.devnet None
                   (Sample.request "1e400") Sample.alice Sample.bob
                   _ _ _ _ _ _)); vm_compute; reflexivity.
Defined.

(* ================================================================== *)
(** * The recipient as typed, pasted or scanned *)
(* ================================================================== *)

Module RecipientFacts.
Import Page.

Lemma detectInputType_trim x y :
  trim x = trim y -> detectInputType x = detectInputType y.
Proof.
  intro E. rewrite !ClassificationFacts.detectInputType_unfold.
  now rewrite E.
Qed.

(** [handleSend] reads the recipient through [trim] alone, once it is
    there. *)
Lemma handleSend_trim (L : Ledger) (B : Browser L) wallet amt x y :
  trim x = trim y -> x <> [] -> y <> [] ->
  handleSend B wallet amt x = handleSend B wallet amt y.
Proof.
  intros E Nx Ny. unfold handleSend.
  destruct wallet as [w|]; [|reflexivity].
  destruct amt as [|a amt]; [reflexivity|].
  destruct x as [|cx x]; [congruence|].
  destruct y as [|cy y]; [congruence|].
  cbv zeta. rewrite (detectInputType_trim _ _ E).
  unfold resolve_recipient, send_guarded, send_attempt, reason.
  now rewrite E.
Qed.

Lemma trim_nonempty x : trim x <> [] -> x <> [].
Proof. intros H ->. now apply H. Qed.

End RecipientFacts.

(** X20.  White space around the recipient changes nothing in a send:
    for an input that is not blank, the run of [handleSend] on the padded
    input is the run on the input itself, event for event. *)
Theorem handleSend_padding (L : Ledger) (B : Page.Browser L)
    (wallet : option Page.WalletData)
    (sendAmount a recipientInput b : jsstring) :
  forallb is_white_space a = true ->
  forallb is_white_space b = true ->
  trim recipientInput <> [] ->
  Page.handleSend B wallet sendAmount (a ++ recipientInput ++ b)
  = Page.handleSend B wallet sendAmount recipientInput.
Proof.
  intros Ha Hb N.
  assert (E : trim (a ++ recipientInput ++ b) = trim recipientInput)
    by now apply StringFacts.trim_padding.
  apply RecipientFacts.handleSend_trim; [exact E | |].
  - apply RecipientFacts.trim_nonempty. now rewrite E.
  - now apply RecipientFacts.trim_nonempty.
Qed.

Lemma handleSend_padding_witness :
  Page.handleSend SamplePage.approving (Some SamplePage.wallet) (js "2.50")
                  (js "  " ++ Sample.bob ++ js " ")
  = Page.handleSend SamplePage.approving (Some SamplePage.wallet) (js "2.50")
                    Sample.bob.
Proof.
  apply (@handleSend_padding Sample.devnet SamplePage.approving
           (Some SamplePage.wallet) (js "2.50") (js "  ") Sample.bob
           (js " ")).
  - reflexivity.
  - reflexivity.
  - vm_compute. discriminate.
Defined.

(** X21.  An address entered by hand in the scanner reaches the send form
    trimmed: when the Use button is enabled, a submit calls [onScan] once,
    the page puts the trimmed text in the recipient field and closes the
    scanner's dialog, the text field is cleared, and a send from there
    runs as it would on the text as entered. *)
Theorem handleManualSubmit_recipient (L : Ledger) (B : Page.Browser L)
    (wallet : option Page.WalletData) (h : QrScanner.Host) :
  QrScanner.use_disabled (QrScanner.manualAddress h) = false ->
  let h' := QrScanner.submit h in
  QrScanner.handleManualSubmit (QrScanner.manualAddress h)
  = [QrScanner.onScan (trim (QrScanner.manualAddress h));
     QrScanner.setManualAddress []]
  /\ Page.recipientInput (QrScanner.ui h') = trim (QrScanner.manualAddress h)
  /\ Page.recipientInput (QrScanner.ui h') <> []
  /\ QrScanner.qrScanAddressDialogOpen h' = false
  /\ QrScanner.manualAddress h' = []
  /\ Page.handleSend B wallet (Page.sendAmount (QrScanner.ui h'))
                     (Page.recipientInput (QrScanner.ui h'))
     = Page.handleSend B wallet (Page.sendAmount (QrScanner.ui h))
                       (QrScanner.manualAddress h).
Proof.
  intros E h'. subst h'.
  unfold QrScanner.submit, QrScanner.handleManualSubmit,
    QrScanner.use_disabled in *.
  destruct (trim (QrScanner.manualAddress h)) as [|c t] eqn:T;
    [discriminate|].
  cbn [fold_left QrScanner.perform QrScanner.handleQRCodeScan QrScanner.ui
       QrScanner.qrScanAddressDialogOpen QrScanner.manualAddress
       Page.recipientInput Page.sendAmount].
  repeat split; try easy.
  rewrite <- T. apply RecipientFacts.handleSend_trim.
  - apply TrimFacts.trim_idem.
  - rewrite T. discriminate.
  - apply RecipientFacts.trim_nonempty. rewrite T. discriminate.
Qed.

Lemma handleManualSubmit_recipient_witness :
  Page.recipientInput (QrScanner.ui (QrScanner.submit SampleScan.host))
  = Sample.bob.
Proof.
  rewrite (proj1 (proj2 (@handleManualSubmit_recipient Sample.devnet
                           SamplePage.approving (Some SamplePage.wallet)
                           SampleScan.host eq_refl))).
  reflexivity.
Defined.

(* ================================================================== *)
(** * The environment file of the deployment *)
(* ================================================================== *)

Module DeployFacts.
Import Deploy.

Lemma plain_app u v : plain (u ++ v) = plain u && plain v.
Proof. apply forallb_app. Qed.

(** Without a [$] the replacement is the template. *)
Lemma GetSubstitution_plain matched before after template :
  plain template = true ->
  GetSubstitution matched before after template = template.
Proof.
  induction template as [|c r IH]; [reflexivity|].
  cbn [plain forallb]. intro H.
  apply andb_prop in H as [Hc Hr]. apply andb_prop in Hc as [Hc _].
  cbn [GetSubstitution].
  destruct (N.eqb c (cu "$")); [discriminate|].
  f_equal. now apply IH.
Qed.

Lemma replace_from_before key template front s :
  plain template = true ->
  replace_from key template front s = front ++ replace key template s.
Proof.
  intro P. unfold replace. revert front.
  induction s as [|c r IH]; intro front.
  - destruct key as [|k key]; cbn [replace_from startsWith].
    + cbn [length skipn match_dot_star].
      now rewrite !GetSubstitution_plain.
    + now rewrite app_nil_r.
  - cbn [replace_from]. destruct (startsWith key (c :: r)).
    + destruct (match_dot_star _) as [line after].
      now rewrite !GetSubstitution_plain.
    + cbn [app]. rewrite (IH (front ++ [c])), (IH [c]).
      now rewrite <- app_assoc.
Qed.

Lemma replace_hit key template s :
  plain template = true -> startsWith key s = true ->
  replace key template s
  = template ++ snd (match_dot_star (skipn (length key) s)).
Proof.
  intros P H. unfold replace.
  destruct s as [|c r]; cbn [replace_from]; rewrite H;
    destruct (match_dot_star _) as [line after];
    now rewrite GetSubstitution_plain.
Qed.

Lemma replace_miss key template c r :
  plain template = true -> startsWith key (c :: r) = false ->
  replace key template (c :: r) = c :: replace key template r.
Proof.
  intros P H. unfold replace at 1. cbn [replace_from]. rewrite H.
  now rewrite replace_from_before.
Qed.

Lemma replace_nil key template :
  startsWith key [] = false -> replace key template [] = [].
Proof. intro H. unfold replace. cbn [replace_from]. now rewrite H. Qed.

(** What [.*] leaves is empty or starts with a line terminator. *)
Lemma match_dot_star_rest s : line_end (snd (match_dot_star s)).
Proof.
  induction s as [|c r IH]; [now left|].
  cbn [match_dot_star]. destruct (is_line_terminator c) eqn:T.
  - right. now exists c, r.
  - destruct (match_dot_star r). exact IH.
Qed.

Lemma match_dot_star_line v rest :
  plain v = true -> line_end rest -> match_dot_star (v ++ rest) = (v, rest).
Proof.
  intros P E. induction v as [|c v IH].
  - destruct E as [-> | (t & r & -> & T)]; [reflexivity|].
    cbn [app match_dot_star]. now rewrite T.
  - cbn [plain forallb] in P. apply andb_prop in P as [Pc Pv].
    apply andb_prop in Pc as [_ Pc]. apply negb_true_iff in Pc.
    cbn [app match_dot_star]. rewrite Pc. now rewrite (IH Pv).
Qed.

Lemma match_dot_star_split s :
  s = fst (match_dot_star s) ++ snd (match_dot_star s)
  /\ forallb (fun c => negb (is_line_terminator c))
             (fst (match_dot_star s)) = true.
Proof.
  induction s as [|c r [IH1 IH2]]; [now split|].
  cbn [match_dot_star]. destruct (is_line_terminator c) eqn:T.
  - now split.
  - destruct (match_dot_star r) as [line rest]. cbn [fst snd] in *.
    split; [now rewrite IH1 at 1|]. cbn [forallb]. now rewrite T.
Qed.

Lemma startsWith_app key rest : startsWith key (key ++ rest) = true.
Proof. apply StringFacts.startsWith_iff. now exists rest. Qed.

Lemma skipn_key (key rest : jsstring) : skipn (length key) (key ++ rest) = rest.
Proof. induction key; [reflexivity | assumption]. Qed.

(** [startsWith] looks at the first code units only. *)
Lemma startsWith_firstn key : forall s s',
  firstn (length key) s = firstn (length key) s' ->
  startsWith key s = startsWith key s'.
Proof.
  induction key as [|k key IH]; intros s s' E; [reflexivity|].
  destruct s as [|a s], s' as [|a' s']; cbn [length firstn] in E;
    try discriminate; [reflexivity|].
  injection E as -> E. cbn [startsWith]. now rewrite (IH _ _ E).
Qed.

(** A replacement of the assignment keeps the text up to and including
    the key. *)
Lemma replace_firstn key v : forall s n,
  plain (key ++ v) = true -> (n <= length key)%nat ->
  firstn n (replace key (key ++ v) s) = firstn n s.
Proof.
  induction s as [|c r IH]; intros n P Hn.
  - destruct (startsWith key []) eqn:H.
    + destruct key; [|discriminate]. now destruct n; [|cbn in Hn; lia].
    + now rewrite replace_nil.
  - destruct (startsWith key (c :: r)) eqn:H.
    + rewrite (@replace_hit _ _ _ P H).
      apply StringFacts.startsWith_iff in H as [rest E]. rewrite E.
      rewrite <- !app_assoc.
      now rewrite !firstn_app, !(proj2 (Nat.sub_0_le _ _) Hn), !firstn_O.
    + rewrite (@replace_miss _ _ _ _ P H). destruct n; [reflexivity|].
      cbn [firstn]. f_equal. apply IH; [exact P | lia].
Qed.

Lemma replace_idempotent key v s :
  plain (key ++ v) = true -> key <> [] ->
  replace key (key ++ v) (replace key (key ++ v) s)
  = replace key (key ++ v) s.
Proof.
  intros P K. assert (Pv : plain v = true).
  { rewrite plain_app in P. now apply andb_prop in P. }
  assert (N0 : startsWith key [] = false) by now destruct key.
  induction s as [|c r IH].
  - now rewrite !replace_nil.
  - destruct (startsWith key (c :: r)) eqn:H.
    + rewrite (@replace_hit _ _ _ P H). rewrite <- app_assoc.
      rewrite (@replace_hit _ _ _ P (startsWith_app _ _)).
      rewrite skipn_key, match_dot_star_line;
        [now rewrite <- app_assoc | exact Pv | apply match_dot_star_rest].
    + rewrite (@replace_miss _ _ _ _ P H).
      rewrite replace_miss; [now rewrite IH | exact P |].
      rewrite <- H. apply startsWith_firstn.
      destruct key as [|k key]; [congruence|].
      cbn [length firstn]. f_equal. apply replace_firstn; [exact P|].
      cbn [length]. lia.
Qed.

Lemma includes_cons needle c s :
  includes needle s = true -> includes needle (c :: s) = true.
Proof. intro H. cbn [includes]. rewrite H. apply orb_true_r. Qed.

Lemma includes_replace key v s :
  plain (key ++ v) = true -> includes key s = true ->
  includes key (replace key (key ++ v) s) = true.
Proof.
  intros P. induction s as [|c r IH]; intro I.
  - cbn [includes] in I. rewrite orb_false_r in I.
    rewrite (@replace_hit _ _ _ P I). rewrite <- app_assoc.
    apply StringFacts.includes_iff. now exists [], (v ++ snd (match_dot_star (skipn (length key) []))).
  - destruct (startsWith key (c :: r)) eqn:H.
    + rewrite (@replace_hit _ _ _ P H). rewrite <- app_assoc.
      apply StringFacts.includes_iff.
      now exists [], (v ++ snd (match_dot_star (skipn (length key) (c :: r)))).
    + rewrite (@replace_miss _ _ _ _ P H). apply includes_cons, IH.
      cbn [includes] in I. now rewrite H in I.
Qed.

(** ** The first occurrence, for a key that ends in a character it does
    not hold elsewhere *)

Lemma startsWith_beyond : forall k u z,
  startsWith k u = false -> startsWith k (u ++ z) = true ->
  exists k2, k2 <> [] /\ k = u ++ k2 /\ startsWith k2 z = true.
Proof.
  induction k as [|a k IH]; intros u z F T; [discriminate|].
  destruct u as [|b u].
  - exists (a :: k). now repeat split.
  - cbn [app startsWith] in *. apply andb_prop in T as [E T].
    rewrite E in F. cbn [andb] in F. apply N.eqb_eq in E. subst b.
    destruct (IH u z F T) as (k2 & N & -> & S). now exists k2.
Qed.

Lemma startsWith_inside : forall b2 body e z,
  startsWith (b2 ++ [e]) (body ++ z) = true ->
  (length b2 < length body)%nat -> In e body.
Proof.
  induction b2 as [|y b2 IH]; intros body e z S Hl;
    (destruct body as [|x body]; [cbn in Hl; lia|]);
    cbn [app startsWith] in S; apply andb_prop in S as [E S].
  - apply N.eqb_eq in E. now left.
  - right. apply (IH _ _ _ S). cbn in Hl. lia.
Qed.

Lemma startsWith_straddle body e u rest :
  ~ In e body -> u <> [] ->
  startsWith (body ++ [e]) u = false ->
  startsWith (body ++ [e]) (u ++ (body ++ [e]) ++ rest) = false.
Proof.
  intros NI NU F.
  destruct (startsWith (body ++ [e]) (u ++ (body ++ [e]) ++ rest)) eqn:T;
    [|reflexivity].
  exfalso. destruct (@startsWith_beyond _ _ _ F T) as (k2 & N & E & S).
  destruct (exists_last N) as (b2 & l & ->).
  rewrite app_assoc in E. apply app_inj_tail in E as [-> <-].
  rewrite <- app_assoc in S. apply NI.
  assert (Hl : (length b2 < length (u ++ b2))%nat).
  { rewrite length_app. destruct u; [congruence | cbn; lia]. }
  exact (@startsWith_inside b2 (u ++ b2) e ([e] ++ rest) S Hl).
Qed.

(** Text without the key in front of an assignment is passed over. *)
Lemma replace_after body e t pre rest :
  plain t = true -> ~ In e body ->
  includes (body ++ [e]) pre = false ->
  replace (body ++ [e]) t (pre ++ (body ++ [e]) ++ rest)
  = pre ++ replace (body ++ [e]) t ((body ++ [e]) ++ rest).
Proof.
  intros P NI. induction pre as [|c pre IH]; intro I; [reflexivity|].
  cbn [includes] in I. apply orb_false_elim in I as [F I].
  cbn [app]. rewrite replace_miss; [now rewrite IH | exact P |].
  now apply (@startsWith_straddle body e (c :: pre) rest NI).
Qed.

(** An assignment already in place is left as it is. *)
Lemma replace_fixed body e v pre rest :
  plain ((body ++ [e]) ++ v) = true -> ~ In e body ->
  includes (body ++ [e]) pre = false -> line_end rest ->
  replace (body ++ [e]) ((body ++ [e]) ++ v)
          (pre ++ (body ++ [e]) ++ v ++ rest)
  = pre ++ (body ++ [e]) ++ v ++ rest.
Proof.
  intros P NI I E.
  assert (Pv : plain v = true).
  { rewrite plain_app in P. now apply andb_prop in P. }
  rewrite (@replace_after body e _ pre (v ++ rest) P NI I).
  rewrite (@replace_hit _ _ _ P (startsWith_app _ _)).
  rewrite skipn_key, (@match_dot_star_line _ _ Pv E).
  now rewrite <- app_assoc.
Qed.

Lemma includes_own key rest pre :
  includes key (pre ++ key ++ rest) = true.
Proof. apply StringFacts.includes_iff. now exists pre, rest. Qed.

(** Adding a character the key does not hold brings no occurrence. *)
Lemma includes_snoc key c t :
  key <> [] -> ~ In t key ->
  includes key c = false -> includes key (c ++ [t]) = false.
Proof.
  intros K NI. induction c as [|a c IH]; intro I.
  - destruct key as [|k key]; [congruence|].
    cbn [app includes startsWith]. rewrite !orb_false_r.
    destruct (N.eqb k t) eqn:E; [|reflexivity].
    apply N.eqb_eq in E. subst. exfalso. apply NI. now left.
  - cbn [includes] in I. apply orb_false_elim in I as [F I].
    cbn [app includes]. rewrite (IH I), orb_false_r.
    destruct (startsWith key (a :: c ++ [t])) eqn:T; [|reflexivity].
    exfalso. change (a :: c ++ [t]) with ((a :: c) ++ [t]) in T.
    destruct (@startsWith_beyond _ _ _ F T) as (k2 & N & E & S).
    destruct k2 as [|x k2]; [congruence|].
    cbn [startsWith] in S. apply andb_prop in S as [S _].
    apply N.eqb_eq in S. subst x. apply NI. rewrite E.
    apply in_or_app. right. now left.
Qed.

(** The two keys of the script. *)
Lemma MINT_split :
  MINT_ASSIGNMENT = js "NEXT_PUBLIC_USDC_MINT_ADDRESS" ++ [cu "="].
Proof. reflexivity. Qed.

Lemma KEY_split :
  KEY_ASSIGNMENT = js "SOLANA_DEPLOYER_PRIVATE_KEY" ++ [cu "="].
Proof. reflexivity. Qed.

Lemma not_in_by_eqb (x : N) l : existsb (N.eqb x) l = false -> ~ In x l.
Proof.
  intros H I. assert (T : existsb (N.eqb x) l = true).
  { apply existsb_exists. exists x. split; [exact I | apply N.eqb_refl]. }
  congruence.
Qed.

(** Base58 text is plain. *)
Lemma base58_plain mint :
  Forall (fun c => In c Spec.base58_alphabet) mint -> plain mint = true.
Proof.
  intro F. apply forallb_forall. intros c I.
  rewrite Forall_forall in F. specialize (F c I).
  assert (A : forallb (fun c => negb (N.eqb c (cu "$"))
                                && negb (is_line_terminator c))
                      Spec.base58_alphabet = true) by (vm_compute; reflexivity).
  rewrite forallb_forall in A. now apply A.
Qed.

(** Digits and commas are plain. *)
Lemma digit_plain d : (d < 10)%N -> plain [digit d] = true.
Proof.
  intro H. unfold plain, digit, is_line_terminator. cbn [forallb].
  change (cu "$") with 36%N.
  repeat match goal with
         | |- context [N.eqb ?a ?b] =>
             replace (N.eqb a b) with false by (symmetry; apply N.eqb_neq; lia)
         end.
  reflexivity.
Qed.

Lemma byte_to_string_plain b :
  (b < 1000)%N -> plain (byte_to_string b) = true.
Proof.
  intro H. unfold byte_to_string.
  destruct (N.ltb_spec b 10); [now apply digit_plain|].
  destruct (N.ltb_spec b 100).
  - change (plain ([digit (b / 10)] ++ [digit (b mod 10)]) = true).
    rewrite plain_app, !digit_plain; trivial.
    + apply N.mod_lt. lia.
    + apply N.Div0.div_lt_upper_bound. lia.
  - change (plain ([digit (b / 100)] ++ [digit (b / 10 mod 10)]
                   ++ [digit (b mod 10)]) = true).
    rewrite !plain_app, !digit_plain; trivial.
    + apply N.mod_lt. lia.
    + apply N.mod_lt. lia.
    + apply N.Div0.div_lt_upper_bound. lia.
Qed.

Lemma privateKeyArray_plain secretKey :
  Forall (fun b => (b < 256)%N) secretKey ->
  plain (privateKeyArray secretKey) = true.
Proof.
  unfold privateKeyArray. induction 1 as [|b l Hb Hl IH]; [reflexivity|].
  cbn [map join]. destruct (map byte_to_string l) as [|p rest] eqn:E.
  - apply byte_to_string_plain. lia.
  - rewrite !plain_app, byte_to_string_plain by lia.
    cbn [andb]. rewrite IH. reflexivity.
Qed.

(** The first assignment of the key and what becomes of it. *)
Lemma replace_first key v : forall s,
  plain (key ++ v) = true -> key <> [] -> includes key s = true ->
  exists pre old post,
    s = pre ++ key ++ old ++ post
    /\ (forall i, (i < length pre)%nat -> startsWith key (skipn i s) = false)
    /\ forallb (fun c => negb (is_line_terminator c)) old = true
    /\ line_end post
    /\ replace key (key ++ v) s = pre ++ key ++ v ++ post.
Proof.
  intros s P K. induction s as [|c r IH]; intro I.
  - destruct key; [congruence | discriminate I].
  - destruct (startsWith key (c :: r)) eqn:H.
    + rewrite (@replace_hit _ _ _ P H).
      apply StringFacts.startsWith_iff in H as [rest ->].
      rewrite skipn_key.
      destruct (match_dot_star_split rest) as [E F].
      exists [], (fst (match_dot_star rest)), (snd (match_dot_star rest)).
      split; [now rewrite <- E|]. split; [cbn; intros; lia|].
      split; [exact F|]. split; [apply match_dot_star_rest|].
      now rewrite <- app_assoc.
    + cbn [includes] in I. rewrite H in I. cbn [orb] in I.
      destruct (IH I) as (pre & old & post & E & Fst & O & Le & R).
      exists (c :: pre), old, post.
      split; [cbn [app]; now rewrite <- E|].
      split; [|split; [exact O | split; [exact Le|]]].
      * intros [|i] Hi; [exact H|]. cbn [skipn]. apply Fst.
        cbn [length] in Hi. lia.
      * rewrite (@replace_miss _ _ _ _ P H). now rewrite R.
Qed.

(** ** Where the key can occur *)

Lemma startsWith_more key u z :
  startsWith key u = true -> startsWith key (u ++ z) = true.
Proof.
  intro H. apply StringFacts.startsWith_iff in H as [r ->].
  rewrite <- app_assoc. apply startsWith_app.
Qed.

(** A character the key does not hold cuts the search in two. *)
Lemma includes_separated key t : forall u w,
  key <> [] -> ~ In t key ->
  includes key (u ++ t :: w) = includes key u || includes key w.
Proof.
  intros u w K NI. induction u as [|a u IH].
  - destruct key as [|k key]; [congruence|].
    cbn [app includes startsWith].
    destruct (N.eqb k t) eqn:E; [|reflexivity].
    apply N.eqb_eq in E. subst. exfalso. apply NI. now left.
  - cbn [app includes]. rewrite IH, orb_assoc. f_equal. f_equal.
    destruct (startsWith key (a :: u)) eqn:F.
    + exact (@startsWith_more key (a :: u) (t :: w) F).
    + destruct (startsWith key (a :: u ++ t :: w)) eqn:T; [|reflexivity].
      exfalso. change (a :: u ++ t :: w) with ((a :: u) ++ t :: w) in T.
      destruct (@startsWith_beyond _ _ _ F T) as (k2 & N & E & S).
      destruct k2 as [|x k2]; [congruence|].
      cbn [startsWith] in S. apply andb_prop in S as [S _].
      apply N.eqb_eq in S. subst x. apply NI. rewrite E.
      apply in_or_app. right. now left.
Qed.

(** Text without the key's last character brings no occurrence. *)
Lemma includes_without_end body e m : forall w,
  ~ In e m ->
  includes (body ++ [e]) (w ++ m) = includes (body ++ [e]) w.
Proof.
  intros w NI.
  assert (Sm : forall k2 z, k2 <> [] -> startsWith (k2 ++ [e]) z = true ->
                            In e z).
  { intros k2 z _ S. apply StringFacts.startsWith_iff in S as [r ->].
    rewrite <- app_assoc. apply in_or_app. right. now left. }
  assert (Se : forall k z, startsWith (k ++ [e]) z = true -> In e z).
  { intros k z S. apply StringFacts.startsWith_iff in S as [r ->].
    rewrite <- app_assoc. apply in_or_app. right. now left. }
  clear Sm.
  assert (M : includes (body ++ [e]) m = false).
  { destruct (includes (body ++ [e]) m) eqn:I; [|reflexivity].
    exfalso. apply StringFacts.includes_iff in I as (p & q & ->).
    apply NI. apply in_or_app. right.
    apply in_or_app. left. apply in_or_app. right. now left. }
  induction w as [|a w IH].
  - cbn [app]. rewrite M. destruct body; reflexivity.
  - cbn [app includes]. rewrite IH. f_equal.
    destruct (startsWith (body ++ [e]) (a :: w)) eqn:F.
    + exact (@startsWith_more (body ++ [e]) (a :: w) m F).
    + destruct (startsWith (body ++ [e]) (a :: w ++ m)) eqn:T; [|reflexivity].
      exfalso. change (a :: w ++ m) with ((a :: w) ++ m) in T.
      destruct (@startsWith_beyond _ _ _ F T) as (k2 & N & E & S).
      destruct (exists_last N) as (b2 & l & ->).
      rewrite app_assoc in E. apply app_inj_tail in E as [_ <-].
      apply NI. exact (Se _ _ S).
Qed.

Lemma base58_no_equals mint :
  Forall (fun c => In c Spec.base58_alphabet) mint -> ~ In (cu "=") mint.
Proof.
  intros F I. rewrite Forall_forall in F. specialize (F _ I).
  revert F. apply not_in_by_eqb. vm_compute. reflexivity.
Qed.

Lemma base58_by_test mint :
  forallb (fun c => existsb (N.eqb c) Spec.base58_alphabet) mint = true ->
  Forall (fun c => In c Spec.base58_alphabet) mint.
Proof.
  intro H. apply Forall_forall. intros c I.
  rewrite forallb_forall in H. specialize (H c I).
  apply existsb_exists in H as (x & Ix & E).
  apply N.eqb_eq in E. now subst.
Qed.

Lemma MINT_plain mint :
  Forall (fun c => In c Spec.base58_alphabet) mint ->
  plain (MINT_ASSIGNMENT ++ mint) = true.
Proof. intro F. now rewrite plain_app, (base58_plain F). Qed.

Lemma KEY_plain secretKey :
  Forall (fun b => (b < 256)%N) secretKey ->
  plain (KEY_ASSIGNMENT ++ privateKeyArray secretKey) = true.
Proof. intro F. now rewrite plain_app, (privateKeyArray_plain F). Qed.

Lemma newline_end rest : line_end (newline ++ rest).
Proof. right. now exists 10%N, rest. Qed.

Lemma set_mint_address_twice mint envContent :
  Forall (fun c => In c Spec.base58_alphabet) mint ->
  set_mint_address mint (set_mint_address mint envContent)
  = set_mint_address mint envContent.
Proof.
  intro F. pose proof (MINT_plain F) as P.
  assert (NE : ~ In (cu "=") (js "NEXT_PUBLIC_USDC_MINT_ADDRESS"))
    by (apply not_in_by_eqb; vm_compute; reflexivity).
  assert (NN : ~ In 10%N MINT_ASSIGNMENT)
    by (apply not_in_by_eqb; vm_compute; reflexivity).
  unfold set_mint_address at 2 3.
  destruct (includes MINT_ASSIGNMENT envContent) eqn:I.
  - unfold set_mint_address. rewrite (includes_replace _ _ _ P I).
    apply replace_idempotent; [exact P | discriminate].
  - unfold set_mint_address.
    replace (envContent ++ newline ++ MINT_ASSIGNMENT ++ mint ++ newline)
      with ((envContent ++ newline) ++ MINT_ASSIGNMENT ++ mint ++ newline)
      by now rewrite <- app_assoc.
    rewrite includes_own.
    rewrite MINT_split in *.
    apply (@replace_fixed _ _ mint (envContent ++ newline) newline P NE).
    + apply includes_snoc; [discriminate | exact NN | exact I].
    + rewrite <- (app_nil_r newline). apply newline_end.
Qed.

Lemma set_deployer_key_twice secretKey envContent :
  Forall (fun b => (b < 256)%N) secretKey ->
  set_deployer_key (privateKeyArray secretKey)
    (set_deployer_key (privateKeyArray secretKey) envContent)
  = set_deployer_key (privateKeyArray secretKey) envContent.
Proof.
  intro F. pose proof (KEY_plain F) as P.
  assert (NE : ~ In (cu "=") (js "SOLANA_DEPLOYER_PRIVATE_KEY"))
    by (apply not_in_by_eqb; vm_compute; reflexivity).
  unfold set_deployer_key at 2 3.
  destruct (includes KEY_ASSIGNMENT envContent) eqn:I.
  - unfold set_deployer_key. rewrite (includes_replace _ _ _ P I).
    apply replace_idempotent; [exact P | discriminate].
  - unfold set_deployer_key. rewrite includes_own.
    rewrite KEY_split in *.
    apply (@replace_fixed _ _ (privateKeyArray secretKey) envContent
             newline P NE I).
    rewrite <- (app_nil_r newline). apply newline_end.
Qed.

End DeployFacts.

(** X23.  The mint update touches one assignment only: when the text
    holds the key, the value of its first occurrence, up to the end of
    that line, is replaced by the mint, and everything before and after
    it, later assignments of the same key included, is kept; when it does
    not, a line is appended after a line break. *)
Theorem set_mint_address_first_only (mint envContent : jsstring) :
  Forall (fun c => In c Spec.base58_alphabet) mint ->
  (includes Deploy.MINT_ASSIGNMENT envContent = false
   /\ Deploy.set_mint_address mint envContent
      = envContent ++ Deploy.newline ++ Deploy.MINT_ASSIGNMENT ++ mint
        ++ Deploy.newline)
  \/ (exists pre old post,
        envContent = pre ++ Deploy.MINT_ASSIGNMENT ++ old ++ post
        /\ (forall i, (i < length pre)%nat ->
              startsWith Deploy.MINT_ASSIGNMENT (skipn i envContent) = false)
        /\ forallb (fun c => negb (Deploy.is_line_terminator c)) old = true
        /\ Deploy.line_end post
        /\ Deploy.set_mint_address mint envContent
           = pre ++ Deploy.MINT_ASSIGNMENT ++ mint ++ post).
Proof.
  intro F. unfold Deploy.set_mint_address.
  destruct (includes Deploy.MINT_ASSIGNMENT envContent) eqn:I.
  - right. apply DeployFacts.replace_first;
      [now apply DeployFacts.MINT_plain | discriminate | exact I].
  - left. now split.
Qed.

Lemma set_mint_address_first_only_witness :
  exists r, Deploy.set_mint_address Sample.bob (js "NODE_ENV=development") = r.
Proof.
  assert (F : Forall (fun c => In c Spec.base58_alphabet) Sample.bob)
    by now apply DeployFacts.base58_by_test.
  destruct (@set_mint_address_first_only Sample.bob
              (js "NODE_ENV=development") F)
    as [[_ E] | (pre & old & post & _ & _ & _ & _ & E)];
    eexists; exact E.
Defined.

(** X24.  The first deployment into a text that holds neither key
    appends two lines, the mint after a line break and the key after it,
    and a second run with the same mint and key writes the same text. *)
Theorem update_env_first_run (envContent mint : jsstring)
    (secretKey : list N) :
  includes Deploy.MINT_ASSIGNMENT envContent = false ->
  includes Deploy.KEY_ASSIGNMENT envContent = false ->
  Forall (fun c => In c Spec.base58_alphabet) mint ->
  Forall (fun b => (b < 256)%N) secretKey ->
  let written := Deploy.update_env (Some envContent) mint secretKey in
  written = envContent ++ Deploy.newline ++ Deploy.MINT_ASSIGNMENT ++ mint
            ++ Deploy.newline ++ Deploy.KEY_ASSIGNMENT
            ++ Deploy.privateKeyArray secretKey ++ Deploy.newline
  /\ Deploy.update_env (Some written) mint secretKey = written.
Proof.
  intros IM IK Fm Fk written.
  assert (NN : ~ In 10%N Deploy.KEY_ASSIGNMENT)
    by (apply DeployFacts.not_in_by_eqb; vm_compute; reflexivity).
  assert (NM : ~ In 10%N Deploy.MINT_ASSIGNMENT)
    by (apply DeployFacts.not_in_by_eqb; vm_compute; reflexivity).
  assert (NEK : ~ In (cu "=") (js "SOLANA_DEPLOYER_PRIVATE_KEY"))
    by (apply DeployFacts.not_in_by_eqb; vm_compute; reflexivity).
  assert (NEM : ~ In (cu "=") (js "NEXT_PUBLIC_USDC_MINT_ADDRESS"))
    by (apply DeployFacts.not_in_by_eqb; vm_compute; reflexivity).
  assert (K0 : includes Deploy.KEY_ASSIGNMENT
                 (envContent ++ Deploy.newline ++ Deploy.MINT_ASSIGNMENT
                  ++ mint ++ Deploy.newline) = false).
  { unfold Deploy.newline at 1. cbn [app].
    rewrite DeployFacts.includes_separated by (discriminate || exact NN).
    rewrite IK. cbn [orb]. rewrite app_assoc. unfold Deploy.newline.
    rewrite DeployFacts.includes_separated by (discriminate || exact NN).
    rewrite DeployFacts.KEY_split.
    rewrite DeployFacts.includes_without_end
      by now apply DeployFacts.base58_no_equals.
    reflexivity. }
  assert (W : written
              = envContent ++ Deploy.newline ++ Deploy.MINT_ASSIGNMENT ++ mint
                ++ Deploy.newline ++ Deploy.KEY_ASSIGNMENT
                ++ Deploy.privateKeyArray secretKey ++ Deploy.newline).
  { subst written. unfold Deploy.update_env, Deploy.set_mint_address.
    rewrite IM. unfold Deploy.set_deployer_key. rewrite K0.
    now rewrite <- !app_assoc. }
  split; [exact W|]. rewrite W.
  unfold Deploy.update_env.
  assert (M1 : Deploy.set_mint_address mint
                 (envContent ++ Deploy.newline ++ Deploy.MINT_ASSIGNMENT
                  ++ mint ++ Deploy.newline ++ Deploy.KEY_ASSIGNMENT
                  ++ Deploy.privateKeyArray secretKey ++ Deploy.newline)
               = envContent ++ Deploy.newline ++ Deploy.MINT_ASSIGNMENT
                 ++ mint ++ Deploy.newline ++ Deploy.KEY_ASSIGNMENT
                 ++ Deploy.privateKeyArray secretKey ++ Deploy.newline).
  { unfold Deploy.set_mint_address.
    rewrite (app_assoc envContent Deploy.newline).
    rewrite DeployFacts.includes_own.
    pose proof (DeployFacts.MINT_plain Fm) as P.
    rewrite DeployFacts.MINT_split in P |- *.
    apply (@DeployFacts.replace_fixed _ _ mint
             (envContent ++ Deploy.newline) _ P NEM).
    - rewrite <- DeployFacts.MINT_split.
      apply DeployFacts.includes_snoc; [discriminate | exact NM | exact IM].
    - apply DeployFacts.newline_end. }
  rewrite M1. unfold Deploy.set_deployer_key.
  rewrite !(app_assoc _ _ (Deploy.KEY_ASSIGNMENT ++ _)).
  rewrite DeployFacts.includes_own.
  pose proof (DeployFacts.KEY_plain Fk) as P.
  rewrite DeployFacts.KEY_split in P |- *.
  apply (@DeployFacts.replace_fixed _ _ (Deploy.privateKeyArray secretKey)
           _ Deploy.newline P NEK).
  - rewrite <- DeployFacts.KEY_split. exact K0.
  - rewrite <- (app_nil_r Deploy.newline). apply DeployFacts.newline_end.
Qed.

Lemma update_env_first_run_witness :
  Deploy.update_env (Some (js "NODE_ENV=development")) Sample.bob
                    [7; 42; 255]%N
  = js "NODE_ENV=development" ++ Deploy.newline
    ++ js "NEXT_PUBLIC_USDC_MINT_ADDRESS=" ++ Sample.bob ++ Deploy.newline
    ++ js "SOLANA_DEPLOYER_PRIVATE_KEY=7,42,255" ++ Deploy.newline.
Proof.
  rewrite (proj1 (@update_env_first_run (js "NODE_ENV=development")
                    Sample.bob [7; 42; 255]%N eq_refl eq_refl
                    (DeployFacts.base58_by_test Sample.bob eq_refl)
                    ltac:(repeat constructor))).
  reflexivity.
Defined.

Module RedeployFacts.
Import Deploy DeployFacts.

(** An assignment with another value on its line is rewritten in
    place. *)
Lemma replace_line body e v old pre rest :
  plain ((body ++ [e]) ++ v) = true -> plain old = true -> ~ In e body ->
  includes (body ++ [e]) pre = false -> line_end rest ->
  replace (body ++ [e]) ((body ++ [e]) ++ v)
          (pre ++ (body ++ [e]) ++ old ++ rest)
  = pre ++ (body ++ [e]) ++ v ++ rest.
Proof.
  intros P Po NI I E.
  rewrite (@replace_after body e _ pre (old ++ rest) P NI I).
  rewrite (@replace_hit _ _ _ P (startsWith_app _ _)).
  rewrite skipn_key, (@match_dot_star_line _ _ Po E).
  now rewrite <- app_assoc.
Qed.

(** The deployer's key does not occur in text without it that is
    followed by a mint assignment on its own line. *)
Lemma key_not_before envContent mint :
  includes KEY_ASSIGNMENT envContent = false ->
  Forall (fun c => In c Spec.base58_alphabet) mint ->
  includes KEY_ASSIGNMENT
    (envContent ++ newline ++ MINT_ASSIGNMENT ++ mint ++ newline) = false.
Proof.
  intros IK Fm.
  assert (NN : ~ In 10%N KEY_ASSIGNMENT)
    by (apply not_in_by_eqb; vm_compute; reflexivity).
  unfold newline at 1. cbn [app].
  rewrite includes_separated by (discriminate || exact NN).
  rewrite IK. cbn [orb]. rewrite app_assoc. unfold newline.
  rewrite includes_separated by (discriminate || exact NN).
  rewrite KEY_split.
  rewrite includes_without_end by now apply base58_no_equals.
  reflexivity.
Qed.

(** The text of a first deployment. *)
Lemma update_env_fresh envContent mint secretKey :
  includes MINT_ASSIGNMENT envContent = false ->
  includes KEY_ASSIGNMENT envContent = false ->
  Forall (fun c => In c Spec.base58_alphabet) mint ->
  update_env (Some envContent) mint secretKey
  = envContent ++ newline ++ MINT_ASSIGNMENT ++ mint ++ newline
    ++ KEY_ASSIGNMENT ++ privateKeyArray secretKey ++ newline.
Proof.
  intros IM IK Fm. unfold update_env, set_mint_address.
  rewrite IM. unfold set_deployer_key.
  rewrite (@key_not_before envContent mint IK Fm). now rewrite <- !app_assoc.
Qed.

(** In general a second run does not write what the first one wrote: in
    a text that holds both keys on one line, the first run loses the mint
    and the second one appends it. *)
Example second_run_differs :
  let env0 := js "#SOLANA_DEPLOYER_PRIVATE_KEY=0 NEXT_PUBLIC_USDC_MINT_ADDRESS=x" in
  let run1 := update_env (Some env0) Sample.bob [7; 42; 255]%N in
  run1 = js "#SOLANA_DEPLOYER_PRIVATE_KEY=7,42,255"
  /\ update_env (Some run1) Sample.bob [7; 42; 255]%N
     = js "#SOLANA_DEPLOYER_PRIVATE_KEY=7,42,255" ++ newline
       ++ js "NEXT_PUBLIC_USDC_MINT_ADDRESS=" ++ Sample.bob ++ newline.
Proof. vm_compute. split; reflexivity. Qed.

End RedeployFacts.

(** X22.  A later deployment into the text a first deployment wrote
    leaves what a first deployment with the new values would have
    written: for a text that held neither key before the first run, both
    values are replaced in place and nothing else changes.  With the same
    mint and key the second run therefore rewrites nothing. *)
Theorem update_env_redeploy (envContent mint0 mint : jsstring)
    (secretKey0 secretKey : list N) :
  includes Deploy.MINT_ASSIGNMENT envContent = false ->
  includes Deploy.KEY_ASSIGNMENT envContent = false ->
  Forall (fun c => In c Spec.base58_alphabet) mint0 ->
  Forall (fun c => In c Spec.base58_alphabet) mint ->
  Forall (fun b => (b < 256)%N) secretKey0 ->
  Forall (fun b => (b < 256)%N) secretKey ->
  Deploy.update_env
    (Some (Deploy.update_env (Some envContent) mint0 secretKey0))
    mint secretKey
  = Deploy.update_env (Some envContent) mint secretKey
  /\ Deploy.update_env (Some envContent) mint secretKey
     = envContent ++ Deploy.newline ++ Deploy.MINT_ASSIGNMENT ++ mint
       ++ Deploy.newline ++ Deploy.KEY_ASSIGNMENT
       ++ Deploy.privateKeyArray secretKey ++ Deploy.newline.
Proof.
  intros IM IK Fm0 Fm Fk0 Fk.
  assert (NM : ~ In 10%N Deploy.MINT_ASSIGNMENT)
    by (apply DeployFacts.not_in_by_eqb; vm_compute; reflexivity).
  assert (NEK : ~ In (cu "=") (js "SOLANA_DEPLOYER_PRIVATE_KEY"))
    by (apply DeployFacts.not_in_by_eqb; vm_compute; reflexivity).
  assert (NEM : ~ In (cu "=") (js "NEXT_PUBLIC_USDC_MINT_ADDRESS"))
    by (apply DeployFacts.not_in_by_eqb; vm_compute; reflexivity).
  split; [|now apply RedeployFacts.update_env_fresh].
  rewrite (@RedeployFacts.update_env_fresh envContent mint0 secretKey0 IM IK Fm0).
  rewrite (@RedeployFacts.update_env_fresh envContent mint secretKey IM IK Fm).
  unfold Deploy.update_env.
  assert (M1 : Deploy.set_mint_address mint
                 (envContent ++ Deploy.newline ++ Deploy.MINT_ASSIGNMENT
                  ++ mint0 ++ Deploy.newline ++ Deploy.KEY_ASSIGNMENT
                  ++ Deploy.privateKeyArray secretKey0 ++ Deploy.newline)
               = envContent ++ Deploy.newline ++ Deploy.MINT_ASSIGNMENT
                 ++ mint ++ Deploy.newline ++ Deploy.KEY_ASSIGNMENT
                 ++ Deploy.privateKeyArray secretKey0 ++ Deploy.newline).
  { unfold Deploy.set_mint_address.
    rewrite (app_assoc envContent Deploy.newline).
    rewrite DeployFacts.includes_own.
    pose proof (DeployFacts.MINT_plain Fm) as P.
    rewrite DeployFacts.MINT_split in P |- *.
    rewrite (@RedeployFacts.replace_line _ _ mint mint0
               (envContent ++ Deploy.newline) _ P
               (DeployFacts.base58_plain Fm0) NEM).
    - now rewrite <- app_assoc.
    - rewrite <- DeployFacts.MINT_split.
      apply DeployFacts.includes_snoc; [discriminate | exact NM | exact IM].
    - apply DeployFacts.newline_end. }
  rewrite M1. unfold Deploy.set_deployer_key.
  rewrite !(app_assoc _ _ (Deploy.KEY_ASSIGNMENT ++ _)).
  rewrite DeployFacts.includes_own.
  pose proof (DeployFacts.KEY_plain Fk) as P.
  rewrite DeployFacts.KEY_split in P |- *.
  apply (@RedeployFacts.replace_line _ _ (Deploy.privateKeyArray secretKey)
           (Deploy.privateKeyArray secretKey0) _ Deploy.newline P
           (DeployFacts.privateKeyArray_plain Fk0) NEK).
  - rewrite <- DeployFacts.KEY_split.
    now apply RedeployFacts.key_not_before.
  - rewrite <- (app_nil_r Deploy.newline). apply DeployFacts.newline_end.
Qed.

Lemma update_env_redeploy_witness :
  Deploy.update_env
    (Some (Deploy.update_env (Some (js "NODE_ENV=development")) Sample.alice
                             [1; 2; 3]%N))
    Sample.bob [7; 42; 255]%N
  = js "NODE_ENV=development" ++ Deploy.newline
    ++ js "NEXT_PUBLIC_USDC_MINT_ADDRESS=" ++ Sample.bob ++ Deploy.newline
    ++ js "SOLANA_DEPLOYER_PRIVATE_KEY=7,42,255" ++ Deploy.newline.
Proof.
  destruct (@update_env_redeploy (js "NODE_ENV=development") Sample.alice
              Sample.bob [1; 2; 3]%N [7; 42; 255]%N eq_refl eq_refl
              (DeployFacts.base58_by_test Sample.alice eq_refl)
              (DeployFacts.base58_by_test Sample.bob eq_refl)
              ltac:(repeat constructor) ltac:(repeat constructor))
    as [E1 E2].
  rewrite E1, E2. reflexivity.
Defined.
